(** * A shallow embedding of the tarxx tar writer (include/tarxx.h)

    The model follows [struct tarfile] of [include/tarxx.h]: the header field
    encoder, the checksum, the relative-path policy of [Filesystem], the
    regular-file writers, the streaming API and the entry admission methods.

    Bytes are [Z] values in [0, 255]; a [block_t] is a list of 512 bytes;
    C++ strings are Rocq [string]s, turned into bytes with [bytes_of].
    Exceptions are modelled as an error result that leaves the writer state
    as it was when the exception was thrown (member updates made before a
    [throw] stay visible, as in C++). *)

From Stdlib Require Import ZArith NArith Lia List Bool Ascii String.
From stdpp Require Import base gmap sets strings.
Import ListNotations.
Open Scope Z_scope.

(* ------------------------------------------------------------------ *)
(** ** Bytes, blocks and the field encoder *)

Definition BLOCK_SIZE : nat := 512.

(** The bytes of a C++ [std::string]. *)
Definition bytes_of (s : string) : list Z :=
  map (fun a => Z.of_nat (nat_of_ascii a)) (list_ascii_of_string s).

Definition zero_block : list Z := repeat 0 BLOCK_SIZE.

(** [std::copy_n(src, n, block.data() + pos)] with [n = length src]: the bytes
    of [src] replace [block[pos .. pos + n)]. *)
Definition overwrite (block : list Z) (pos : nat) (src : list Z) : list Z :=
  firstn pos block ++ src ++ skipn (pos + length src) block.

(** [write_into_block(block, str, pos, len)]: copies [min(str.size(), len)]
    bytes, no terminator. *)
Definition write_into_block_str (block : list Z) (str : list Z) (pos len : nat) : list Z :=
  let copylen := Nat.min (length str) len in
  overwrite block pos (firstn copylen str).

(** Octal digits of [value] as printed by [std::oct] (no leading zeros,
    ["0"] for zero).  [fuel] bounds the recursion; [N.size_nat value] bits
    are always enough. *)
Fixpoint octal_digits_fuel (fuel : nat) (value : N) : list N :=
  match fuel with
  | O => [value]
  | S f => if (value <? 8)%N then [value]
           else octal_digits_fuel f (value / 8)%N ++ [(value mod 8)%N]
  end.

Definition octal_digits (value : N) : list N :=
  octal_digits_fuel (S (N.size_nat value)) value.

(** [to_octal_ascii(value, width)]: [std::setw(width)] with fill ['0'],
    right aligned, then [substr(size - width)] when longer than [width]. *)
Definition to_octal_ascii (value : N) (width : nat) : list Z :=
  let str := map (fun d => 48 + Z.of_N d) (octal_digits value) in
  let str := repeat 48 (width - length str)%nat ++ str in
  if (width <? length str)%nat then skipn (length str - width) str else str.

(** [write_into_block(block, unsigned long long value, pos, len)]. *)
Definition write_into_block_num (block : list Z) (value : N) (pos len : nat) : list Z :=
  write_into_block_str block (to_octal_ascii value len) pos len.

Definition UNIX_V7_USTAR_HEADER_POS_NAME : nat := 0.
Definition UNIX_V7_USTAR_HEADER_POS_MODE : nat := 100.
Definition UNIX_V7_USTAR_HEADER_POS_UID : nat := 108.
Definition UNIX_V7_USTAR_HEADER_POS_GID : nat := 116.
Definition UNIX_V7_USTAR_HEADER_POS_SIZE : nat := 124.
Definition UNIX_V7_USTAR_HEADER_POS_MTIM : nat := 136.
Definition UNIX_V7_USTAR_HEADER_POS_CHECKSUM : nat := 148.
Definition UNIX_V7_USTAR_HEADER_POS_TYPEFLAG : nat := 156.
Definition UNIX_V7_USTAR_HEADER_POS_LINKNAME : nat := 157.
Definition USTAR_HEADER_POS_MAGIC : nat := 257.
Definition USTAR_HEADER_POS_UNAME : nat := 265.
Definition USTAR_HEADER_POS_GNAME : nat := 297.
Definition USTAR_HEADER_POS_DEVMAJOR : nat := 329.
Definition USTAR_HEADER_POS_DEVMINOR : nat := 337.
Definition USTAR_HEADER_POS_PREFIX : nat := 345.

Definition UNIX_V7_USTAR_HEADER_LEN_NAME : nat := 100.
Definition UNIX_V7_USTAR_HEADER_LEN_MODE : nat := 8.
Definition UNIX_V7_USTAR_HEADER_LEN_UID : nat := 8.
Definition UNIX_V7_USTAR_HEADER_LEN_GID : nat := 8.
Definition UNIX_V7_USTAR_HEADER_LEN_SIZE : nat := 12.
Definition UNIX_V7_USTAR_HEADER_LEN_MTIM : nat := 12.
Definition UNIX_V7_USTAR_HEADER_LEN_CHKSUM : nat := 8.
Definition UNIX_V7_USTAR_HEADER_LEN_TYPEFLAG : nat := 1.
Definition UNIX_V7_USTAR_HEADER_LEN_LINKNAME : nat := 100.
Definition USTAR_HEADER_LEN_MAGIC : nat := 6.
Definition USTAR_HEADER_LEN_UNAME : nat := 32.
Definition USTAR_HEADER_LEN_GNAME : nat := 32.
Definition USTAR_HEADER_LEN_DEVMAJOR : nat := 8.
Definition USTAR_HEADER_LEN_DEVMINOR : nat := 8.
Definition USTAR_HEADER_LEN_PREFIX : nat := 155.

(** [calc_and_write_checksum]. *)
Definition calc_and_write_checksum (block : list Z) : list Z :=
  let block := overwrite block UNIX_V7_USTAR_HEADER_POS_CHECKSUM
                 (repeat 32 UNIX_V7_USTAR_HEADER_LEN_CHKSUM) in
  let chksum := fold_left (fun acc c => acc + Z.land c 255) block 0 in
  let block := write_into_block_num block (Z.to_N chksum)
                 UNIX_V7_USTAR_HEADER_POS_CHECKSUM (UNIX_V7_USTAR_HEADER_LEN_CHKSUM - 2) in
  overwrite block (UNIX_V7_USTAR_HEADER_POS_CHECKSUM + UNIX_V7_USTAR_HEADER_LEN_CHKSUM - 1) [0].

(** Reading helpers used in statements only. *)
Definition field (block : list Z) (pos len : nat) : list Z := firstn len (skipn pos block).

Definition unsigned_sum (block : list Z) : Z :=
  fold_left (fun acc c => acc + Z.land c 255) block 0.

(** Value of an ASCII octal numeral. *)
Definition octal_read (s : list Z) : Z :=
  fold_left (fun acc c => acc * 8 + (c - 48)) s 0.

Example oct_ex1 : to_octal_ascii 511 8 = bytes_of "00000777". Proof. reflexivity. Qed.
Example oct_ex2 : to_octal_ascii 48 1 = bytes_of "0". Proof. reflexivity. Qed.
Example oct_ex3 : to_octal_ascii 0 12 = bytes_of "000000000000". Proof. reflexivity. Qed.

(* ------------------------------------------------------------------ *)
(** ** Entry kinds, formats, exceptions *)

(** [enum class file_type_flag : char]. *)
Inductive file_type_flag :=
  REGULAR_FILE | HARD_LINK | SYMBOLIC_LINK | CHARACTER_SPECIAL_FILE
| BLOCK_SPECIAL_FILE | DIRECTORY | FIFO | CONTIGUOUS_FILE.

(** [static_cast<char>(type)]: the tag characters '0' .. '7'. *)
Definition file_type_char (t : file_type_flag) : N :=
  match t with
  | REGULAR_FILE => 48 | HARD_LINK => 49 | SYMBOLIC_LINK => 50
  | CHARACTER_SPECIAL_FILE => 51 | BLOCK_SPECIAL_FILE => 52
  | DIRECTORY => 53 | FIFO => 54 | CONTIGUOUS_FILE => 55
  end%N.

Definition file_type_flag_eqb (a b : file_type_flag) : bool :=
  N.eqb (file_type_char a) (file_type_char b).

Inductive tar_type := unix_v7 | ustar.
Inductive output_mode := file_output | stream_output.
Inductive compression_mode := none | lz4.

(** The C++ exception thrown, by class, with its message where the source
    gives a fixed one.  [std::logic_error] is the IllegalState kind of the
    spec; [std::invalid_argument] its Invalid kind. *)
Inductive exn :=
| LogicError (msg : string)
| InvalidArgument (msg : string)
| OutOfRange
| RuntimeError (msg : string)
| SystemError.

Inductive res (A : Type) := Ok (a : A) | Err (e : exn).
Arguments Ok {A} a.
Arguments Err {A} e.

Definition msg_same_name : string := "Can't add a file with the same name twice".
Definition msg_streaming_in_progress : string :=
  "Can't add new file while adding streaming data isn't completed".
Definition msg_none_in_progress : string := "Can't finish stream file, none is in progress".

(* ------------------------------------------------------------------ *)
(** ** [Filesystem::relative_path] *)

(** Strips leading ['/'] and leading [".."], recursively; ["../"] becomes
    ["./"] and ["/"] is rejected. *)
Fixpoint relative_path (path : string) : res string :=
  match path with
  | EmptyString => Ok ""%string
  | String c rest =>
      if String.eqb path "../" then Ok "./"%string
      else if String.eqb path "/" then Err (InvalidArgument "can't tar the rootfs")
      else if Ascii.eqb c "/"%char then relative_path rest
      else match rest with
           | String c2 rest2 =>
               if Ascii.eqb c "."%char && Ascii.eqb c2 "."%char
               then relative_path rest2 else Ok path
           | EmptyString => Ok path
           end
  end.

Example relative_path_ex1 : relative_path "/a" = Ok "a"%string. Proof. reflexivity. Qed.
Example relative_path_ex2 : relative_path "//../x/y" = Ok "x/y"%string. Proof. reflexivity. Qed.
Example relative_path_ex3 : relative_path "/../" = Ok "./"%string. Proof. reflexivity. Qed.

(* ------------------------------------------------------------------ *)
(** ** The host platform ([struct Platform : PosixOS, StdFilesytem])

    The file system is read only for the writer; it is given as an
    environment: [fs_lstat] does not follow symbolic links (what
    [std::filesystem::is_symlink] and [read_symlink] see), [fs_stat] follows
    them (what [stat(2)], [std::filesystem::status], [file_size] and the
    input streams see). *)

Inductive fs_kind := FK_regular | FK_directory | FK_block | FK_character
                   | FK_fifo | FK_symlink | FK_other.

Record node := {
  n_kind : fs_kind;
  n_mode : N;          (** the nine permission bits of [StdFilesytem::mode] *)
  n_uid : N;
  n_gid : N;
  n_mtime : Z;
  n_ino : Z;
  n_nlink : Z;
  n_content : list Z;  (** the bytes an input stream reads *)
  n_target : string;   (** [read_symlink] *)
  n_major : N;
  n_minor : N;
  n_readable : bool;   (** [std::ifstream(path).good()] *)
}.

(* ------------------------------------------------------------------ *)
(** ** [PosixOS]: user and group names and ids *)

(** Linux [errno] values. *)
Definition EPERM : Z := 1.
Definition ENOENT : Z := 2.
Definition ESRCH : Z := 3.
Definition EBADF : Z := 9.

Record passwd := mk_passwd { pw_name : string; pw_uid : N; pw_gid : N }.

(** The C library [PosixOS] calls: [getpwuid_r] and [getgrgid_r] give their
    return code and the entry ([result == nullptr] is [None]; a group entry
    is its [gr_name]). *)
Record NameDb := {
  getpwuid_r : N -> Z * option passwd;
  getgrgid_r : N -> Z * option string;
  geteuid : N;
}.

(** [throw_exception_getpwd_getgrgid_on_error]: success and the codes that
    mean "no entry" pass, any other code throws an [errno_exception]. *)
Definition throw_exception_getpwd_getgrgid_on_error (error : Z) : res unit :=
  if (error =? 0) || (error =? ENOENT) || (error =? ESRCH) || (error =? EBADF) || (error =? EPERM)
  then Ok tt else Err SystemError.

(** Decimal digits of [value], most significant first, as [std::to_string]
    prints an unsigned value; [fuel]: [N.size_nat value] is enough. *)
Fixpoint decimal_digits_fuel (fuel : nat) (value : N) : list N :=
  match fuel with
  | O => [value]
  | S f => if (value <? 10)%N then [value]
           else decimal_digits_fuel f (value / 10)%N ++ [(value mod 10)%N]
  end.

Definition decimal_digits (value : N) : list N :=
  decimal_digits_fuel (S (N.size_nat value)) value.

Definition to_string (value : N) : string :=
  string_of_list_ascii (map (fun d => ascii_of_N (48 + d)) (decimal_digits value)).

(** The two caches of a [PosixOS] object. *)
Record PosixOS := mk_PosixOS {
  grpid_cache_ : gmap N string;
  pwuid_cache_ : gmap N string;
}.

Definition group_name_buffered (db : NameDb) (gid : N) (os : PosixOS) : res string * PosixOS :=
  match grpid_cache_ os !! gid with
  | Some name => (Ok name, os)
  | None =>
      let (gr_gid_result, result) := getgrgid_r db gid in
      match throw_exception_getpwd_getgrgid_on_error gr_gid_result with
      | Err e => (Err e, os)
      | Ok _ =>
          let name := match result with None => to_string gid | Some n => n end in
          (Ok name, mk_PosixOS (<[ gid := name ]> (grpid_cache_ os)) (pwuid_cache_ os))
      end
  end.

Definition user_name_buffered (db : NameDb) (uid : N) (os : PosixOS) : res string * PosixOS :=
  match pwuid_cache_ os !! uid with
  | Some name => (Ok name, os)
  | None =>
      let (pw_uid_result, result) := getpwuid_r db uid in
      if negb (pw_uid_result =? 0) then (Err SystemError, os) else
      match throw_exception_getpwd_getgrgid_on_error pw_uid_result with
      | Err e => (Err e, os)
      | Ok _ =>
          let name := match result with None => to_string uid | Some p => pw_name p end in
          (Ok name, mk_PosixOS (grpid_cache_ os) (<[ uid := name ]> (pwuid_cache_ os)))
      end
  end.

(* ------------------------------------------------------------------ *)
(** ** The platform *)

Record Platform := {
  fs_lstat : string -> option node;
  fs_stat : string -> option node;
  fs_realpath : string -> string;
  fs_walk : string -> list string;  (** [recursive_directory_iterator] order *)
  os_names : NameDb;                (** the user and group database of [PosixOS] *)
}.

Section PlatformOps.
Variable pf : Platform.

(** [StdFilesytem::type_flag]: symbolic links are classified first. *)
Definition type_flag (path : string) : res file_type_flag :=
  let unsupported := Err (InvalidArgument "Path is of an unsupported type or already deleted") in
  match fs_lstat pf path with
  | Some n => if (match n_kind n with FK_symlink => true | _ => false end)
              then Ok SYMBOLIC_LINK else
              match fs_stat pf path with
              | Some m =>
                  match n_kind m with
                  | FK_regular => Ok REGULAR_FILE
                  | FK_directory => Ok DIRECTORY
                  | FK_block => Ok BLOCK_SPECIAL_FILE
                  | FK_character => Ok CHARACTER_SPECIAL_FILE
                  | FK_fifo => Ok FIFO
                  | _ => unsupported
                  end
              | None => unsupported
              end
  | None => unsupported
  end.

Definition file_exists (path : string) : bool :=
  match fs_stat pf path with Some _ => true | None => false end.

Definition is_directory (path : string) : bool :=
  match fs_stat pf path with
  | Some n => match n_kind n with FK_directory => true | _ => false end
  | None => false
  end.

(** [get_stat]: throws [errno_exception] when [stat] fails. *)
Definition get_stat (path : string) : res node :=
  match fs_stat pf path with Some n => Ok n | None => Err SystemError end.

Definition file_owner (path : string) : res N :=
  match get_stat path with Ok n => Ok (n_uid n) | Err e => Err e end.
Definition file_group (path : string) : res N :=
  match get_stat path with Ok n => Ok (n_gid n) | Err e => Err e end.

(** [std::filesystem::status(path).permissions()] is [perms::unknown] (all
    bits set) for a missing path, which [StdFilesytem::mode] maps to 0777. *)
Definition mode (path : string) : N :=
  match fs_stat pf path with Some n => n_mode n | None => 511%N end.

Definition file_size (path : string) : res N :=
  match get_stat path with Ok n => Ok (N.of_nat (length (n_content n))) | Err e => Err e end.
Definition mod_time (path : string) : res Z :=
  match get_stat path with Ok n => Ok (n_mtime n) | Err e => Err e end.
Definition ino (path : string) : res Z :=
  match get_stat path with Ok n => Ok (n_ino n) | Err e => Err e end.
Definition major_minor (path : string) : res (N * N) :=
  match get_stat path with Ok n => Ok (n_major n, n_minor n) | Err e => Err e end.

Definition read_symlink (path : string) : res string :=
  match fs_lstat pf path with Some n => Ok (n_target n) | None => Err SystemError end.

Definition can_open (path : string) : bool :=
  match fs_stat pf path with Some n => n_readable n | None => false end.

(** The bytes an input stream opened on [path] reads. *)
Definition read_file (path : string) : res (list Z) :=
  match fs_stat pf path with
  | Some n => if n_readable n then Ok (n_content n)
              else Err (RuntimeError ("Can't find input file " ++ path))
  | None => Err (RuntimeError ("Can't find input file " ++ path))
  end.

(** [PosixOS::file_equivalent_present]: only files with more than one
    hard link are looked up in [stored_inos_]. *)
Definition file_equivalent_present (path : string) (stored : gmap Z string)
  : res (option string) :=
  match get_stat path with
  | Ok n => Ok (if Z.ltb 1 (n_nlink n) then stored !! n_ino n else None)
  | Err e => Err e
  end.

Definition path_separator : Z := 47.

(** [PosixOS::user_name] and [group_name] return [user_name_buffered] and
    [group_name_buffered].  Their caches only memoise what the database
    answered for the same id (a failed lookup caches nothing), so with the
    database a fixed function the answer is the one an empty cache gives
    (lemmas [user_name_buffered_coherent], [group_name_buffered_coherent]). *)
Definition user_name (uid : N) : res string :=
  fst (user_name_buffered (os_names pf) uid (mk_PosixOS ∅ ∅)).
Definition group_name (gid : N) : res string :=
  fst (group_name_buffered (os_names pf) gid (mk_PosixOS ∅ ∅)).

(** The names [write_header] puts into a ustar header:
    [platform_.user_name(uid)], then [platform_.group_name(gid)], each of
    which may throw; a unix_v7 header has no name fields. *)
Definition header_names (type : tar_type) (uid gid : N) : res (string * string) :=
  match type with
  | ustar =>
      match user_name uid with
      | Ok un => match group_name gid with Ok gn => Ok (un, gn) | Err e => Err e end
      | Err e => Err e
      end
  | unix_v7 => Ok (""%string, ""%string)
  end.

End PlatformOps.

(* ------------------------------------------------------------------ *)
(** ** The LZ4 frame codec (external collaborator)

    Only the interface the writer consumes: every LZ4F call returns the
    bytes it produced into [lz4_out_buf_] (or fails, which
    [lz4_call_and_check_error] turns into a [std::runtime_error]). *)

Class Lz4Codec (cst : Type) := {
  LZ4F_createCompressionContext : cst;
  LZ4F_compressBegin : cst -> option (cst * list Z);
  LZ4F_compressUpdate : cst -> list Z -> option (cst * list Z);
  LZ4F_uncompressedUpdate : cst -> list Z -> option (cst * list Z);
  LZ4F_flush : cst -> option (cst * list Z);
  LZ4F_compressEnd : cst -> option (cst * list Z);
}.

(* ------------------------------------------------------------------ *)
(** ** Writer state *)

Record tarfile (cst : Type) := mk_tarfile {
  type_ : tar_type;
  mode_ : output_mode;
  compression_ : compression_mode;
  file_name_ : string;
  opened : bool;                    (** [is_open()] *)
  file_ : list Z;                   (** the bytes of the output file *)
  file_pos_ : nat;                  (** its put position *)
  callback_log : list (list Z * nat);  (** the [callback_(block, size)] calls, in order *)
  written : list (list Z * bool);   (** ghost: every [write(block, is_header)] that reached the output *)
  stream_file_header_pos_ : Z;
  stream_block_ : list Z;           (** [stream_block_[0 .. stream_block_used_)] *)
  stored_inos_ : gmap Z string;
  stored_files_ : gset string;
  lz4_ctx_ : cst;
  lz4_out_buf_ : list Z;
  lz4_out_buf_pos_ : nat;
}.
Arguments mk_tarfile {cst}.
Arguments type_ {cst}. Arguments mode_ {cst}. Arguments compression_ {cst}.
Arguments file_name_ {cst}. Arguments opened {cst}. Arguments file_ {cst}.
Arguments file_pos_ {cst}. Arguments callback_log {cst}. Arguments written {cst}.
Arguments stream_file_header_pos_ {cst}. Arguments stream_block_ {cst}.
Arguments stored_inos_ {cst}. Arguments stored_files_ {cst}. Arguments lz4_ctx_ {cst}.
Arguments lz4_out_buf_ {cst}. Arguments lz4_out_buf_pos_ {cst}.

Section Setters.
Context {cst : Type}.
Implicit Type t : tarfile cst.

Definition set_opened b t :=
  mk_tarfile (type_ t) (mode_ t) (compression_ t) (file_name_ t) b (file_ t) (file_pos_ t)
    (callback_log t) (written t) (stream_file_header_pos_ t) (stream_block_ t)
    (stored_inos_ t) (stored_files_ t) (lz4_ctx_ t) (lz4_out_buf_ t) (lz4_out_buf_pos_ t).
Definition set_file f p t :=
  mk_tarfile (type_ t) (mode_ t) (compression_ t) (file_name_ t) (opened t) f p
    (callback_log t) (written t) (stream_file_header_pos_ t) (stream_block_ t)
    (stored_inos_ t) (stored_files_ t) (lz4_ctx_ t) (lz4_out_buf_ t) (lz4_out_buf_pos_ t).
Definition set_callback_log l t :=
  mk_tarfile (type_ t) (mode_ t) (compression_ t) (file_name_ t) (opened t) (file_ t) (file_pos_ t)
    l (written t) (stream_file_header_pos_ t) (stream_block_ t)
    (stored_inos_ t) (stored_files_ t) (lz4_ctx_ t) (lz4_out_buf_ t) (lz4_out_buf_pos_ t).
Definition set_written w t :=
  mk_tarfile (type_ t) (mode_ t) (compression_ t) (file_name_ t) (opened t) (file_ t) (file_pos_ t)
    (callback_log t) w (stream_file_header_pos_ t) (stream_block_ t)
    (stored_inos_ t) (stored_files_ t) (lz4_ctx_ t) (lz4_out_buf_ t) (lz4_out_buf_pos_ t).
Definition set_stream_file_header_pos p t :=
  mk_tarfile (type_ t) (mode_ t) (compression_ t) (file_name_ t) (opened t) (file_ t) (file_pos_ t)
    (callback_log t) (written t) p (stream_block_ t)
    (stored_inos_ t) (stored_files_ t) (lz4_ctx_ t) (lz4_out_buf_ t) (lz4_out_buf_pos_ t).
Definition set_stream_block b t :=
  mk_tarfile (type_ t) (mode_ t) (compression_ t) (file_name_ t) (opened t) (file_ t) (file_pos_ t)
    (callback_log t) (written t) (stream_file_header_pos_ t) b
    (stored_inos_ t) (stored_files_ t) (lz4_ctx_ t) (lz4_out_buf_ t) (lz4_out_buf_pos_ t).
Definition set_stored_inos m t :=
  mk_tarfile (type_ t) (mode_ t) (compression_ t) (file_name_ t) (opened t) (file_ t) (file_pos_ t)
    (callback_log t) (written t) (stream_file_header_pos_ t) (stream_block_ t)
    m (stored_files_ t) (lz4_ctx_ t) (lz4_out_buf_ t) (lz4_out_buf_pos_ t).
Definition set_stored_files s t :=
  mk_tarfile (type_ t) (mode_ t) (compression_ t) (file_name_ t) (opened t) (file_ t) (file_pos_ t)
    (callback_log t) (written t) (stream_file_header_pos_ t) (stream_block_ t)
    (stored_inos_ t) s (lz4_ctx_ t) (lz4_out_buf_ t) (lz4_out_buf_pos_ t).
Definition set_lz4 (c : cst) (buf : list Z) (p : nat) (t : tarfile cst) : tarfile cst :=
  mk_tarfile (type_ t) (mode_ t) (compression_ t) (file_name_ t) (opened t) (file_ t) (file_pos_ t)
    (callback_log t) (written t) (stream_file_header_pos_ t) (stream_block_ t)
    (stored_inos_ t) (stored_files_ t) c buf p.
End Setters.

(* ------------------------------------------------------------------ *)
(** ** The state-and-exception monad of a member function *)

Definition M (cst A : Type) := tarfile cst -> res A * tarfile cst.

Definition ret {cst A} (a : A) : M cst A := fun t => (Ok a, t).
Definition bind {cst A B} (m : M cst A) (k : A -> M cst B) : M cst B :=
  fun t => match m t with
           | (Ok a, t') => k a t'
           | (Err e, t') => (Err e, t')
           end.
Definition throw {cst A} (e : exn) : M cst A := fun t => (Err e, t).
Definition get {cst} : M cst (tarfile cst) := fun t => (Ok t, t).
Definition modify {cst} (f : tarfile cst -> tarfile cst) : M cst unit := fun t => (Ok tt, f t).
Definition lift {cst A} (r : res A) : M cst A :=
  fun t => match r with Ok a => (Ok a, t) | Err e => (Err e, t) end.

Notation "'let*' x ':=' m 'in' k" := (bind m (fun x => k))
  (at level 200, x name, m at level 100, k at level 200).
Notation "m ;; k" := (bind m (fun _ => k)) (at level 100, right associativity).

(* ------------------------------------------------------------------ *)
(** ** Output: [write], the LZ4 stage and the file position *)

(** Writing [data] at position [pos] of a file (a gap is filled with
    zeroes).  The 256 KiB [file_buffer_] is not modelled: it is flushed
    before every [tellp]/[seekp], so the bytes reach the file at the position
    they were written at. *)
Definition write_at (f : list Z) (pos : nat) (data : list Z) : list Z :=
  firstn pos f ++ repeat 0 (pos - length f) ++ data ++ skipn (pos + length data) f.

Section Output.
Context {cst : Type} `{Lz4Codec cst}.

(** [file_buffered_write]; the bytes are lost when the file is closed. *)
Definition file_buffered_write (data : list Z) : M cst unit :=
  modify (fun t => if opened t
                   then set_file (write_at (file_ t) (file_pos_ t) data)
                                 (file_pos_ t + length data)%nat t
                   else t).

(** An LZ4F call writes its output at [lz4_out_buf_.data()] and the caller
    adds its size to [lz4_out_buf_pos_]. *)
Definition lz4_call (r : option (cst * list Z)) : M cst unit :=
  match r with
  | None => throw (RuntimeError "lz4 function failed")
  | Some (c, out) =>
      modify (fun t => set_lz4 c (out ++ skipn (length out) (lz4_out_buf_ t))
                              (lz4_out_buf_pos_ t + length out)%nat t)
  end.

(** The [callback_(block, copy_size)] calls of [write_lz4_data] in
    [stream_output] mode, for [remaining] bytes starting at [offset];
    [fuel] bounds the loop ([remaining] iterations always suffice). *)
Fixpoint lz4_callback_blocks (fuel : nat) (buf : list Z) (offset remaining : nat)
  : list (list Z * nat) :=
  match fuel with
  | O => []
  | S f =>
      if (remaining =? 0)%nat then []
      else let copy_size := Nat.min remaining BLOCK_SIZE in
           (overwrite zero_block 0 (firstn copy_size (skipn offset buf ++ repeat 0 copy_size)),
            copy_size)
           :: lz4_callback_blocks f buf (offset + copy_size) (remaining - copy_size)
  end.

Definition write_lz4_data : M cst unit :=
  let* t := get in
  match mode_ t with
  | stream_output =>
      modify (fun t => set_lz4 (lz4_ctx_ t) (lz4_out_buf_ t) 0
                         (set_callback_log (callback_log t ++
                            lz4_callback_blocks (lz4_out_buf_pos_ t) (lz4_out_buf_ t) 0
                              (lz4_out_buf_pos_ t)) t))
  | file_output =>
      file_buffered_write (firstn (lz4_out_buf_pos_ t)
                             (lz4_out_buf_ t ++ repeat 0 (lz4_out_buf_pos_ t))) ;;
      modify (fun t => set_lz4 (lz4_ctx_ t) (lz4_out_buf_ t) 0 t)
  end.

Definition lz4_flush : M cst unit :=
  let* t := get in lz4_call (LZ4F_flush (lz4_ctx_ t)) ;;
  let* t := get in lz4_call (LZ4F_flush (lz4_ctx_ t)) ;;
  write_lz4_data.

(** [write(data, is_header)]. *)
Definition write (data : list Z) (is_header : bool) : M cst unit :=
  let* t := get in
  if negb (opened t) then ret tt else
  modify (fun t => set_written (written t ++ [(data, is_header)]) t) ;;
  match compression_ t with
  | lz4 =>
      (if is_header
       then let* t := get in lz4_call (LZ4F_uncompressedUpdate (lz4_ctx_ t) data) ;; lz4_flush
       else let* t := get in lz4_call (LZ4F_compressUpdate (lz4_ctx_ t) data)) ;;
      write_lz4_data
  | none =>
      match mode_ t with
      | stream_output =>
          (* [callback_(data, data.size())]: [data.size()] of a [block_t] is 512 *)
          modify (fun t => set_callback_log (callback_log t ++ [(data, BLOCK_SIZE)]) t)
      | file_output => file_buffered_write data
      end
  end.

(** [file_tellp] / [file_tellg]: [-1] when no file is open. *)
Definition file_tellp : M cst Z :=
  let* t := get in
  ret (match mode_ t with
       | file_output => if opened t then Z.of_nat (file_pos_ t) else -1
       | stream_output => -1
       end).

Definition file_seekp (pos : Z) : M cst unit :=
  modify (fun t => match mode_ t with
                   | file_output => if opened t && (0 <=? pos)
                                    then set_file (file_ t) (Z.to_nat pos) t else t
                   | stream_output => t
                   end).

Definition finish : M cst unit :=
  write zero_block false ;;
  write zero_block false ;;
  let* t := get in
  match compression_ t with
  | lz4 => lz4_call (LZ4F_compressEnd (lz4_ctx_ t)) ;; write_lz4_data
  | none => ret tt
  end.

(** [close()]: exceptions are swallowed, the state reached stays. *)
Definition close : M cst unit :=
  fun t0 =>
    if opened t0 then
      match finish t0 with
      | (Ok _, t1) => (Ok tt, set_opened false t1)
      | (Err _, t1) => (Ok tt, t1)
      end
    else (Ok tt, t0).

Definition check_state_and_flush : M cst unit :=
  let* t := get in
  if negb (opened t) then throw (LogicError "Cannot add file, tar archive is not open") else
  if 0 <=? stream_file_header_pos_ t then throw (LogicError msg_streaming_in_progress) else
  match compression_ t with lz4 => lz4_flush | none => ret tt end.

End Output.

(* ------------------------------------------------------------------ *)
(** ** The header builder ([write_header], [write_name_and_prefix]) *)

(** [std::string::rfind(c)]: the last index of [c]. *)
Fixpoint rfind_aux (c : Z) (l : list Z) (i : nat) (acc : option nat) : option nat :=
  match l with
  | [] => acc
  | x :: r => rfind_aux c r (S i) (if Z.eqb x c then Some i else acc)
  end.
Definition rfind (c : Z) (l : list Z) : option nat := rfind_aux c l 0 None.

Definition write_name_and_prefix (type : tar_type) (block : list Z) (name : list Z) : list Z :=
  let write_name_unix_v7_format :=
    write_into_block_str block name UNIX_V7_USTAR_HEADER_POS_NAME UNIX_V7_USTAR_HEADER_LEN_NAME in
  if (length name <=? UNIX_V7_USTAR_HEADER_LEN_NAME)%nat
     || match type with unix_v7 => true | ustar => false end
  then write_name_unix_v7_format
  else match rfind path_separator name with
       | None => write_name_unix_v7_format
       | Some _ =>
           let prefix_trimmed := firstn USTAR_HEADER_LEN_PREFIX name in
           match rfind path_separator prefix_trimmed with
           | None => write_name_unix_v7_format
           | Some last_separator_in_prefix =>
               let prefix := firstn last_separator_in_prefix name in
               let block := write_into_block_str block prefix
                              USTAR_HEADER_POS_PREFIX USTAR_HEADER_LEN_PREFIX in
               let split_name := skipn (S last_separator_in_prefix) name in
               write_into_block_str block split_name
                 UNIX_V7_USTAR_HEADER_POS_NAME UNIX_V7_USTAR_HEADER_LEN_NAME
           end
       end.

(** The block [write_header] fills from its (already normalised) fields,
    before the checksum.  [time] is a signed [mod_time_t] converted to
    [unsigned long long]. *)
Definition header_fields (uname gname : string) (type : tar_type) (mode uid gid size : N) (time : Z)
    (file_type : file_type_flag) (dev_major dev_minor : N)
    (store_name link_name store_link : string) : list Z :=
  let header := zero_block in
  let header := write_into_block_num header mode UNIX_V7_USTAR_HEADER_POS_MODE UNIX_V7_USTAR_HEADER_LEN_MODE in
  let header := write_into_block_num header uid UNIX_V7_USTAR_HEADER_POS_UID UNIX_V7_USTAR_HEADER_LEN_UID in
  let header := write_into_block_num header gid UNIX_V7_USTAR_HEADER_POS_GID UNIX_V7_USTAR_HEADER_LEN_GID in
  let header := write_into_block_num header size UNIX_V7_USTAR_HEADER_POS_SIZE UNIX_V7_USTAR_HEADER_LEN_SIZE in
  let header := write_into_block_num header (Z.to_N (time mod 2 ^ 64))
                  UNIX_V7_USTAR_HEADER_POS_MTIM UNIX_V7_USTAR_HEADER_LEN_MTIM in
  let header := write_into_block_num header (file_type_char file_type)
                  UNIX_V7_USTAR_HEADER_POS_TYPEFLAG UNIX_V7_USTAR_HEADER_LEN_TYPEFLAG in
  let header := write_name_and_prefix type header (bytes_of store_name) in
  let header := if String.eqb link_name ""
                then header
                else write_into_block_str header (bytes_of store_link)
                       UNIX_V7_USTAR_HEADER_POS_LINKNAME UNIX_V7_USTAR_HEADER_LEN_LINKNAME in
  let header :=
    match type with
    | ustar =>
        let header := write_into_block_str header (bytes_of "ustar") USTAR_HEADER_POS_MAGIC USTAR_HEADER_LEN_MAGIC in
        let header := write_into_block_str header (bytes_of uname)
                        USTAR_HEADER_POS_UNAME USTAR_HEADER_LEN_UNAME in
        let header := write_into_block_str header (bytes_of gname)
                        USTAR_HEADER_POS_GNAME USTAR_HEADER_LEN_GNAME in
        let header := write_into_block_str header (to_octal_ascii dev_major USTAR_HEADER_LEN_DEVMAJOR)
                        USTAR_HEADER_POS_DEVMAJOR USTAR_HEADER_LEN_DEVMAJOR in
        write_into_block_str header (to_octal_ascii dev_minor USTAR_HEADER_LEN_DEVMAJOR)
          USTAR_HEADER_POS_DEVMINOR USTAR_HEADER_LEN_DEVMINOR
    | unix_v7 => header
    end in
  header.

(** The header block [write_header] writes, with the user and group names
    [uname] and [gname] it looked up (unused in unix_v7). *)
Definition build_header (uname gname : string) (type : tar_type) (mode uid gid size : N) (time : Z)
    (file_type : file_type_flag) (dev_major dev_minor : N)
    (store_name link_name store_link : string) : list Z :=
  calc_and_write_checksum (header_fields uname gname type mode uid gid size time file_type
                             dev_major dev_minor store_name link_name store_link).

Definition is_regular_or_contiguous (t : file_type_flag) : bool :=
  match t with REGULAR_FILE | CONTIGUOUS_FILE => true | _ => false end.

Section Header.
Context {cst : Type} `{Lz4Codec cst}.
Variable pf : Platform.

Definition write_header (name : string) (mode uid gid size : N) (time : Z)
    (file_type : file_type_flag) (dev_major dev_minor : N) (link_name : string) : M cst unit :=
  let* t := get in
  if 0 <=? stream_file_header_pos_ t
  then throw (LogicError "Can't write a header while file streaming is in progress") else
  (* allow adding files that consist only of a header multiple times *)
  if bool_decide (name ∈ stored_files_ t) && is_regular_or_contiguous file_type
  then throw (LogicError msg_same_name) else
  let* p := match file_type with
            | DIRECTORY =>
                let ft := match type_ t with unix_v7 => REGULAR_FILE | ustar => DIRECTORY end in
                match rev (list_ascii_of_string name) with
                | [] => throw OutOfRange          (* [name.at(name.size() - 1)] *)
                | c :: _ => ret (ft, if Ascii.eqb c "/"%char then name else (name ++ "/")%string)
                end
            | _ => ret (file_type, name)
            end in
  let (file_type, name) := p in
  if match type_ t with unix_v7 => (50 <? file_type_char file_type)%N | ustar => false end
  then throw (LogicError "unsupported file type for unix_v7 format") else
  modify (fun t => set_stored_files ({[ name ]} ∪ stored_files_ t) t) ;;
  let* store_name := lift (relative_path name) in
  let* store_link := match file_type with
                     | SYMBOLIC_LINK => ret link_name
                     | _ => lift (relative_path link_name)
                     end in
  let* names := lift (header_names pf (type_ t) uid gid) in
  write (build_header (fst names) (snd names) (type_ t) mode uid gid size time file_type
           dev_major dev_minor store_name link_name store_link) true.

End Header.

(* ------------------------------------------------------------------ *)
(** ** Regular-file contents *)

(** The blocks the first loop of [write_regular_file_const_size] passes to
    [write], and the final [processed_bytes].  [input] is what is still to be
    read, [good] is [infile.good()] ([read] sets eof and fail when it gets
    fewer than 512 bytes), [block] the buffer carried between iterations.
    [fuel]: [S (length input)] iterations always suffice. *)
Fixpoint const_size_read_loop (fuel : nat) (input : list Z) (good : bool) (block : list Z)
    (processed expected_size : N) : list (list Z) * N :=
  match fuel with
  | O => ([], processed)
  | S f =>
      if good && (processed <? expected_size)%N then
        let chunk := firstn BLOCK_SIZE input in
        let read := length chunk in
        let block := chunk ++ skipn read block in
        let processed := (processed + N.of_nat read)%N in
        let write_size : N := if (processed <? expected_size)%N then N.of_nat read
                              else (processed - expected_size)%N in
        let block := if (write_size <? N.of_nat BLOCK_SIZE)%N
                     then firstn (N.to_nat write_size) block
                          ++ repeat 0 (BLOCK_SIZE - N.to_nat write_size)
                     else block in
        let (blocks, p) := const_size_read_loop f (skipn BLOCK_SIZE input)
                             (read =? BLOCK_SIZE)%nat block processed expected_size in
        (block :: blocks, p)
      else ([], processed)
  end.

(** The second loop: zero blocks while [processed_bytes < expected_size]. *)
Fixpoint const_size_pad_loop (fuel : nat) (processed expected_size : N) : list (list Z) :=
  match fuel with
  | O => []
  | S f => if (processed <? expected_size)%N
           then zero_block :: const_size_pad_loop f (processed + N.of_nat BLOCK_SIZE)%N expected_size
           else []
  end.

(** All blocks [write_regular_file_const_size] writes for a source whose
    bytes are [input]. *)
Definition const_size_blocks (input : list Z) (expected_size : N) : list (list Z) :=
  let (blocks, processed) :=
    const_size_read_loop (S (length input)) input true zero_block 0 expected_size in
  blocks ++ const_size_pad_loop (S (N.to_nat ((expected_size - processed) / 512))) processed expected_size.

(** [write_regular_file_dynamic_size]: blocks written and bytes counted. *)
Fixpoint dynamic_size_loop (fuel : nat) (input : list Z) (good : bool) (processed : N)
  : list (list Z) * N :=
  match fuel with
  | O => ([], processed)
  | S f =>
      if good then
        let chunk := firstn BLOCK_SIZE input in
        let read := length chunk in
        if (read =? 0)%nat then ([], processed) else
        let block := chunk ++ repeat 0 (BLOCK_SIZE - read) in
        let (blocks, p) := dynamic_size_loop f (skipn BLOCK_SIZE input) (read =? BLOCK_SIZE)%nat
                             (processed + N.of_nat read)%N in
        (block :: blocks, p)
      else ([], processed)
  end.

Definition dynamic_size_blocks (input : list Z) : list (list Z) * N :=
  dynamic_size_loop (S (length input)) input true 0.

Section Writer.
Context {cst : Type} `{Lz4Codec cst}.
Variable pf : Platform.

Fixpoint write_blocks (blocks : list (list Z)) : M cst unit :=
  match blocks with
  | [] => ret tt
  | b :: bs => write b false ;; write_blocks bs
  end.

Definition write_regular_file_const_size (name : string) (expected_size : N) : M cst unit :=
  let* input := lift (read_file pf name) in
  write_blocks (const_size_blocks input expected_size).

Definition write_regular_file_dynamic_size (name : string) : M cst N :=
  let* input := lift (read_file pf name) in
  let (blocks, processed) := dynamic_size_blocks input in
  write_blocks blocks ;; ret processed.

(* ------------------------------------------------------------------ *)
(** ** Streaming files *)

Definition add_file_streaming : M cst unit :=
  let* t := get in
  match mode_ t with
  | stream_output => throw (LogicError "add_file_streaming only supports output mode file")
  | file_output =>
      check_state_and_flush ;;
      let* p := file_tellp in
      modify (set_stream_file_header_pos p) ;;
      write zero_block true
  end.

(** [while (size >= BLOCK_SIZE)]: the full blocks of [data], and the rest. *)
Fixpoint full_blocks (fuel : nat) (data : list Z) : list (list Z) * list Z :=
  match fuel with
  | O => ([], data)
  | S f => if (BLOCK_SIZE <=? length data)%nat
           then let (bs, rest) := full_blocks f (skipn BLOCK_SIZE data) in
                (firstn BLOCK_SIZE data :: bs, rest)
           else ([], data)
  end.

Definition add_file_streaming_data (data : list Z) : M cst unit :=
  let* t := get in
  if negb (opened t) then throw (LogicError "Cannot append file, tar archive is not open") else
  if stream_file_header_pos_ t <? 0
  then throw (LogicError "Can't stream file data, no file added via add_file_streaming") else
  let used := length (stream_block_ t) in
  let* data := if (BLOCK_SIZE <=? used + length data)%nat
               then let copy_from_new_data := (BLOCK_SIZE - used)%nat in
                    write (stream_block_ t ++ firstn copy_from_new_data data) false ;;
                    modify (set_stream_block []) ;;
                    ret (skipn copy_from_new_data data)
               else ret data in
  let (blocks, rest) := full_blocks (length data) data in
  write_blocks blocks ;;
  modify (fun t => set_stream_block (stream_block_ t ++ rest) t).

Definition stream_file_complete (filename : string) (mode uid gid size : N) (mod_time : Z)
  : M cst unit :=
  let* t := get in
  if stream_file_header_pos_ t <? 0 then throw (LogicError msg_none_in_progress) else
  (if negb (Nat.eqb (length (stream_block_ t)) 0)
   then let block := stream_block_ t ++ repeat 0 (BLOCK_SIZE - length (stream_block_ t)) in
        modify (set_stream_block []) ;; write block false
   else ret tt) ;;
  let* t := get in
  match compression_ t with lz4 => lz4_flush | none => ret tt end ;;
  let* stream_pos := file_tellp in
  let* t := get in
  file_seekp (stream_file_header_pos_ t) ;;
  modify (set_stream_file_header_pos (-1)) ;;
  write_header pf filename mode uid gid size mod_time REGULAR_FILE 0 0 "" ;;
  file_seekp stream_pos.

End Writer.

(* ------------------------------------------------------------------ *)
(** ** Construction and the admission API *)

Definition contains (needle hay : string) : bool :=
  match String.index 0 needle hay with Some _ => true | None => false end.

Definition ends_with_slash (s : string) : bool :=
  match rfind path_separator (bytes_of s) with
  | Some i => Nat.eqb i (length (bytes_of s) - 1)
  | None => false
  end.

Definition is_file_type_supported (type : tar_type) (file_type : file_type_flag) : bool :=
  match type with
  | unix_v7 => match file_type with DIRECTORY => true | _ => (file_type_char file_type <=? 50)%N end
  | ustar => true
  end.

Section Api.
Context {cst : Type} `{Lz4Codec cst}.
Variable pf : Platform.

(** The members right after the constructor's initialiser list. *)
Definition initial_tarfile (mode : output_mode) (compression : compression_mode)
    (type : tar_type) (filename : string) : tarfile cst :=
  mk_tarfile type mode compression filename true [] 0 [] [] (-1) [] ∅ ∅
    LZ4F_createCompressionContext [] 0.

Definition init_lz4 : M cst unit :=
  let* t := get in
  match compression_ t with
  | none => ret tt
  | lz4 => lz4_call (LZ4F_compressBegin (lz4_ctx_ t)) ;; write_lz4_data
  end.

(** [tarfile(filename, compression, type)] and [tarfile(callback, compression, type)]. *)
Definition construct (mode : output_mode) (compression : compression_mode)
    (type : tar_type) (filename : string) : res unit * tarfile cst :=
  init_lz4 (initial_tarfile mode compression type filename).

Definition read_from_filesystem_write_to_tar (source_path target_path : string)
    (read_symlinks : bool) : M cst unit :=
  let* t := get in
  if negb (file_exists pf source_path)
  then throw (InvalidArgument (source_path ++ " does not exist")) else
  if String.eqb source_path (file_name_ t)
  then throw (InvalidArgument "tar cannot be part of itself") else
  let* file_type := lift (type_flag pf source_path) in
  let* p := match file_type, read_symlinks with
            | SYMBOLIC_LINK, true =>
                let resolved := fs_realpath pf source_path in
                if negb (file_exists pf resolved)
                then throw (InvalidArgument (resolved ++ " does not exist"))
                else let* ft := lift (type_flag pf resolved) in ret (resolved, ft)
            | _, _ => ret (source_path, file_type)
            end in
  let (resolved_source_path, file_type) := p in
  let* file_uid := lift (file_owner pf resolved_source_path) in
  let* file_gid := lift (file_group pf resolved_source_path) in
  let mode0 := mode pf resolved_source_path in
  let defer_header_writing :=
    match file_type, mode_ t with REGULAR_FILE, file_output => true | _, _ => false end in
  (* regular files are stored once; a file already stored becomes a hard link *)
  let* p := match file_type with
            | REGULAR_FILE | HARD_LINK =>
                if negb (can_open pf source_path)
                then throw (InvalidArgument ("can't open '" ++ source_path
                                             ++ "' for reading or file does not exist"))
                else let* t := get in
                     let* equivalent := lift (file_equivalent_present pf resolved_source_path
                                                (stored_inos_ t)) in
                     match equivalent with
                     | Some l => ret (HARD_LINK, l)
                     | None => ret (file_type, ""%string)
                     end
            | _ => ret (file_type, ""%string)
            end in
  let (file_type, link_name) := p in
  (* the switch: (has write_data, size, dev_major, dev_minor, mode, link_name) *)
  let* sw := match file_type with
             | REGULAR_FILE =>
                 let* size := lift (file_size pf resolved_source_path) in
                 ret (true, size, 0%N, 0%N, mode0, link_name)
             | CHARACTER_SPECIAL_FILE | BLOCK_SPECIAL_FILE =>
                 let* mm := lift (major_minor pf resolved_source_path) in
                 ret (false, 0%N, fst mm, snd mm, mode0, link_name)
             | SYMBOLIC_LINK =>
                 let* l := lift (read_symlink pf resolved_source_path) in
                 ret (false, 0%N, 0%N, 0%N, 511%N, l)
             | CONTIGUOUS_FILE => throw (InvalidArgument "contiguous files not supported")
             | HARD_LINK | DIRECTORY | FIFO => ret (false, 0%N, 0%N, 0%N, mode0, link_name)
             end in
  let '(has_data, size, dev_major, dev_minor, mode1, link_name) := sw in
  if negb (is_file_type_supported (type_ t) file_type) then ret tt else
  let* i := lift (ino pf resolved_source_path) in
  modify (fun t => set_stored_inos
                     (match stored_inos_ t !! i with
                      | Some _ => stored_inos_ t
                      | None => <[ i := resolved_source_path ]> (stored_inos_ t)
                      end) t) ;;
  let write_header_data (size : N) :=
    let* mtime := lift (mod_time pf resolved_source_path) in
    write_header pf target_path mode1 file_uid file_gid size mtime file_type
      dev_major dev_minor link_name in
  if defer_header_writing then
    let* t := get in
    match compression_ t with lz4 => lz4_flush | none => ret tt end ;;
    let* header_pos := file_tellp in
    write zero_block true ;;
    let* size := if has_data
                 then let* s := write_regular_file_dynamic_size pf resolved_source_path in
                      let* t := get in
                      match compression_ t with lz4 => lz4_flush | none => ret tt end ;;
                      ret s
                 else ret size in
    let* data_pos := file_tellp in
    file_seekp header_pos ;;
    write_header_data size ;;
    file_seekp data_pos
  else
    write_header_data size ;;
    if has_data then write_regular_file_const_size pf resolved_source_path size else ret tt.

Definition add_from_filesystem (filename : string) (read_symlinks : bool) : M cst unit :=
  check_state_and_flush ;;
  read_from_filesystem_write_to_tar filename filename read_symlinks.

Definition check_target_path (target_path : string) : M cst unit :=
  if contains "../" target_path then throw (InvalidArgument "target path can't contain ../") else
  if contains "/.." target_path then throw (InvalidArgument "target path can't contain /..") else
  if String.eqb target_path ".." then throw (InvalidArgument "target path can't be ..") else
  if String.eqb target_path "" then throw (InvalidArgument "target path cannot be empty") else
  ret tt.

Definition add_from_filesystem_to (source_path target_path : string) (read_symlinks : bool)
  : M cst unit :=
  check_target_path target_path ;;
  let* ft := lift (type_flag pf source_path) in
  (if match ft with DIRECTORY => false | _ => true end && ends_with_slash target_path
   then throw (InvalidArgument "target path can't end with / for non directories")
   else ret tt) ;;
  check_state_and_flush ;;
  read_from_filesystem_write_to_tar source_path target_path read_symlinks.

Fixpoint for_each (l : list string) (cb : string -> M cst unit) : M cst unit :=
  match l with [] => ret tt | x :: r => cb x ;; for_each r cb end.

(** [StdFilesytem::iterateDirectory]. *)
Definition iterateDirectory (path : string) (cb : string -> M cst unit) : M cst unit :=
  if is_directory pf path then cb path ;; for_each (fs_walk pf path) cb else cb path.

Definition add_from_filesystem_recursive (path : string) (read_symlinks : bool) : M cst unit :=
  let* ft := lift (type_flag pf path) in
  match ft with
  | DIRECTORY => iterateDirectory path (fun p => add_from_filesystem p read_symlinks)
  | _ => add_from_filesystem path read_symlinks
  end.

Definition add_from_filesystem_recursive_to (source_path target_path : string)
    (read_symlinks : bool) : M cst unit :=
  check_target_path target_path ;;
  let target_path := if ends_with_slash target_path
                     then substring 0 (String.length target_path - 1) target_path
                     else target_path in
  let* ft := lift (type_flag pf source_path) in
  match ft with
  | DIRECTORY =>
      iterateDirectory source_path (fun callback_path =>
        let target := (target_path ++ substring (String.length source_path)
                         (String.length callback_path) callback_path)%string in
        add_from_filesystem_to callback_path target read_symlinks)
  | _ => add_from_filesystem_to source_path target_path read_symlinks
  end.

Definition add_symlink (file_name link_name : string) (uid gid : N) (time : Z) : M cst unit :=
  check_state_and_flush ;;
  write_header pf link_name 511 uid gid 0 time SYMBOLIC_LINK 0 0 file_name.

Definition add_hardlink (file_name link_name : string) (uid gid : N) (time : Z) : M cst unit :=
  check_state_and_flush ;;
  write_header pf link_name 511 uid gid 0 time HARD_LINK 0 0 file_name.

Definition add_character_special_file (name : string) (mode uid gid size : N) (time : Z)
    (dev_major dev_minor : N) : M cst unit :=
  check_state_and_flush ;;
  write_header pf name mode uid gid size time CHARACTER_SPECIAL_FILE dev_major dev_minor "".

Definition add_block_special_file (name : string) (mode uid gid size : N) (time : Z)
    (dev_major dev_minor : N) : M cst unit :=
  check_state_and_flush ;;
  write_header pf name mode uid gid size time BLOCK_SPECIAL_FILE dev_major dev_minor "".

Definition add_fifo (name : string) (mode uid gid : N) (time : Z) : M cst unit :=
  check_state_and_flush ;;
  write_header pf name mode uid gid 0 time FIFO 0 0 "".

Definition add_directory (dirname : string) (mode uid gid : N) (time : Z) : M cst unit :=
  check_state_and_flush ;;
  write_header pf dirname mode uid gid 0 time DIRECTORY 0 0 "".

End Api.

(** The public member functions of [tarfile], as calls. *)
Inductive api_call :=
| Call_add_from_filesystem (filename : string) (read_symlinks : bool)
| Call_add_from_filesystem_to (source_path target_path : string) (read_symlinks : bool)
| Call_add_from_filesystem_recursive (path : string) (read_symlinks : bool)
| Call_add_from_filesystem_recursive_to (source_path target_path : string) (read_symlinks : bool)
| Call_add_symlink (file_name link_name : string) (uid gid : N) (time : Z)
| Call_add_hardlink (file_name link_name : string) (uid gid : N) (time : Z)
| Call_add_character_special_file (name : string) (mode uid gid size : N) (time : Z) (dev_major dev_minor : N)
| Call_add_block_special_file (name : string) (mode uid gid size : N) (time : Z) (dev_major dev_minor : N)
| Call_add_fifo (name : string) (mode uid gid : N) (time : Z)
| Call_add_directory (dirname : string) (mode uid gid : N) (time : Z)
| Call_add_file_streaming
| Call_add_file_streaming_data (data : list Z)
| Call_stream_file_complete (filename : string) (mode uid gid size : N) (mod_time : Z)
| Call_close.

Definition run_call {cst} `{Lz4Codec cst} (pf : Platform) (c : api_call) : M cst unit :=
  match c with
  | Call_add_from_filesystem f r => add_from_filesystem pf f r
  | Call_add_from_filesystem_to s d r => add_from_filesystem_to pf s d r
  | Call_add_from_filesystem_recursive f r => add_from_filesystem_recursive pf f r
  | Call_add_from_filesystem_recursive_to s d r => add_from_filesystem_recursive_to pf s d r
  | Call_add_symlink f l u g tm => add_symlink pf f l u g tm
  | Call_add_hardlink f l u g tm => add_hardlink pf f l u g tm
  | Call_add_character_special_file n m u g s tm ma mi => add_character_special_file pf n m u g s tm ma mi
  | Call_add_block_special_file n m u g s tm ma mi => add_block_special_file pf n m u g s tm ma mi
  | Call_add_fifo n m u g tm => add_fifo pf n m u g tm
  | Call_add_directory n m u g tm => add_directory pf n m u g tm
  | Call_add_file_streaming => add_file_streaming
  | Call_add_file_streaming_data d => add_file_streaming_data d
  | Call_stream_file_complete n m u g s tm => stream_file_complete pf n m u g s tm
  | Call_close => close
  end.

(** Running a sequence of calls; a failing call leaves its state behind and
    the next call runs from there (the caller caught the exception). *)
Fixpoint run_calls {cst} `{Lz4Codec cst} (pf : Platform) (cs : list api_call) (t : tarfile cst)
  : list (res unit) * tarfile cst :=
  match cs with
  | [] => ([], t)
  | c :: r => let (x, t') := run_call pf c t in
              let (xs, t'') := run_calls pf r t' in (x :: xs, t'')
  end.

(** The calls that admit a new entry: all but [add_file_streaming_data],
    [stream_file_complete] and [close]. *)
Definition is_admission_call (c : api_call) : bool :=
  match c with
  | Call_add_file_streaming_data _ | Call_stream_file_complete _ _ _ _ _ _ | Call_close => false
  | _ => true
  end.

(** The calls that check their paths before [check_state_and_flush]. *)
Definition checks_paths_first (c : api_call) : bool :=
  match c with
  | Call_add_from_filesystem_to _ _ _ | Call_add_from_filesystem_recursive _ _
  | Call_add_from_filesystem_recursive_to _ _ _ => true
  | _ => false
  end.

Definition is_logic_error (e : exn) : bool := match e with LogicError _ => true | _ => false end.
Definition is_invalid_argument (e : exn) : bool :=
  match e with InvalidArgument _ => true | _ => false end.

(* ------------------------------------------------------------------ *)
(** ** Concrete instances used by the examples *)

(** A build without LZ4: the context is never used. *)
#[export] Instance no_lz4 : Lz4Codec unit := {
  LZ4F_createCompressionContext := tt;
  LZ4F_compressBegin := fun c => Some (c, []);
  LZ4F_compressUpdate := fun c _ => Some (c, []);
  LZ4F_uncompressedUpdate := fun c _ => Some (c, []);
  LZ4F_flush := fun c => Some (c, []);
  LZ4F_compressEnd := fun c => Some (c, []);
}.

(** A build with LZ4 whose compressor keeps the data it is given until the
    frame ends: [LZ4F_compressBegin] writes the 7-byte frame header (magic
    number, FLG, BD, header checksum), the updates and flushes write
    nothing, and [LZ4F_compressEnd] writes the 4-byte end mark. *)
Inductive frame_ctx := FrameCtx.

#[export] Instance frame_lz4 : Lz4Codec frame_ctx := {
  LZ4F_createCompressionContext := FrameCtx;
  LZ4F_compressBegin := fun c => Some (c, [4; 34; 77; 24; 96; 64; 130]);
  LZ4F_compressUpdate := fun c _ => Some (c, []);
  LZ4F_uncompressedUpdate := fun c _ => Some (c, []);
  LZ4F_flush := fun c => Some (c, []);
  LZ4F_compressEnd := fun c => Some (c, [0; 0; 0; 0]);
}.

Definition mk_node (k : fs_kind) (m uid gid : N) (ino nlink : Z) (content : list Z) (target : string) : node :=
  {| n_kind := k; n_mode := m; n_uid := uid; n_gid := gid; n_mtime := 1700000000;
     n_ino := ino; n_nlink := nlink; n_content := content; n_target := target;
     n_major := 0; n_minor := 0; n_readable := true |}.

(** A host with the regular file [/tmp/t] ("test content\n", inode 7, one
    link), the regular file [/a] (10 bytes, inode 9, one link), the files
    [/h1] and [/h2] (two links to inode 11) and the symbolic link [/l] to [/a]. *)
Definition test_content : list Z := bytes_of "test content
".
Definition a_content : list Z := bytes_of "0123456789".

Definition node_t := mk_node FK_regular 420 1000 1000 7 1 test_content "".
Definition node_a := mk_node FK_regular 420 1000 1000 9 1 a_content "".
Definition node_h := mk_node FK_regular 420 1000 1000 11 2 a_content "".
Definition node_l := mk_node FK_symlink 511 1000 1000 13 1 [] "/a".

(** Its user database names every uid ["user"] (group 1000), its group
    database every gid ["group"]. *)
Definition test_names : NameDb := {|
  getpwuid_r := fun uid => (0, Some (mk_passwd "user" uid 1000));
  getgrgid_r := fun _ => (0, Some "group"%string);
  geteuid := 1000;
|}.

Definition test_platform : Platform := {|
  fs_lstat := fun p => if String.eqb p "/tmp/t" then Some node_t
                       else if String.eqb p "/a" then Some node_a
                       else if String.eqb p "/h1" then Some node_h
                       else if String.eqb p "/h2" then Some node_h
                       else if String.eqb p "/l" then Some node_l else None;
  fs_stat := fun p => if String.eqb p "/tmp/t" then Some node_t
                      else if String.eqb p "/a" then Some node_a
                      else if String.eqb p "/h1" then Some node_h
                      else if String.eqb p "/h2" then Some node_h
                      else if String.eqb p "/l" then Some node_a else None;
  fs_realpath := fun p => if String.eqb p "/l" then "/a"%string else p;
  fs_walk := fun _ => [];
  os_names := test_names;
|}.

Definition file_writer (type : tar_type) : tarfile unit :=
  snd (construct file_output none type "out.tar").
Definition callback_writer (type : tar_type) : tarfile unit :=
  snd (construct stream_output none type "").

(** The archive file after streaming [chunks] as the entry [a] (mode 0644,
    owner 1000:1000, 10 bytes, mtime 1700000000) into a fresh ustar file
    writer: [add_file_streaming], one [add_file_streaming_data] per chunk,
    [stream_file_complete]. *)
Definition stream_run (chunks : list (list Z)) : tarfile unit :=
  snd (run_calls test_platform
         ([Call_add_file_streaming] ++ map Call_add_file_streaming_data chunks
          ++ [Call_stream_file_complete "a" 420 1000 1000 10 1700000000])
         (file_writer ustar)).

(** The same entry written in one go: its header, then
    [write_regular_file_const_size] of the file [/a], whose 10 bytes are
    the ones streamed above. *)
Definition const_size_run : tarfile unit :=
  snd ((write_header test_platform "a" 420 1000 1000 10 1700000000 REGULAR_FILE 0 0 "" ;;
        write_regular_file_const_size test_platform "/a" 10) (file_writer ustar)).

(** The data blocks a tar entry for the bytes [l] should carry: [l] cut
    into 512-byte blocks, the last one padded with zeroes ([fuel]:
    [length l] suffices).  Used in statements only. *)
Fixpoint padded_blocks (fuel : nat) (l : list Z) : list (list Z) :=
  match fuel, l with
  | O, _ | _, [] => []
  | S f, _ => (firstn BLOCK_SIZE l ++ repeat 0 (BLOCK_SIZE - length (firstn BLOCK_SIZE l)))
              :: padded_blocks f (skipn BLOCK_SIZE l)
  end.

(* ------------------------------------------------------------------ *)
(** ** [Filesystem::permissions_str] and [StdFilesytem::mode] *)

(** [Filesystem::file_type_to_char]. *)
Definition file_type_to_char (type : file_type_flag) : ascii :=
  match type with
  | SYMBOLIC_LINK => "l"
  | CHARACTER_SPECIAL_FILE => "c"
  | BLOCK_SPECIAL_FILE => "b"
  | DIRECTORY => "d"
  | FIFO => "p"
  | REGULAR_FILE | HARD_LINK | CONTIGUOUS_FILE => "-"
  end%char.

(** [permission_t::mask] (07777). *)
Definition permission_mask : N := 4095.

(** The loop of [permissions_str] over the indexes [i .. i + n - 1] of
    [std::bitset<9> bits]. *)
Fixpoint permissions_loop (bits : N) (i n : nat) (str : list ascii) : list ascii :=
  match n with
  | O => str
  | S n' =>
      let c := if (i mod 3 =? 2)%nat then "r"%char
               else if (i mod 3 =? 1)%nat then "w"%char else "x"%char in
      permissions_loop bits (S i) n'
        (if N.testbit bits (N.of_nat i) then <[ i := c ]> str else str)
  end.

(** [Filesystem::permissions_str]: an [ls -l] style string; [type_flag]
    throws for an unsupported or missing path. *)
Definition permissions_str (pf : Platform) (path : string) : res string :=
  let permissions := N.land (mode pf path) permission_mask in
  let bits := N.land permissions 511 in        (* [std::bitset<9> bits(permissions)] *)
  let str := list_ascii_of_string "----------" in
  let str := permissions_loop bits 0%nat 9%nat str in
  let str := rev str in                         (* [std::reverse] *)
  match type_flag pf path with
  | Err e => Err e
  | Ok type => Ok (string_of_list_ascii (<[ 0%nat := file_type_to_char type ]> str))
  end.

(** [StdFilesytem::mode] from [std::filesystem::status(path).permissions()]:
    each of the nine [std::filesystem::perms] bits tested, by its value
    (owner_read 0400 .. others_exec 01), sets the [permission_t] bit of
    the same value. *)
Definition mode_of_perms (perms : N) : N :=
  let test (m std_bit : N) :=
    if (N.land perms std_bit =? std_bit)%N then N.lor m std_bit else m in
  let m := 0%N in
  let m := test m 256%N in   (* owner_read *)
  let m := test m 128%N in   (* owner_write *)
  let m := test m 64%N in    (* owner_exec *)
  let m := test m 32%N in    (* group_read *)
  let m := test m 16%N in    (* group_write *)
  let m := test m 8%N in     (* group_exec *)
  let m := test m 4%N in     (* others_read *)
  let m := test m 2%N in     (* others_write *)
  let m := test m 1%N in     (* others_exec *)
  m.

(** [std::filesystem::perms::unknown] (0xFFFF), what [status] reports for
    a missing path. *)
Definition perms_unknown : N := 65535.

(* ------------------------------------------------------------------ *)
(** [PosixOS::passwd]: the entry of the effective user. *)
Definition passwd_entry (db : NameDb) : res (option passwd) :=
  let (pw_uid_result, result) := getpwuid_r db (geteuid db) in
  match throw_exception_getpwd_getgrgid_on_error pw_uid_result with
  | Err e => Err e
  | Ok _ => Ok result
  end.

(** [std::numeric_limits<uid_t>::max()] and that of [gid_t]. *)
Definition id_max : N := 4294967295.

Definition user_id (db : NameDb) : res N :=
  match passwd_entry db with
  | Err e => Err e
  | Ok None => Ok id_max
  | Ok (Some pw) => Ok (pw_uid pw)
  end.

Definition group_id (db : NameDb) : res N :=
  match passwd_entry db with
  | Err e => Err e
  | Ok None => Ok id_max
  | Ok (Some pw) => Ok (pw_gid pw)
  end.

(* ------------------------------------------------------------------ *)
(** ** Definitions used in statements *)

(** The number a decimal numeral denotes (statements only). *)
Definition decimal_read (s : string) : N :=
  fold_left (fun acc a => (acc * 10 + (N_of_ascii a - 48))%N) (list_ascii_of_string s) 0%N.

(** The number a list of decimal digits denotes. *)
Definition decimal_value (ds : list N) : N := fold_left (fun acc d => (acc * 10 + d)%N) ds 0%N.

(** The codes [throw_exception_getpwd_getgrgid_on_error] lets through. *)
Definition tolerated (code : Z) : Prop :=
  code = 0 \/ code = ENOENT \/ code = ESRCH \/ code = EBADF \/ code = EPERM.

(** The header block after the five numeric writes of [write_header]
    (mode, uid, gid, size, mtime), before the type flag. *)
Definition numeric_stage (mode uid gid size : N) (time : Z) : list Z :=
  write_into_block_num (write_into_block_num (write_into_block_num (write_into_block_num
    (write_into_block_num zero_block mode 100 8) uid 108 8) gid 116 8) size 124 12)
    (Z.to_N (time mod 2 ^ 64)) 136 12.

(** The name and prefix fields of a block are still zero. *)
Definition name_region_zero (b : list Z) : Prop :=
  forall j, (j < 100 \/ 345 <= j < 500)%nat -> b !! j = Some 0.

(** The header block after the numeric writes and the type flag. *)
Definition type_stage (mode uid gid size : N) (time : Z) (ft : file_type_flag) : list Z :=
  write_into_block_num (numeric_stage mode uid gid size time) (file_type_char ft) 156 1.

(** A host with the FIFO [/p] (mode 0644, owner 1000:1000, inode 21). *)
Definition fifo_platform : Platform := {|
  fs_lstat := fun p => if String.eqb p "/p" then Some (mk_node FK_fifo 420 1000 1000 21 1 [] "") else None;
  fs_stat := fun p => if String.eqb p "/p" then Some (mk_node FK_fifo 420 1000 1000 21 1 [] "") else None;
  fs_realpath := fun p => p;
  fs_walk := fun _ => [];
  os_names := test_names;
|}.

(** A user and group database whose every lookup finds no entry and
    returns [code]. *)
Definition errno_db (code : Z) : NameDb := {|
  getpwuid_r := fun _ => (code, None);
  getgrgid_r := fun _ => (code, None);
  geteuid := 1000;
|}.

(** A fresh ustar file writer after [add_file_streaming]. *)
Definition streaming_writer : tarfile unit := snd (add_file_streaming (file_writer ustar)).

(* ================================================================== *)
(** * Lemmas *)

(* ------------------------------------------------------------------ *)
(** ** Octal rendering *)

Definition octal_value (ds : list N) : N := fold_left (fun acc d => (acc * 8 + d)%N) ds 0%N.

Lemma octal_digits_fuel_value (f : nat) (n : N) :
  (n < 8 ^ N.of_nat f)%N ->
  octal_value (octal_digits_fuel f n) = n /\ Forall (fun d => (d < 8)%N) (octal_digits_fuel f n).
Proof.
  revert n; induction f as [|f IH]; intros n Hn; simpl.
  - simpl in Hn. assert (n = 0%N) by lia. subst. split; [reflexivity | repeat constructor].
  - destruct (N.ltb_spec n 8) as [Hlt|Hge].
    + split; [reflexivity | repeat constructor; lia].
    + assert (Hq : (n / 8 < 8 ^ N.of_nat f)%N).
      { apply N.Div0.div_lt_upper_bound. rewrite Nat2N.inj_succ, N.pow_succ_r' in Hn. lia. }
      destruct (IH _ Hq) as [Hv Hd]. split.
      * unfold octal_value in *. rewrite fold_left_app. simpl. rewrite Hv.
        pose proof (N.Div0.div_mod n 8). lia.
      * apply Forall_app. split; [exact Hd | repeat constructor]. apply N.mod_lt. lia.
Qed.

Lemma octal_digits_fuel_length (f : nat) (n : N) (k : nat) :
  (1 <= k)%nat -> (n < 8 ^ N.of_nat k)%N -> (length (octal_digits_fuel f n) <= k)%nat.
Proof.
  revert n k; induction f as [|f IH]; intros n k Hk Hn; simpl; [lia|].
  destruct (N.ltb_spec n 8) as [Hlt|Hge]; simpl; [lia|].
  rewrite length_app. simpl.
  destruct k as [|k]; [lia|].
  destruct k as [|k].
  - simpl in Hn. lia.
  - assert (Hq : (n / 8 < 8 ^ N.of_nat (S k))%N).
    { apply N.Div0.div_lt_upper_bound. rewrite (Nat2N.inj_succ (S k)), N.pow_succ_r' in Hn. lia. }
    specialize (IH (n / 8)%N (S k) ltac:(lia) Hq). lia.
Qed.

Lemma pos_lt_pow2_size_nat (p : positive) : (Z.pos p < 2 ^ Z.of_nat (Pos.size_nat p))%Z.
Proof.
  induction p as [p IH|p IH|]; simpl Pos.size_nat.
  - rewrite Nat2Z.inj_succ, Z.pow_succ_r by lia. rewrite Pos2Z.inj_xI. lia.
  - rewrite Nat2Z.inj_succ, Z.pow_succ_r by lia. rewrite Pos2Z.inj_xO. lia.
  - simpl. lia.
Qed.

Lemma N_lt_pow8_size_nat (n : N) : (n < 8 ^ N.of_nat (S (N.size_nat n)))%N.
Proof.
  apply N2Z.inj_lt. rewrite N2Z.inj_pow, nat_N_Z.
  assert (H2 : (Z.of_N n < 2 ^ Z.of_nat (N.size_nat n))%Z).
  { destruct n as [|p]; simpl; [lia | apply pos_lt_pow2_size_nat]. }
  assert (H8 : (2 ^ Z.of_nat (N.size_nat n) <= 8 ^ Z.of_nat (S (N.size_nat n)))%Z).
  { apply Z.le_trans with (8 ^ Z.of_nat (N.size_nat n))%Z.
    - apply Z.pow_le_mono_l. lia.
    - apply Z.pow_le_mono_r; lia. }
  lia.
Qed.

Lemma octal_digits_value (n : N) :
  octal_value (octal_digits n) = n /\ Forall (fun d => (d < 8)%N) (octal_digits n).
Proof. apply octal_digits_fuel_value, N_lt_pow8_size_nat. Qed.

Lemma octal_digits_length (n : N) (k : nat) :
  (1 <= k)%nat -> (n < 8 ^ N.of_nat k)%N -> (length (octal_digits n) <= k)%nat.
Proof. apply octal_digits_fuel_length. Qed.

Lemma octal_read_ascii (ds : list N) (acc : N) :
  fold_left (fun acc c => acc * 8 + (c - 48)) (map (fun d => 48 + Z.of_N d) ds) (Z.of_N acc)
  = Z.of_N (fold_left (fun acc d => (acc * 8 + d)%N) ds acc).
Proof.
  revert acc; induction ds as [|d ds IH]; intros acc; simpl; [reflexivity|].
  rewrite <- IH. f_equal. lia.
Qed.

Lemma octal_read_zeros (k : nat) (s : list Z) : octal_read (repeat 48 k ++ s) = octal_read s.
Proof.
  unfold octal_read. rewrite fold_left_app. f_equal.
  induction k as [|k IH]; simpl; [reflexivity|]. exact IH.
Qed.

(** [to_octal_ascii] is exact when the value fits the width. *)
Lemma to_octal_ascii_exact (n : N) (w : nat) :
  (1 <= w)%nat -> (n < 8 ^ N.of_nat w)%N ->
  length (to_octal_ascii n w) = w /\ octal_read (to_octal_ascii n w) = Z.of_N n.
Proof.
  intros Hw Hn. pose proof (octal_digits_length n w Hw Hn) as Hl.
  destruct (octal_digits_value n) as [Hv _].
  unfold to_octal_ascii.
  set (ds := octal_digits n) in *.
  rewrite length_app, repeat_length, length_map.
  destruct (Nat.ltb_spec w (w - length ds + length ds)) as [Hc|Hc]; [lia|].
  split; [rewrite length_app, repeat_length, length_map; lia|].
  rewrite octal_read_zeros. unfold octal_read.
  change 0 with (Z.of_N 0). rewrite octal_read_ascii. fold (octal_value ds). now rewrite Hv.
Qed.

(* ------------------------------------------------------------------ *)
(** ** Block updates *)

Lemma length_overwrite (b : list Z) (pos : nat) (src : list Z) :
  (pos + length src <= length b)%nat -> length (overwrite b pos src) = length b.
Proof.
  intros Hle. unfold overwrite.
  rewrite !length_app, length_take, length_drop. lia.
Qed.

Lemma length_write_into_block_str (b s : list Z) (pos len : nat) :
  (pos + len <= length b)%nat -> length (write_into_block_str b s pos len) = length b.
Proof.
  intros Hle. unfold write_into_block_str. apply length_overwrite.
  rewrite length_take. lia.
Qed.

Lemma length_write_into_block_num (b : list Z) (v : N) (pos len : nat) :
  (pos + len <= length b)%nat -> length (write_into_block_num b v pos len) = length b.
Proof. apply length_write_into_block_str. Qed.

Lemma length_write_name_and_prefix (type : tar_type) (b name : list Z) :
  length b = 512%nat -> length (write_name_and_prefix type b name) = 512%nat.
Proof.
  intros Hb. unfold write_name_and_prefix.
  repeat match goal with
         | |- context [if ?c then _ else _] => destruct c
         | |- context [match ?o with Some _ => _ | None => _ end] => destruct o
         end;
  repeat (rewrite length_write_into_block_str; [|rewrite ?length_write_into_block_str; unfold
           UNIX_V7_USTAR_HEADER_POS_NAME, UNIX_V7_USTAR_HEADER_LEN_NAME, USTAR_HEADER_POS_PREFIX,
           USTAR_HEADER_LEN_PREFIX in *; lia]); exact Hb.
Qed.

Lemma len_wib_str (b s : list Z) (pos len n : nat) :
  length b = n -> (pos + len <= n)%nat -> length (write_into_block_str b s pos len) = n.
Proof. intros <- ?. now apply length_write_into_block_str. Qed.

Lemma len_wib_num (b : list Z) (v : N) (pos len n : nat) :
  length b = n -> (pos + len <= n)%nat -> length (write_into_block_num b v pos len) = n.
Proof. intros <- ?. now apply length_write_into_block_num. Qed.

Lemma length_header_fields un gn type mode uid gid size time ft ma mi sn ln sl :
  length (header_fields un gn type mode uid gid size time ft ma mi sn ln sl) = 512%nat.
Proof.
  unfold header_fields.
  destruct type; destruct (String.eqb ln "");
  repeat first [apply len_wib_num | apply len_wib_str | apply length_write_name_and_prefix];
  try reflexivity; apply Nat.leb_le; reflexivity.
Qed.

Lemma unsigned_sum_acc (l : list Z) (a : Z) :
  fold_left (fun acc c => acc + Z.land c 255) l a = a + unsigned_sum l.
Proof.
  unfold unsigned_sum. revert a; induction l as [|c l IH]; intros a; simpl; [lia|].
  rewrite IH, (IH (0 + Z.land c 255)). lia.
Qed.

Lemma unsigned_sum_range (l : list Z) : 0 <= unsigned_sum l <= 255 * Z.of_nat (length l).
Proof.
  induction l as [|c l IH]; [unfold unsigned_sum; simpl; lia|].
  change (unsigned_sum (c :: l)) with (fold_left (fun acc c => acc + Z.land c 255) l (0 + Z.land c 255)).
  rewrite unsigned_sum_acc.
  assert (0 <= Z.land c 255 <= 255).
  { change 255 with (Z.ones 8). rewrite Z.land_ones by lia.
    pose proof (Z.mod_pos_bound c (2 ^ 8)). change (2 ^ 8) with 256 in *.
    change (Z.ones 8) with 255. lia. }
  simpl length. lia.
Qed.

Lemma overwrite_mid (P M Q src : list Z) (k : nat) :
  (k + length src <= length M)%nat ->
  overwrite (P ++ M ++ Q) (length P + k) src = P ++ overwrite M k src ++ Q.
Proof.
  intros Hk. unfold overwrite.
  rewrite take_app_add, take_app_le by lia.
  rewrite <- Nat.add_assoc, drop_app_add, drop_app_le by lia.
  now rewrite <- !app_assoc.
Qed.

(** The checksum field: the layout [calc_and_write_checksum] leaves. *)
Lemma calc_and_write_checksum_shape (b : list Z) :
  length b = 512%nat ->
  let s := unsigned_sum (take 148 b ++ repeat 32 8 ++ drop 156 b) in
  calc_and_write_checksum b
  = take 148 b ++ to_octal_ascii (Z.to_N s) 6 ++ [32; 0] ++ drop 156 b
  /\ 0 <= s <= 512 * 255.
Proof.
  intros Hb s.
  assert (HP : length (take 148 b) = 148%nat) by (rewrite length_take; lia).
  assert (HQ : length (drop 156 b) = 356%nat) by (rewrite length_drop; lia).
  assert (Hs : 0 <= s <= 512 * 255).
  { pose proof (unsigned_sum_range (take 148 b ++ repeat 32 8 ++ drop 156 b)) as Hr.
    rewrite !length_app, repeat_length in Hr. fold s in Hr. lia. }
  split; [|exact Hs].
  destruct (to_octal_ascii_exact (Z.to_N s) 6) as [HD _];
    [lia | apply N2Z.inj_lt; rewrite Z2N.id by lia; simpl; lia |].
  assert (HB0 : overwrite b UNIX_V7_USTAR_HEADER_POS_CHECKSUM
                  (repeat 32 UNIX_V7_USTAR_HEADER_LEN_CHKSUM)
                = take 148 b ++ repeat 32 8 ++ drop 156 b) by reflexivity.
  unfold calc_and_write_checksum. rewrite HB0.
  change (fold_left (fun acc c => acc + Z.land c 255) (take 148 b ++ repeat 32 8 ++ drop 156 b) 0)
    with s.
  unfold write_into_block_num, write_into_block_str.
  change (UNIX_V7_USTAR_HEADER_LEN_CHKSUM - 2)%nat with 6%nat.
  set (D := to_octal_ascii (Z.to_N s) 6) in *.
  rewrite HD, (take_ge D) by lia.
  replace UNIX_V7_USTAR_HEADER_POS_CHECKSUM with (length (take 148 b) + 0)%nat at 1
    by (rewrite HP; reflexivity).
  rewrite overwrite_mid by (rewrite repeat_length; lia).
  replace (UNIX_V7_USTAR_HEADER_POS_CHECKSUM + UNIX_V7_USTAR_HEADER_LEN_CHKSUM - 1)%nat
    with (length (take 148 b) + 7)%nat by (rewrite HP; reflexivity).
  unfold overwrite at 2. rewrite HD.
  change (take 0 (repeat 32 8)) with (@nil Z).
  change (drop (0 + 6) (repeat 32 8)) with [32; 32]. rewrite app_nil_l.
  rewrite overwrite_mid by (rewrite length_app, HD; simpl; lia).
  unfold overwrite. rewrite take_app_ge, drop_app_ge by (rewrite HD; simpl; lia).
  rewrite HD. simpl. now rewrite <- !app_assoc.
Qed.

Lemma calc_and_write_checksum_valid (b : list Z) :
  length b = 512%nat ->
  let H := calc_and_write_checksum b in
  length H = 512%nat
  /\ unsigned_sum (overwrite H 148 (repeat 32 8)) = octal_read (field H 148 6)
  /\ nth 154 H 0 = 32 /\ nth 155 H 0 = 0.
Proof.
  intros Hb H.
  destruct (calc_and_write_checksum_shape b Hb) as [Heq Hs]. fold H in Heq.
  set (s := unsigned_sum (take 148 b ++ repeat 32 8 ++ drop 156 b)) in *.
  destruct (to_octal_ascii_exact (Z.to_N s) 6) as [HD Hv];
    [lia | apply N2Z.inj_lt; rewrite Z2N.id by lia; simpl; lia |].
  set (D := to_octal_ascii (Z.to_N s) 6) in *.
  assert (HP : length (take 148 b) = 148%nat) by (rewrite length_take; lia).
  assert (HQ : length (drop 156 b) = 356%nat) by (rewrite length_drop; lia).
  rewrite Heq. split; [rewrite !length_app, HD, HP, HQ; reflexivity|].
  split; [|split].
  - pose proof (overwrite_mid (take 148 b) (D ++ [32; 0]) (drop 156 b) (repeat 32 8) 0) as Hm.
    rewrite HP, Nat.add_0_r, <- app_assoc in Hm.
    rewrite Hm by (rewrite length_app, HD; simpl; lia).
    unfold overwrite at 1. rewrite repeat_length, take_0.
    rewrite drop_app_ge by (rewrite HD; simpl; lia). rewrite HD. simpl (drop _ [32; 0]).
    rewrite app_nil_r, app_nil_l. fold s.
    unfold field. rewrite (drop_app_length' (take 148 b)), (take_app_length' D) by lia.
    rewrite Hv. symmetry. apply Z2N.id. lia.
  - rewrite app_nth2 by lia. rewrite HP. simpl (154 - 148)%nat.
    rewrite app_nth2 by lia. now rewrite HD.
  - rewrite app_nth2 by lia. rewrite HP. simpl (155 - 148)%nat.
    rewrite app_nth2 by lia. now rewrite HD.
Qed.

(* ------------------------------------------------------------------ *)
(** ** [write_regular_file_const_size] on a source of the declared size *)

Lemma const_size_read_loop_exact (f : nat) (r blk : list Z) (p S : N) :
  r <> [] -> length blk = BLOCK_SIZE -> (p + N.of_nat (length r))%N = S ->
  (length r <= f)%nat ->
  const_size_read_loop f r true blk p S
  = (removelast (padded_blocks f r) ++ [zero_block], S).
Proof.
  revert r blk p; induction f as [|f IH]; intros r blk p Hr Hb Hp Hf.
  { destruct r; [congruence | simpl in Hf; lia]. }
  assert (Hlt : (p <? S)%N = true).
  { apply N.ltb_lt. destruct r; [congruence|]. simpl length in Hp. lia. }
  cbn [const_size_read_loop padded_blocks]. rewrite Hlt. simpl andb.
  destruct r as [|x r0]; [congruence|]. set (r := x :: r0) in *.
  destruct (Nat.leb_spec (length r) BLOCK_SIZE) as [Hs|Hs].
  - (* the last read: [processed_bytes] reaches [expected_size] *)
    rewrite (take_ge r) by exact Hs.
    replace (p + N.of_nat (length r))%N with S by lia.
    rewrite N.ltb_irrefl, N.sub_diag.
    change (0 <? N.of_nat BLOCK_SIZE)%N with true. simpl (N.to_nat 0).
    rewrite (drop_ge r) by exact Hs.
    replace (const_size_read_loop f [] _ _ S S) with (@nil (list Z), S)
      by (destruct f; simpl; [reflexivity | now rewrite N.ltb_irrefl, andb_false_r]).
    destruct f; reflexivity.
  - (* a full block that stays below [expected_size] *)
    assert (Hc : length (take BLOCK_SIZE r) = BLOCK_SIZE) by (rewrite length_take; lia).
    rewrite Hc, (drop_ge blk), app_nil_r by lia.
    assert (Hlt2 : (p + N.of_nat BLOCK_SIZE <? S)%N = true).
    { apply N.ltb_lt. unfold BLOCK_SIZE in *. lia. }
    rewrite Hlt2, N.ltb_irrefl, Nat.eqb_refl, Nat.sub_diag. simpl repeat. rewrite app_nil_r.
    assert (Hr' : drop BLOCK_SIZE r <> []).
    { intros He. apply (f_equal length) in He. rewrite length_drop in He. unfold r, BLOCK_SIZE in *. simpl in *. lia. }
    rewrite (IH (drop BLOCK_SIZE r) (take BLOCK_SIZE r) (p + N.of_nat BLOCK_SIZE)%N Hr' Hc)
      by (rewrite length_drop; unfold BLOCK_SIZE in *; lia).
    destruct f as [|f]; [unfold BLOCK_SIZE in *; lia|].
    destruct (drop BLOCK_SIZE r) as [|y r1] eqn:Ed; [congruence|].
    cbn [padded_blocks removelast]. reflexivity.
Qed.

Lemma padded_blocks_fuel (f g : nat) (l : list Z) :
  (length l <= f)%nat -> (length l <= g)%nat -> padded_blocks f l = padded_blocks g l.
Proof.
  revert g l; induction f as [|f IH]; intros g l Hf Hg.
  - destruct l; [destruct g; reflexivity | simpl in Hf; lia].
  - destruct l as [|x r]; [destruct g; reflexivity|].
    destruct g as [|g]; [simpl in Hg; lia|].
    cbn [padded_blocks]. f_equal. apply IH; rewrite length_drop; simpl in *; lia.
Qed.

Lemma const_size_blocks_exact (input : list Z) :
  input <> [] ->
  const_size_blocks input (N.of_nat (length input))
  = removelast (padded_blocks (length input) input) ++ [zero_block].
Proof.
  intros Hi. unfold const_size_blocks.
  rewrite (const_size_read_loop_exact _ input zero_block 0 _ Hi) by (reflexivity || lia).
  rewrite (padded_blocks_fuel (S (length input)) (length input)) by lia.
  simpl. rewrite N.ltb_irrefl, app_nil_r. reflexivity.
Qed.

(* ------------------------------------------------------------------ *)
(** ** Operations that leave the configuration and [stream_file_header_pos_] alone *)

Section Keeps.
Context {cst : Type} `{Lz4Codec cst}.

(** The configuration of a writer: what only the constructor, [close] and
    the streaming calls change. *)
Definition cfg (t : tarfile cst) :=
  (type_ t, mode_ t, compression_ t, file_name_ t, opened t, stream_file_header_pos_ t).

(** [m] leaves the part [proj] of the state unchanged, whatever its outcome. *)
Definition keeps {X A} (proj : tarfile cst -> X) (m : M cst A) : Prop :=
  forall t, proj (snd (m t)) = proj t.

Context {X : Type} (proj : tarfile cst -> X).

Lemma keeps_ret {A} (a : A) : keeps proj (ret a).
Proof. intros t. reflexivity. Qed.

Lemma keeps_get : keeps proj get.
Proof. intros t. reflexivity. Qed.

Lemma keeps_throw {A} e : keeps (A := A) proj (throw e).
Proof. intros t. reflexivity. Qed.

Lemma keeps_lift {A} (r : res A) : keeps proj (lift r).
Proof. intros t. destruct r; reflexivity. Qed.

Lemma keeps_modify (f : tarfile cst -> tarfile cst) :
  (forall t, proj (f t) = proj t) -> keeps proj (modify f).
Proof. intros Hf t. apply Hf. Qed.

Lemma keeps_bind {A B} (m : M cst A) (k : A -> M cst B) :
  keeps proj m -> (forall a, keeps proj (k a)) -> keeps proj (bind m k).
Proof.
  intros Hm Hk t. unfold bind. specialize (Hm t).
  destruct (m t) as [[a|e] t'] eqn:E; simpl in *; [rewrite Hk|]; exact Hm.
Qed.

End Keeps.

Abbreviation keeps_cfg := (keeps cfg).

Create HintDb keeps.
#[export] Hint Resolve keeps_ret keeps_get keeps_throw keeps_lift : keeps.

Ltac keeps_tac :=
  repeat match goal with
  | |- keeps _ (bind _ _) => apply keeps_bind; [|intro]
  | |- keeps _ (modify _) => apply keeps_modify; intro; repeat case_match; reflexivity
  | |- keeps _ (match ?x with _ => _ end) => destruct x
  | |- keeps _ _ => solve [eauto with keeps]
  end.
Ltac keeps_cfg_tac := keeps_tac.

Lemma keeps_cfg_file_buffered_write {cst} `{Lz4Codec cst} (d : list Z) :
  keeps (@cfg cst) (file_buffered_write d).
Proof. unfold file_buffered_write. keeps_cfg_tac. Qed.
#[export] Hint Resolve keeps_cfg_file_buffered_write : keeps.

Lemma keeps_cfg_lz4_call {cst} `{Lz4Codec cst} (r : option (cst * list Z)) : keeps_cfg (lz4_call r).
Proof. unfold lz4_call. keeps_cfg_tac. Qed.
#[export] Hint Resolve keeps_cfg_lz4_call : keeps.

Lemma keeps_cfg_write_lz4_data {cst} `{Lz4Codec cst} : keeps (@cfg cst) write_lz4_data.
Proof. unfold write_lz4_data. keeps_cfg_tac. Qed.
#[export] Hint Resolve keeps_cfg_write_lz4_data : keeps.

Lemma keeps_cfg_lz4_flush {cst} `{Lz4Codec cst} : keeps (@cfg cst) lz4_flush.
Proof. unfold lz4_flush. keeps_cfg_tac. Qed.
#[export] Hint Resolve keeps_cfg_lz4_flush : keeps.

Lemma keeps_cfg_write {cst} `{Lz4Codec cst} (d : list Z) (h : bool) :
  keeps (@cfg cst) (write d h).
Proof. unfold write. keeps_cfg_tac. Qed.
#[export] Hint Resolve keeps_cfg_write : keeps.

Lemma keeps_cfg_file_tellp {cst} `{Lz4Codec cst} : keeps (@cfg cst) file_tellp.
Proof. unfold file_tellp. keeps_cfg_tac. Qed.
#[export] Hint Resolve keeps_cfg_file_tellp : keeps.

Lemma keeps_cfg_file_seekp {cst} `{Lz4Codec cst} (p : Z) : keeps (@cfg cst) (file_seekp p).
Proof. unfold file_seekp. keeps_cfg_tac. Qed.
#[export] Hint Resolve keeps_cfg_file_seekp : keeps.

Lemma keeps_cfg_finish {cst} `{Lz4Codec cst} : keeps (@cfg cst) finish.
Proof. unfold finish. keeps_cfg_tac. Qed.
#[export] Hint Resolve keeps_cfg_finish : keeps.

(** [close] clears [opened] and leaves the rest of the configuration. *)
Lemma close_cfg {cst} `{Lz4Codec cst} (t : tarfile cst) :
  let t' := snd (close t) in
  type_ t' = type_ t /\ mode_ t' = mode_ t /\ compression_ t' = compression_ t
  /\ file_name_ t' = file_name_ t /\ stream_file_header_pos_ t' = stream_file_header_pos_ t.
Proof.
  unfold close. destruct (opened t); [|simpl; tauto].
  pose proof (keeps_cfg_finish t) as Hf.
  destruct (finish t) as [[] t1]; simpl in *; unfold cfg in Hf; injection Hf; intros; subst;
    repeat split; congruence.
Qed.

Lemma keeps_cfg_check_state_and_flush {cst} `{Lz4Codec cst} :
  keeps (@cfg cst) check_state_and_flush.
Proof. unfold check_state_and_flush. keeps_cfg_tac. Qed.
#[export] Hint Resolve keeps_cfg_check_state_and_flush : keeps.

Lemma keeps_cfg_write_header {cst} `{Lz4Codec cst} pf name mode uid gid size time ft ma mi ln :
  keeps (@cfg cst) (write_header pf name mode uid gid size time ft ma mi ln).
Proof. unfold write_header. keeps_cfg_tac. Qed.
#[export] Hint Resolve keeps_cfg_write_header : keeps.

Lemma keeps_cfg_write_blocks {cst} `{Lz4Codec cst} (bs : list (list Z)) :
  keeps (@cfg cst) (write_blocks bs).
Proof. induction bs; simpl; keeps_cfg_tac. Qed.
#[export] Hint Resolve keeps_cfg_write_blocks : keeps.

Lemma keeps_cfg_write_regular_file_const_size {cst} `{Lz4Codec cst} pf name size :
  keeps (@cfg cst) (write_regular_file_const_size pf name size).
Proof. unfold write_regular_file_const_size. keeps_cfg_tac. Qed.
#[export] Hint Resolve keeps_cfg_write_regular_file_const_size : keeps.

Lemma keeps_cfg_write_regular_file_dynamic_size {cst} `{Lz4Codec cst} pf name :
  keeps (@cfg cst) (write_regular_file_dynamic_size pf name).
Proof. unfold write_regular_file_dynamic_size. keeps_cfg_tac. Qed.
#[export] Hint Resolve keeps_cfg_write_regular_file_dynamic_size : keeps.

Lemma keeps_cfg_add_file_streaming_data {cst} `{Lz4Codec cst} (d : list Z) :
  keeps (@cfg cst) (add_file_streaming_data d).
Proof. unfold add_file_streaming_data. keeps_cfg_tac. Qed.
#[export] Hint Resolve keeps_cfg_add_file_streaming_data : keeps.

Lemma keeps_cfg_read_from_filesystem_write_to_tar {cst} `{Lz4Codec cst} pf s d r :
  keeps (@cfg cst) (read_from_filesystem_write_to_tar pf s d r).
Proof. unfold read_from_filesystem_write_to_tar. cbv zeta. keeps_cfg_tac. Qed.
#[export] Hint Resolve keeps_cfg_read_from_filesystem_write_to_tar : keeps.

Lemma keeps_cfg_add_from_filesystem {cst} `{Lz4Codec cst} pf f r :
  keeps (@cfg cst) (add_from_filesystem pf f r).
Proof. unfold add_from_filesystem. keeps_cfg_tac. Qed.
#[export] Hint Resolve keeps_cfg_add_from_filesystem : keeps.

Lemma keeps_cfg_check_target_path {cst} `{Lz4Codec cst} p :
  keeps (@cfg cst) (check_target_path p).
Proof. unfold check_target_path. keeps_cfg_tac. Qed.
#[export] Hint Resolve keeps_cfg_check_target_path : keeps.

Lemma keeps_cfg_add_from_filesystem_to {cst} `{Lz4Codec cst} pf s d r :
  keeps (@cfg cst) (add_from_filesystem_to pf s d r).
Proof. unfold add_from_filesystem_to. keeps_cfg_tac. Qed.
#[export] Hint Resolve keeps_cfg_add_from_filesystem_to : keeps.

Lemma keeps_cfg_for_each {cst} `{Lz4Codec cst} (l : list string) (cb : string -> M cst unit) :
  (forall p, keeps_cfg (cb p)) -> keeps_cfg (for_each l cb).
Proof. intros Hcb. induction l; simpl; keeps_cfg_tac. Qed.

Lemma keeps_cfg_iterateDirectory {cst} `{Lz4Codec cst} pf p (cb : string -> M cst unit) :
  (forall p, keeps_cfg (cb p)) -> keeps_cfg (iterateDirectory pf p cb).
Proof.
  intros Hcb. unfold iterateDirectory.
  destruct (is_directory pf p); [apply keeps_bind; [|intros; apply keeps_cfg_for_each]|]; auto.
Qed.

Lemma keeps_cfg_run_call {cst} `{Lz4Codec cst} pf (c : api_call) :
  match c with
  | Call_add_file_streaming | Call_stream_file_complete _ _ _ _ _ _ | Call_close => True
  | _ => keeps (@cfg cst) (run_call pf c)
  end.
Proof.
  destruct c; simpl; try exact I.
  - apply keeps_cfg_add_from_filesystem.
  - apply keeps_cfg_add_from_filesystem_to.
  - unfold add_from_filesystem_recursive. keeps_cfg_tac.
    all: apply keeps_cfg_iterateDirectory; intros; apply keeps_cfg_add_from_filesystem.
  - unfold add_from_filesystem_recursive_to. keeps_cfg_tac.
    all: apply keeps_cfg_iterateDirectory; intros; apply keeps_cfg_add_from_filesystem_to.
  - unfold add_symlink. keeps_cfg_tac.
  - unfold add_hardlink. keeps_cfg_tac.
  - unfold add_character_special_file. keeps_cfg_tac.
  - unfold add_block_special_file. keeps_cfg_tac.
  - unfold add_fifo. keeps_cfg_tac.
  - unfold add_directory. keeps_cfg_tac.
  - apply keeps_cfg_add_file_streaming_data.
Qed.

Lemma check_state_and_flush_ok {cst} `{Lz4Codec cst} (t t1 : tarfile cst) a :
  check_state_and_flush t = (Ok a, t1) -> opened t = true /\ stream_file_header_pos_ t < 0.
Proof.
  unfold check_state_and_flush, bind, get, throw.
  destruct (opened t); simpl; [|discriminate].
  destruct (Z.leb_spec 0 (stream_file_header_pos_ t)); [discriminate|]. auto.
Qed.

(** While a file is streamed, [check_state_and_flush] throws [logic_error]
    and changes nothing. *)
Lemma check_state_and_flush_streaming {cst} `{Lz4Codec cst} (t : tarfile cst) :
  0 <= stream_file_header_pos_ t ->
  exists msg, check_state_and_flush t = (Err (LogicError msg), t).
Proof.
  intros Hp. unfold check_state_and_flush, bind, get, throw.
  destruct (opened t); simpl; [|eauto].
  destruct (Z.leb_spec 0 (stream_file_header_pos_ t)); [eauto|lia].
Qed.

(** [add_file_streaming] either leaves [stream_file_header_pos_] or sets
    it to the file position, which is not negative; it succeeds only in
    the second case. *)
Lemma add_file_streaming_pos {cst} `{Lz4Codec cst} (t : tarfile cst) :
  let (r, t') := add_file_streaming t in
  (stream_file_header_pos_ t' = stream_file_header_pos_ t /\ r <> Ok tt)
  \/ 0 <= stream_file_header_pos_ t'.
Proof.
  unfold add_file_streaming. unfold bind at 1. unfold get.
  destruct (mode_ t) eqn:Em; [|left; split; [reflexivity|discriminate]].
  unfold bind at 1. pose proof (keeps_cfg_check_state_and_flush t) as Hc.
  destruct (check_state_and_flush t) as [[[]|e] t1] eqn:Ec;
    [|left; split; [unfold cfg in Hc; simpl in Hc; congruence|discriminate]].
  apply check_state_and_flush_ok in Ec as [Ho _].
  unfold cfg in Hc; simpl in Hc. injection Hc as _ Hm1 _ _ Ho1 _.
  unfold bind, file_tellp, get, ret. simpl. rewrite Hm1, Em, Ho1, Ho. simpl.
  pose proof (keeps_cfg_write zero_block true
                (set_stream_file_header_pos (Z.of_nat (file_pos_ t1)) t1)) as Hw.
  unfold cfg in Hw. destruct (write _ _ _) as [r t2]. simpl in *.
  injection Hw as _ _ _ _ _ ->. right. lia.
Qed.

(** The outcome of a call for [stream_file_header_pos_], starting from the
    value [p]: unchanged and failed, or reset to [-1]. *)
Definition keeps_or_resets {cst} (p : Z) (x : res unit * tarfile cst) : Prop :=
  (stream_file_header_pos_ (snd x) = p /\ fst x <> Ok tt) \/ stream_file_header_pos_ (snd x) = -1.

Lemma keeps_or_resets_bind {cst} `{Lz4Codec cst} {A} (m : M cst A) (k : A -> M cst unit) p t :
  keeps_cfg m -> stream_file_header_pos_ t = p ->
  (forall a t1, stream_file_header_pos_ t1 = p -> keeps_or_resets p (k a t1)) ->
  keeps_or_resets p (bind m k t).
Proof.
  intros Hm Ht Hk. specialize (Hm t). unfold bind, cfg in *.
  destruct (m t) as [[a|e] t1]; simpl in *; injection Hm; intros.
  - apply Hk. rewrite H0. exact Ht.
  - left. split; [simpl; rewrite H0; exact Ht|discriminate].
Qed.

Lemma keeps_or_resets_reset {cst} `{Lz4Codec cst} (X : M cst unit) p t :
  keeps_cfg X ->
  keeps_or_resets p ((modify (set_stream_file_header_pos (-1)) ;; X) t).
Proof.
  intros HX. right. unfold bind, modify. simpl.
  specialize (HX (set_stream_file_header_pos (-1) t)). unfold cfg in HX.
  injection HX as _ _ _ _ _ ->. reflexivity.
Qed.

(** [stream_file_complete] leaves [stream_file_header_pos_] and fails, or
    sets it to [-1]; it succeeds only in the second case. *)
Lemma stream_file_complete_pos {cst} `{Lz4Codec cst} pf name mode uid gid size time
    (t : tarfile cst) :
  keeps_or_resets (stream_file_header_pos_ t)
    (stream_file_complete pf name mode uid gid size time t).
Proof.
  unfold stream_file_complete. unfold bind at 1, get.
  destruct (stream_file_header_pos_ t <? 0); [left; split; [reflexivity|discriminate]|].
  apply keeps_or_resets_bind; [keeps_cfg_tac|reflexivity|intros ? t1 Ht1].
  apply keeps_or_resets_bind; [keeps_cfg_tac|exact Ht1|intros ? t2 Ht2].
  apply keeps_or_resets_bind; [keeps_cfg_tac|exact Ht2|intros ? t3 Ht3].
  apply keeps_or_resets_bind; [keeps_cfg_tac|exact Ht3|intros ? t4 Ht4].
  apply keeps_or_resets_bind; [keeps_cfg_tac|exact Ht4|intros ? t5 Ht5].
  apply keeps_or_resets_bind; [keeps_cfg_tac|exact Ht5|intros ? t6 Ht6].
  apply keeps_or_resets_reset. keeps_cfg_tac.
Qed.

(* ------------------------------------------------------------------ *)
(** ** Calls that fail before touching the state *)

Definition fails_unchanged {cst A} (P : exn -> bool) (m : M cst A) (t : tarfile cst) : Prop :=
  exists e, m t = (Err e, t) /\ P e = true.

Lemma fails_unchanged_bind {cst A B} P (m : M cst A) (k : A -> M cst B) t :
  fails_unchanged P m t -> fails_unchanged P (bind m k) t.
Proof. intros [e [He HP]]. exists e. unfold bind. now rewrite He. Qed.

Lemma fails_unchanged_bind_ok {cst A B} P (m : M cst A) (k : A -> M cst B) t a :
  m t = (Ok a, t) -> fails_unchanged P (k a) t -> fails_unchanged P (bind m k) t.
Proof. intros He Hk. unfold fails_unchanged, bind in *. now rewrite He. Qed.

Lemma fails_unchanged_weaken {cst A} (P Q : exn -> bool) (m : M cst A) t :
  (forall e, P e = true -> Q e = true) -> fails_unchanged P m t -> fails_unchanged Q m t.
Proof. intros HPQ [e [He HP]]. exists e. auto. Qed.

(** A step that either succeeds without a state change or fails with
    [invalid_argument]. *)
Definition passes_or_rejects {cst A} (m : M cst A) (t : tarfile cst) : Prop :=
  (exists a, m t = (Ok a, t)) \/ fails_unchanged is_invalid_argument m t.

Lemma check_target_path_passes {cst} (p : string) (t : tarfile cst) :
  passes_or_rejects (check_target_path p) t.
Proof.
  unfold check_target_path, passes_or_rejects, fails_unchanged.
  repeat match goal with |- context [if ?b then _ else _] => destruct b end;
    first [left; eexists; reflexivity | right; eexists; split; reflexivity].
Qed.

Lemma type_flag_cases pf (p : string) :
  (exists f, type_flag pf p = Ok f) \/ (exists msg, type_flag pf p = Err (InvalidArgument msg)).
Proof. unfold type_flag. cbv zeta. repeat case_match; eauto. Qed.

Lemma type_flag_passes {cst} pf (p : string) (t : tarfile cst) :
  passes_or_rejects (lift (type_flag pf p)) t.
Proof.
  unfold passes_or_rejects, fails_unchanged, lift.
  destruct (type_flag_cases pf p) as [[f ->]|[msg ->]]; eauto.
Qed.

Definition logic_or_invalid (e : exn) : bool := is_logic_error e || is_invalid_argument e.

Lemma passes_or_rejects_bind {cst A B} (m : M cst A) (k : A -> M cst B) t :
  passes_or_rejects m t -> (forall a, fails_unchanged logic_or_invalid (k a) t) ->
  fails_unchanged logic_or_invalid (bind m k) t.
Proof.
  intros [[a Ha]|Hf] Hk.
  - eapply fails_unchanged_bind_ok; eauto.
  - apply fails_unchanged_bind. revert Hf. apply fails_unchanged_weaken.
    intros e He. unfold logic_or_invalid. now rewrite He, orb_true_r.
Qed.

Lemma check_state_and_flush_streaming' {cst} `{Lz4Codec cst} (t : tarfile cst) :
  0 <= stream_file_header_pos_ t -> fails_unchanged is_logic_error check_state_and_flush t.
Proof.
  intros Hp. destruct (check_state_and_flush_streaming t Hp) as [msg Hm].
  exists (LogicError msg). auto.
Qed.

Lemma add_from_filesystem_streaming {cst} `{Lz4Codec cst} pf f r (t : tarfile cst) :
  0 <= stream_file_header_pos_ t -> fails_unchanged is_logic_error (add_from_filesystem pf f r) t.
Proof. intros Hp. apply fails_unchanged_bind, check_state_and_flush_streaming', Hp. Qed.

Lemma add_from_filesystem_to_streaming {cst} `{Lz4Codec cst} pf s d r (t : tarfile cst) :
  0 <= stream_file_header_pos_ t ->
  fails_unchanged logic_or_invalid (add_from_filesystem_to pf s d r) t.
Proof.
  intros Hp. unfold add_from_filesystem_to.
  apply passes_or_rejects_bind; [apply check_target_path_passes|intros _].
  apply passes_or_rejects_bind; [apply type_flag_passes|intros ft].
  apply passes_or_rejects_bind.
  { unfold passes_or_rejects, fails_unchanged, throw, ret.
    destruct (_ && _); [right; eexists; split; reflexivity | left; eexists; reflexivity]. }
  intros _. apply fails_unchanged_bind. revert Hp.
  intros Hp. eapply fails_unchanged_weaken; [|apply check_state_and_flush_streaming', Hp].
  intros e He. unfold logic_or_invalid. now rewrite He.
Qed.

Lemma iterateDirectory_fails {cst} `{Lz4Codec cst} pf P p (cb : string -> M cst unit) t :
  (forall q, fails_unchanged P (cb q) t) -> fails_unchanged P (iterateDirectory pf p cb) t.
Proof.
  intros Hcb. unfold iterateDirectory.
  destruct (is_directory pf p); [apply fails_unchanged_bind|]; apply Hcb.
Qed.

Definition admission_error (c : api_call) (e : exn) : bool :=
  is_logic_error e || checks_paths_first c && is_invalid_argument e.

Lemma admission_fails_while_streaming {cst} `{Lz4Codec cst} pf (c : api_call) (t : tarfile cst) :
  0 <= stream_file_header_pos_ t -> is_admission_call c = true ->
  fails_unchanged (admission_error c) (run_call pf c) t.
Proof.
  intros Hp Hc.
  assert (Hl : forall c' e, is_logic_error e = true -> admission_error c' e = true)
    by (intros c' e He; unfold admission_error; now rewrite He).
  assert (Hcs : forall A (k : unit -> M cst A),
             fails_unchanged (admission_error c) (bind check_state_and_flush k) t).
  { intros A k. apply fails_unchanged_bind. eapply fails_unchanged_weaken; [apply Hl|].
    apply check_state_and_flush_streaming', Hp. }
  destruct c; simpl in Hc |- *; try discriminate Hc;
    unfold add_from_filesystem, add_symlink, add_hardlink, add_character_special_file,
      add_block_special_file, add_fifo, add_directory.
  - apply Hcs.
  - eapply fails_unchanged_weaken; [|apply add_from_filesystem_to_streaming, Hp].
    intros e. unfold logic_or_invalid, admission_error. now simpl.
  - unfold add_from_filesystem_recursive.
    eapply fails_unchanged_weaken;
      [intros e; unfold logic_or_invalid, admission_error; simpl; exact (fun x => x)|].
    apply passes_or_rejects_bind; [apply type_flag_passes|intros ft].
    assert (Ha : forall q, fails_unchanged logic_or_invalid (add_from_filesystem pf q read_symlinks) t).
    { intros q. eapply fails_unchanged_weaken; [|apply add_from_filesystem_streaming, Hp].
      intros e He. unfold logic_or_invalid. now rewrite He. }
    destruct ft; try apply Ha. apply iterateDirectory_fails. exact Ha.
  - unfold add_from_filesystem_recursive_to.
    eapply fails_unchanged_weaken;
      [intros e; unfold logic_or_invalid, admission_error; simpl; exact (fun x => x)|].
    apply passes_or_rejects_bind; [apply check_target_path_passes|intros _]. cbv zeta.
    apply passes_or_rejects_bind; [apply type_flag_passes|intros ft].
    assert (Ha : forall s d, fails_unchanged logic_or_invalid
                                (add_from_filesystem_to pf s d read_symlinks) t)
      by (intros; apply add_from_filesystem_to_streaming, Hp).
    destruct ft; try apply Ha. apply iterateDirectory_fails. intros q. apply Ha.
  - apply Hcs.
  - apply Hcs.
  - apply Hcs.
  - apply Hcs.
  - apply Hcs.
  - apply Hcs.
  - unfold add_file_streaming. apply fails_unchanged_bind_ok with (a := t); [reflexivity|].
    destruct (mode_ t).
    + apply Hcs.
    + exists (LogicError "add_file_streaming only supports output mode file"). split; reflexivity.
Qed.

Lemma keeps_cfg_init_lz4 {cst} `{Lz4Codec cst} : keeps (@cfg cst) init_lz4.
Proof. unfold init_lz4. keeps_cfg_tac. Qed.

Lemma construct_pos {cst} `{Lz4Codec cst} mode comp type fn :
  stream_file_header_pos_ (snd (construct (cst := cst) mode comp type fn)) = -1.
Proof.
  unfold construct.
  pose proof (keeps_cfg_init_lz4 (initial_tarfile (cst := cst) mode comp type fn)) as Hk.
  unfold cfg in Hk. destruct (init_lz4 _) as [r t']. simpl in *.
  injection Hk as _ _ _ _ _ ->. reflexivity.
Qed.

(* ------------------------------------------------------------------ *)
(** ** The recorded inodes

    Only [read_from_filesystem_write_to_tar] touches [stored_inos_]: the
    output functions leave it as it is. *)

Lemma keeps_inos_file_buffered_write {cst} `{Lz4Codec cst} (d : list Z) :
  keeps (@stored_inos_ cst) (file_buffered_write d).
Proof. unfold file_buffered_write. keeps_tac. Qed.
#[export] Hint Resolve keeps_inos_file_buffered_write : keeps.

Lemma keeps_inos_lz4_call {cst} `{Lz4Codec cst} (r : option (cst * list Z)) :
  keeps (@stored_inos_ cst) (lz4_call r).
Proof. unfold lz4_call. keeps_tac. Qed.
#[export] Hint Resolve keeps_inos_lz4_call : keeps.

Lemma keeps_inos_write_lz4_data {cst} `{Lz4Codec cst} : keeps (@stored_inos_ cst) write_lz4_data.
Proof. unfold write_lz4_data. keeps_tac. Qed.
#[export] Hint Resolve keeps_inos_write_lz4_data : keeps.

Lemma keeps_inos_lz4_flush {cst} `{Lz4Codec cst} : keeps (@stored_inos_ cst) lz4_flush.
Proof. unfold lz4_flush. keeps_tac. Qed.
#[export] Hint Resolve keeps_inos_lz4_flush : keeps.

Lemma keeps_inos_write {cst} `{Lz4Codec cst} (d : list Z) (h : bool) :
  keeps (@stored_inos_ cst) (write d h).
Proof. unfold write. keeps_tac. Qed.
#[export] Hint Resolve keeps_inos_write : keeps.

Lemma keeps_inos_file_tellp {cst} `{Lz4Codec cst} : keeps (@stored_inos_ cst) file_tellp.
Proof. unfold file_tellp. keeps_tac. Qed.
#[export] Hint Resolve keeps_inos_file_tellp : keeps.

Lemma keeps_inos_file_seekp {cst} `{Lz4Codec cst} (p : Z) : keeps (@stored_inos_ cst) (file_seekp p).
Proof. unfold file_seekp. keeps_tac. Qed.
#[export] Hint Resolve keeps_inos_file_seekp : keeps.

Lemma keeps_inos_write_header {cst} `{Lz4Codec cst} pf name mode uid gid size time ft ma mi ln :
  keeps (@stored_inos_ cst) (write_header pf name mode uid gid size time ft ma mi ln).
Proof. unfold write_header. keeps_tac. Qed.
#[export] Hint Resolve keeps_inos_write_header : keeps.

Lemma keeps_inos_write_blocks {cst} `{Lz4Codec cst} (bs : list (list Z)) :
  keeps (@stored_inos_ cst) (write_blocks bs).
Proof. induction bs; simpl; keeps_tac. Qed.
#[export] Hint Resolve keeps_inos_write_blocks : keeps.

Lemma keeps_inos_write_regular_file_const_size {cst} `{Lz4Codec cst} pf name size :
  keeps (@stored_inos_ cst) (write_regular_file_const_size pf name size).
Proof. unfold write_regular_file_const_size. keeps_tac. Qed.
#[export] Hint Resolve keeps_inos_write_regular_file_const_size : keeps.

Lemma keeps_inos_write_regular_file_dynamic_size {cst} `{Lz4Codec cst} pf name :
  keeps (@stored_inos_ cst) (write_regular_file_dynamic_size pf name).
Proof. unfold write_regular_file_dynamic_size. keeps_tac. Qed.
#[export] Hint Resolve keeps_inos_write_regular_file_dynamic_size : keeps.

Lemma keeps_result {cst X A} (proj : tarfile cst -> X) (m : M cst A) t r t' :
  keeps proj m -> m t = (r, t') -> proj t' = proj t.
Proof. intros Hk E. specialize (Hk t). rewrite E in Hk. exact Hk. Qed.

(* ------------------------------------------------------------------ *)
(** ** Hard-link coalescing in [read_from_filesystem_write_to_tar] *)

(** Runs a computation whose steps are all evaluated but for calls on a
    state that is not known: each such call is split on its outcome, and
    the part [proj] of its result is recorded to be the one of its
    argument. *)
Ltac run_keeps proj :=
  repeat (cbv beta iota zeta;
    match goal with
    | |- context [match ?e with _ => _ end] =>
        lazymatch type of e with
        | (res _ * tarfile _)%type =>
            lazymatch e with
            | (_, _) => fail
            | ?m ?s =>
              let E := fresh "E" in
              let K := fresh "K" in
              destruct e as [[?|?] ?] eqn:E;
              pose proof (keeps_result proj m s _ _ ltac:(solve [keeps_tac]) E) as K;
              clear E
            end
        end
    | |- context [snd ?e] =>
        lazymatch type of e with
        | (res _ * tarfile _)%type =>
            lazymatch e with
            | (_, _) => fail
            | ?m ?s =>
              let E := fresh "E" in
              let K := fresh "K" in
              destruct e as [[?|?] ?] eqn:E;
              pose proof (keeps_result proj m s _ _ ltac:(solve [keeps_tac]) E) as K;
              clear E
            end
        end
    end).

(** Admitting a regular file [q] whose inode is not recorded yet records
    it under [q], whatever happens after that. *)
Lemma add_from_filesystem_records_ino {cst} `{Lz4Codec cst} pf q n (t : tarfile cst) :
  fs_lstat pf q = Some n -> fs_stat pf q = Some n -> n_kind n = FK_regular ->
  n_readable n = true ->
  opened t = true -> stream_file_header_pos_ t < 0 -> compression_ t = none ->
  String.eqb q (file_name_ t) = false -> stored_inos_ t !! n_ino n = None ->
  stored_inos_ (snd (add_from_filesystem pf q false t)) !! n_ino n = Some q.
Proof.
  intros Hl Hs Hk Hr Ho Hp Hc Hf Hq.
  destruct t; simpl in *. subst.
  assert (Hp' : (0 <=? stream_file_header_pos_0) = false) by (apply Z.leb_gt; exact Hp).
  assert (He : (if 1 <? n_nlink n then stored_inos_0 !! n_ino n else None) = None)
    by (destruct (1 <? n_nlink n); auto).
  assert (Hv : (file_type_char REGULAR_FILE <=? 50)%N = true) by reflexivity.
  unfold add_from_filesystem, check_state_and_flush, read_from_filesystem_write_to_tar,
    type_flag, file_exists, file_owner, file_group, get_stat, mode, can_open,
    file_equivalent_present, ino, mod_time.
  unfold bind, get, ret, lift, throw, modify.
  destruct type_0, mode_0;
  do 12 (rewrite ?Hv, ?Hl, ?Hs, ?Hk, ?Hr, ?Hp', ?Hf, ?He, ?Hq;
        cbv beta iota zeta delta [type_ mode_ compression_ file_name_ opened file_ file_pos_
          callback_log written stream_file_header_pos_ stream_block_ stored_inos_ stored_files_
          lz4_ctx_ lz4_out_buf_ lz4_out_buf_pos_ set_stored_inos negb andb is_file_type_supported
          get_stat file_size major_minor read_symlink mod_time ino file_equivalent_present]).
  all: run_keeps (@stored_inos_ cst).
  all: cbn [snd];
    repeat match goal with K : stored_inos_ _ = stored_inos_ _ |- _ =>
      cbv beta iota delta [stored_inos_] in K; rewrite K; clear K end.
  all: cbv beta iota; apply lookup_insert_eq.
Qed.

(** Admitting [p], a regular file with more than one link whose inode is
    recorded under [q], writes a [HARD_LINK] header of size 0 whose link
    name is [q]; in a file writer after the placeholder header. *)
Lemma add_from_filesystem_hard_link {cst} `{Lz4Codec cst} pf p q n sn sl un gn (t : tarfile cst) :
  fs_lstat pf p = Some n -> fs_stat pf p = Some n -> n_kind n = FK_regular ->
  n_readable n = true -> 1 < n_nlink n -> stored_inos_ t !! n_ino n = Some q ->
  opened t = true -> stream_file_header_pos_ t < 0 -> compression_ t = none ->
  String.eqb p (file_name_ t) = false ->
  relative_path p = Ok sn -> relative_path q = Ok sl ->
  header_names pf (type_ t) (n_uid n) (n_gid n) = Ok (un, gn) ->
  let (r, t') := add_from_filesystem pf p false t in
  r = Ok tt /\
  written t' = written t
               ++ match mode_ t with file_output => [(zero_block, true)] | stream_output => [] end
               ++ [(build_header un gn (type_ t) (n_mode n) (n_uid n) (n_gid n) 0 (n_mtime n)
                      HARD_LINK 0 0 sn q sl, true)].
Proof.
  intros Hl Hs Hk Hr Hn Hq Ho Hp Hc Hf Hsn Hsl Hnm.
  destruct t; simpl in *. subst.
  assert (Hn' : (1 <? n_nlink n) = true) by (apply Z.ltb_lt; exact Hn).
  assert (Hp' : (0 <=? stream_file_header_pos_0) = false) by (apply Z.leb_gt; exact Hp).
  assert (Hv : (file_type_char HARD_LINK <=? 50)%N = true) by reflexivity.
  assert (Hz : length zero_block = 512%nat) by reflexivity.
  assert (Hv' : (50 <? file_type_char HARD_LINK)%N = false) by reflexivity.
  assert (Hb : forall b : bool, (if b then false else false) = false) by (intros []; reflexivity).
  assert (Hnn : forall k, (0 <=? Z.of_nat k) = true) by (intros; apply Z.leb_le; lia).
  unfold add_from_filesystem, check_state_and_flush, read_from_filesystem_write_to_tar,
    type_flag, file_exists, file_owner, file_group, get_stat, mode, can_open,
    file_equivalent_present, ino, mod_time, write_header, write, file_tellp, file_seekp,
    file_buffered_write.
  unfold bind, get, ret, lift, throw, modify.
  destruct type_0, mode_0;
  do 20 (rewrite ?Hv, ?Hv', ?Hb, ?Hl, ?Hs, ?Hk, ?Hr, ?Hn', ?Hp', ?Hf, ?Hq, ?Hsn, ?Hsl, ?Hz, ?Hnn, ?Hnm;
        cbv beta iota zeta delta [fst snd type_ mode_ compression_ file_name_ opened file_ file_pos_
          callback_log written stream_file_header_pos_ stream_block_ stored_inos_ stored_files_
          lz4_ctx_ lz4_out_buf_ lz4_out_buf_pos_ set_stored_inos negb andb is_file_type_supported
          get_stat file_size major_minor read_symlink mod_time ino file_equivalent_present
          is_regular_or_contiguous set_written set_callback_log set_file set_stored_files]).
  all: split; [reflexivity | by rewrite <- ?app_assoc].
Qed.

(* ------------------------------------------------------------------ *)
(** ** The names of [write_header] *)

(** [write] only fails with [runtime_error] (from the LZ4 stage). *)
Lemma write_not_logic {cst} `{Lz4Codec cst} d h (t t' : tarfile cst) r m :
  write d h t = (r, t') -> r <> Err (LogicError m).
Proof.
  unfold write, lz4_flush, write_lz4_data, lz4_call, file_buffered_write, bind, get, ret, modify, throw.
  intros E. repeat (case_match; simplify_eq/=); congruence.
Qed.

(** The unfolding of [relative_path] on a non-empty string. *)
Lemma relative_path_String (c : ascii) (rest : string) :
  relative_path (String c rest) =
  if String.eqb (String c rest) "../" then Ok "./"%string
  else if String.eqb (String c rest) "/" then Err (InvalidArgument "can't tar the rootfs")
  else if Ascii.eqb c "/"%char then relative_path rest
  else match rest with
       | String c2 rest2 =>
           if Ascii.eqb c "."%char && Ascii.eqb c2 "."%char
           then relative_path rest2 else Ok (String c rest)
       | EmptyString => Ok (String c rest)
       end.
Proof. reflexivity. Qed.

(** [relative_path] fails only for the root. *)
Lemma relative_path_err (s : string) e :
  relative_path s = Err e -> e = InvalidArgument "can't tar the rootfs".
Proof.
  remember (String.length s) as k eqn:Hk. revert s Hk.
  induction k as [k IH] using lt_wf_ind. intros s Hk E.
  destruct s as [|c rest]; [discriminate|]. rewrite relative_path_String in E.
  destruct (String.eqb (String c rest) "../"); [discriminate|].
  destruct (String.eqb (String c rest) "/"); [congruence|].
  destruct (Ascii.eqb c "/").
  { apply (IH (String.length rest)) with rest; simpl in Hk; auto; lia. }
  destruct rest as [|c2 rest2]; [discriminate|].
  destruct (Ascii.eqb c "." && Ascii.eqb c2 "."); [|discriminate].
  apply (IH (String.length rest2)) with rest2; simpl in Hk; auto; lia.
Qed.

(** The name lookups of [write_header] only fail with [SystemError] (an
    [errno_exception]). *)
Lemma header_names_err pf ty u g e : header_names pf ty u g = Err e -> e = SystemError.
Proof.
  unfold header_names, user_name, group_name, user_name_buffered, group_name_buffered,
    throw_exception_getpwd_getgrgid_on_error.
  intros E. destruct ty; try discriminate E. cbn [grpid_cache_ pwuid_cache_] in E.
  rewrite !lookup_empty in E. repeat (case_match; simpl in *; try congruence).
Qed.

(** A cache of [PosixOS] is coherent with a database when every entry is
    what a lookup with empty caches gives.  Coherent caches give the same
    answers as empty ones, and a lookup keeps them coherent. *)
Definition pwuid_coherent (db : NameDb) (os : PosixOS) : Prop :=
  forall u n, pwuid_cache_ os !! u = Some n -> fst (user_name_buffered db u (mk_PosixOS ∅ ∅)) = Ok n.
Definition grpid_coherent (db : NameDb) (os : PosixOS) : Prop :=
  forall g n, grpid_cache_ os !! g = Some n -> fst (group_name_buffered db g (mk_PosixOS ∅ ∅)) = Ok n.

Lemma user_name_buffered_coherent db uid os :
  pwuid_coherent db os ->
  fst (user_name_buffered db uid os) = fst (user_name_buffered db uid (mk_PosixOS ∅ ∅))
  /\ pwuid_coherent db (snd (user_name_buffered db uid os)).
Proof.
  intros Hc. unfold user_name_buffered at 1 3.
  destruct (pwuid_cache_ os !! uid) as [n|] eqn:E.
  { split; [symmetry; exact (Hc _ _ E)|exact Hc]. }
  destruct (getpwuid_r db uid) as [code result] eqn:G.
  assert (Hu : user_name_buffered db uid (mk_PosixOS ∅ ∅)
               = let (pw_uid_result, result) := getpwuid_r db uid in
                 if negb (pw_uid_result =? 0) then (Err SystemError, mk_PosixOS ∅ ∅) else
                 match throw_exception_getpwd_getgrgid_on_error pw_uid_result with
                 | Err e => (Err e, mk_PosixOS ∅ ∅)
                 | Ok _ =>
                     let name := match result with None => to_string uid | Some p => pw_name p end in
                     (Ok name, mk_PosixOS ∅ (<[ uid := name ]> ∅))
                 end).
  { unfold user_name_buffered. cbn [pwuid_cache_ grpid_cache_]. rewrite lookup_empty. reflexivity. }
  rewrite Hu, G.
  destruct (negb (code =? 0)) eqn:Hn; [split; [reflexivity|exact Hc]|].
  destruct (throw_exception_getpwd_getgrgid_on_error code) eqn:T; [|split; [reflexivity|exact Hc]].
  split; [reflexivity|]. intros u n. cbn [snd pwuid_cache_].
  destruct (decide (u = uid)) as [->|Hne].
  - rewrite lookup_insert_eq. intros [= <-]. rewrite Hu, G, Hn, T. reflexivity.
  - rewrite lookup_insert_ne by congruence. apply Hc.
Qed.

Lemma group_name_buffered_coherent db gid os :
  grpid_coherent db os ->
  fst (group_name_buffered db gid os) = fst (group_name_buffered db gid (mk_PosixOS ∅ ∅))
  /\ grpid_coherent db (snd (group_name_buffered db gid os)).
Proof.
  intros Hc. unfold group_name_buffered at 1 3.
  destruct (grpid_cache_ os !! gid) as [n|] eqn:E.
  { split; [symmetry; exact (Hc _ _ E)|exact Hc]. }
  destruct (getgrgid_r db gid) as [code result] eqn:G.
  assert (Hu : group_name_buffered db gid (mk_PosixOS ∅ ∅)
               = let (gr_gid_result, result) := getgrgid_r db gid in
                 match throw_exception_getpwd_getgrgid_on_error gr_gid_result with
                 | Err e => (Err e, mk_PosixOS ∅ ∅)
                 | Ok _ =>
                     let name := match result with None => to_string gid | Some n => n end in
                     (Ok name, mk_PosixOS (<[ gid := name ]> ∅) ∅)
                 end).
  { unfold group_name_buffered. cbn [pwuid_cache_ grpid_cache_]. rewrite lookup_empty. reflexivity. }
  rewrite Hu, G.
  destruct (throw_exception_getpwd_getgrgid_on_error code) eqn:T; [|split; [reflexivity|exact Hc]].
  split; [reflexivity|]. intros g n. cbn [snd grpid_cache_].
  destruct (decide (g = gid)) as [->|Hne].
  - rewrite lookup_insert_eq. intros [= <-]. rewrite Hu, G, T. reflexivity.
  - rewrite lookup_insert_ne by congruence. apply Hc.
Qed.


(** The output functions leave [stored_files_]. *)
Lemma keeps_files_file_buffered_write {cst} `{Lz4Codec cst} (d : list Z) :
  keeps (@stored_files_ cst) (file_buffered_write d).
Proof. unfold file_buffered_write. keeps_tac. Qed.
#[export] Hint Resolve keeps_files_file_buffered_write : keeps.

Lemma keeps_files_lz4_call {cst} `{Lz4Codec cst} (r : option (cst * list Z)) :
  keeps (@stored_files_ cst) (lz4_call r).
Proof. unfold lz4_call. keeps_tac. Qed.
#[export] Hint Resolve keeps_files_lz4_call : keeps.

Lemma keeps_files_write_lz4_data {cst} `{Lz4Codec cst} : keeps (@stored_files_ cst) write_lz4_data.
Proof. unfold write_lz4_data. keeps_tac. Qed.
#[export] Hint Resolve keeps_files_write_lz4_data : keeps.

Lemma keeps_files_lz4_flush {cst} `{Lz4Codec cst} : keeps (@stored_files_ cst) lz4_flush.
Proof. unfold lz4_flush. keeps_tac. Qed.
#[export] Hint Resolve keeps_files_lz4_flush : keeps.

Lemma keeps_files_write {cst} `{Lz4Codec cst} (d : list Z) (h : bool) :
  keeps (@stored_files_ cst) (write d h).
Proof. unfold write. keeps_tac. Qed.
#[export] Hint Resolve keeps_files_write : keeps.

(* ------------------------------------------------------------------ *)
(** ** The log of written blocks only grows *)

Section Grows.
Context {cst : Type} `{Lz4Codec cst}.

Definition grows {A} (m : M cst A) : Prop :=
  forall t, exists l, written (snd (m t)) = written t ++ l.

Lemma grows_ret {A} (a : A) : grows (ret a).
Proof. intros t. exists []. by rewrite app_nil_r. Qed.
Lemma grows_get : grows get.
Proof. intros t. exists []. by rewrite app_nil_r. Qed.
Lemma grows_throw {A} e : grows (A := A) (throw e).
Proof. intros t. exists []. by rewrite app_nil_r. Qed.
Lemma grows_lift {A} (r : res A) : grows (lift r).
Proof. intros t. exists []. destruct r; by rewrite app_nil_r. Qed.
Lemma grows_modify (f : tarfile cst -> tarfile cst) :
  (forall t, exists l, written (f t) = written t ++ l) -> grows (modify f).
Proof. intros Hf t. apply Hf. Qed.
Lemma grows_bind {A B} (m : M cst A) (k : A -> M cst B) :
  grows m -> (forall a, grows (k a)) -> grows (bind m k).
Proof.
  intros Hm Hk t. unfold bind. destruct (Hm t) as [l1 E1].
  destruct (m t) as [[a|e] t'] eqn:E; simpl in *.
  - destruct (Hk a t') as [l2 E2]. exists (l1 ++ l2). by rewrite E2, E1, app_assoc.
  - eauto.
Qed.
End Grows.

Create HintDb grows.
#[export] Hint Resolve grows_ret grows_get grows_throw grows_lift : grows.

Ltac grows_tac :=
  repeat match goal with
  | |- grows (bind _ _) => apply grows_bind; [|intro]
  | |- grows (modify _) =>
      apply grows_modify; intro; repeat case_match;
      first [exists []; rewrite app_nil_r; reflexivity | eexists; reflexivity]
  | |- grows (match ?x with _ => _ end) => destruct x
  | |- grows _ => solve [eauto with grows]
  end.

Lemma grows_file_buffered_write {cst} `{Lz4Codec cst} (d : list Z) :
  grows (cst := cst) (file_buffered_write d).
Proof. unfold file_buffered_write. grows_tac. Qed.
#[export] Hint Resolve grows_file_buffered_write : grows.
Lemma grows_lz4_call {cst} `{Lz4Codec cst} (r : option (cst * list Z)) : grows (lz4_call r).
Proof. unfold lz4_call. grows_tac. Qed.
#[export] Hint Resolve grows_lz4_call : grows.
Lemma grows_write_lz4_data {cst} `{Lz4Codec cst} : grows (cst := cst) write_lz4_data.
Proof. unfold write_lz4_data. grows_tac. Qed.
#[export] Hint Resolve grows_write_lz4_data : grows.
Lemma grows_lz4_flush {cst} `{Lz4Codec cst} : grows (cst := cst) lz4_flush.
Proof. unfold lz4_flush. grows_tac. Qed.
#[export] Hint Resolve grows_lz4_flush : grows.
Lemma grows_write {cst} `{Lz4Codec cst} (d : list Z) (h : bool) : grows (cst := cst) (write d h).
Proof. unfold write. grows_tac. Qed.
#[export] Hint Resolve grows_write : grows.
Lemma grows_file_seekp {cst} `{Lz4Codec cst} (p : Z) : grows (cst := cst) (file_seekp p).
Proof. unfold file_seekp. grows_tac. Qed.
#[export] Hint Resolve grows_file_seekp : grows.
Lemma grows_write_blocks {cst} `{Lz4Codec cst} (bs : list (list Z)) :
  grows (cst := cst) (write_blocks bs).
Proof. induction bs; simpl; grows_tac. Qed.
#[export] Hint Resolve grows_write_blocks : grows.
Lemma grows_write_regular_file_const_size {cst} `{Lz4Codec cst} pf name size :
  grows (cst := cst) (write_regular_file_const_size pf name size).
Proof. unfold write_regular_file_const_size. grows_tac. Qed.
#[export] Hint Resolve grows_write_regular_file_const_size : grows.

(** [stored_files_] is left by the regular-file writers too. *)
Lemma keeps_files_write_blocks {cst} `{Lz4Codec cst} (bs : list (list Z)) :
  keeps (@stored_files_ cst) (write_blocks bs).
Proof. induction bs; simpl; keeps_tac. Qed.
#[export] Hint Resolve keeps_files_write_blocks : keeps.
Lemma keeps_files_write_regular_file_dynamic_size {cst} `{Lz4Codec cst} pf name :
  keeps (@stored_files_ cst) (write_regular_file_dynamic_size pf name).
Proof. unfold write_regular_file_dynamic_size. keeps_tac. Qed.
#[export] Hint Resolve keeps_files_write_regular_file_dynamic_size : keeps.

(** Admitting a regular file [q] whose inode is not recorded yet, when it
    succeeds, writes a [REGULAR_FILE] header for it with no link name. *)
Lemma add_from_filesystem_first_regular {cst} `{Lz4Codec cst} pf q n sq un gn (t : tarfile cst) :
  fs_lstat pf q = Some n -> fs_stat pf q = Some n -> n_kind n = FK_regular ->
  n_readable n = true ->
  opened t = true -> stream_file_header_pos_ t < 0 -> compression_ t = none ->
  String.eqb q (file_name_ t) = false -> stored_inos_ t !! n_ino n = None ->
  relative_path q = Ok sq ->
  header_names pf (type_ t) (n_uid n) (n_gid n) = Ok (un, gn) ->
  let (r, t1) := add_from_filesystem pf q false t in
  r = Ok tt ->
  exists size, In (build_header un gn (type_ t) (n_mode n) (n_uid n) (n_gid n) size (n_mtime n)
                     REGULAR_FILE 0 0 sq "" "", true) (written t1).
Proof.
  intros Hl Hs Hk Hr Ho Hp Hc Hf Hq Hsq Hnm.
  destruct t; simpl in *. subst.
  assert (Hp' : (0 <=? stream_file_header_pos_0) = false) by (apply Z.leb_gt; exact Hp).
  assert (He : (if 1 <? n_nlink n then stored_inos_0 !! n_ino n else None) = None)
    by (destruct (1 <? n_nlink n); auto).
  assert (Hv : (file_type_char REGULAR_FILE <=? 50)%N = true) by reflexivity.
  assert (Hv' : (50 <? file_type_char REGULAR_FILE)%N = false) by reflexivity.
  assert (Hz : length zero_block = 512%nat) by reflexivity.
  assert (Hnn : forall k, (0 <=? Z.of_nat k) = true) by (intros; apply Z.leb_le; lia).
  assert (He0 : relative_path "" = Ok ""%string) by reflexivity.
  assert (Hb : forall b : bool, (if b then true else false) = b) by (intros []; reflexivity).
  destruct (bool_decide (q ∈ stored_files_0)) eqn:Hbd.
  all: unfold add_from_filesystem, check_state_and_flush, read_from_filesystem_write_to_tar,
    type_flag, file_exists, file_owner, file_group, get_stat, mode, can_open,
    file_equivalent_present, ino, mod_time, write_header, write, file_tellp, file_seekp,
    file_buffered_write.
  all: unfold bind, get, ret, lift, throw, modify.
  all: destruct type_0, mode_0;
  do 20 (rewrite ?Hv, ?Hv', ?Hb, ?Hbd, ?Hl, ?Hs, ?Hk, ?Hr, ?Hp', ?Hf, ?He, ?Hq, ?Hsq, ?He0, ?Hz, ?Hnn, ?Hnm;
        cbv beta iota zeta delta [fst snd type_ mode_ compression_ file_name_ opened file_ file_pos_
          callback_log written stream_file_header_pos_ stream_block_ stored_inos_ stored_files_
          lz4_ctx_ lz4_out_buf_ lz4_out_buf_pos_ set_stored_inos negb andb is_file_type_supported
          get_stat file_size major_minor read_symlink mod_time ino file_equivalent_present
          is_regular_or_contiguous set_written set_callback_log set_file set_stored_files]).
  all: try match goal with
       | |- context [write_regular_file_dynamic_size ?pf ?q ?s] =>
           pose proof (keeps_cfg_write_regular_file_dynamic_size pf q s) as Kc;
           pose proof (keeps_files_write_regular_file_dynamic_size pf q s) as Kf;
           destruct (write_regular_file_dynamic_size pf q s) as [[sz|e] s'] eqn:E;
           [destruct s'; unfold cfg in Kc; simpl in Kc, Kf;
            injection Kc; intros; subst; clear E|]
       | |- context [write_regular_file_const_size ?pf ?q ?sz ?s] =>
           destruct (grows_write_regular_file_const_size pf q sz s) as [l El];
           destruct (write_regular_file_const_size pf q sz s) as [r s'] eqn:E;
           destruct s'; simpl in El; subst
       end.
  all: do 20 (rewrite ?Hv, ?Hv', ?Hb, ?Hbd, ?Hl, ?Hs, ?Hk, ?Hr, ?Hp', ?Hf, ?He, ?Hq, ?Hsq, ?He0, ?Hz, ?Hnn, ?Hnm;
        cbv beta iota zeta delta [fst snd type_ mode_ compression_ file_name_ opened file_ file_pos_
          callback_log written stream_file_header_pos_ stream_block_ stored_inos_ stored_files_
          lz4_ctx_ lz4_out_buf_ lz4_out_buf_pos_ set_stored_inos negb andb is_file_type_supported
          get_stat file_size major_minor read_symlink mod_time ino file_equivalent_present
          is_regular_or_contiguous set_written set_callback_log set_file set_stored_files]).
  all: try (intros; discriminate).
  all: intros _; eexists; apply in_or_app;
       first [right; left; reflexivity | left; apply in_or_app; right; left; reflexivity].
Qed.

(* ------------------------------------------------------------------ *)
(** ** [stream_file_complete] after a failure *)

Lemma write_none_ok {cst} `{Lz4Codec cst} d h (t : tarfile cst) :
  compression_ t = none -> fst (write d h t) = Ok tt.
Proof.
  intros Hc. unfold write, bind, get, ret, modify, file_buffered_write.
  destruct (opened t); [|reflexivity]. simpl. rewrite Hc.
  destruct (mode_ t); reflexivity.
Qed.

Lemma keeps_pos {cst} `{Lz4Codec cst} {A} (m : M cst A) t :
  keeps cfg m -> stream_file_header_pos_ (snd (m t)) = stream_file_header_pos_ t.
Proof. intros K. exact (f_equal snd (K t)). Qed.

Ltac step_cfg :=
  match goal with
  | |- context [match ?e with _ => _ end] =>
      lazymatch type of e with
      | (res _ * tarfile _)%type =>
          lazymatch e with
          | (_, _) => fail
          | ?m ?s =>
              let E := fresh "E" in
              let K := fresh "K" in
              destruct e as [[?|?] ?] eqn:E;
              pose proof (keeps_result cfg m s _ _ ltac:(solve [keeps_tac]) E) as K;
              unfold cfg in K; cbn in K; let Ec := fresh "Ec" in let Ep := fresh "Ep" in
              injection K as _ _ Ec _ _ Ep;
              try rewrite Ec in *; try rewrite Ep in *;
              try (cbv [file_tellp file_seekp bind get ret modify] in E; discriminate E)
          end
      end
  end.

Lemma stream_file_complete_none_resets {cst} `{Lz4Codec cst} pf name mode uid gid size mtime (t : tarfile cst) :
  0 <= stream_file_header_pos_ t -> compression_ t = none ->
  stream_file_header_pos_ (snd (stream_file_complete pf name mode uid gid size mtime t)) = -1.
Proof.
  intros Hp Hc.
  assert (Hp' : (stream_file_header_pos_ t <? 0) = false) by (apply Z.ltb_ge; exact Hp).
  unfold stream_file_complete, bind, get, ret, modify, throw.
  rewrite Hp'.
  destruct (negb _); cbn -[write_header file_seekp file_tellp write].
  - pose proof (write_none_ok (stream_block_ t ++ repeat 0 (512 - length (stream_block_ t))) false
                  (set_stream_block [] t) Hc) as Hw.
    step_cfg; [|simpl in Hw; congruence].
    rewrite Hc. cbn -[write_header file_seekp file_tellp write].
    repeat (step_cfg; cbn -[write_header file_seekp file_tellp write]); try reflexivity.
    all: try assumption.
    rewrite keeps_pos by keeps_tac; assumption.
  - rewrite Hc. cbn -[write_header file_seekp file_tellp write].
    repeat (step_cfg; cbn -[write_header file_seekp file_tellp write]); try reflexivity.
    all: try assumption.
    rewrite keeps_pos by keeps_tac; assumption.
Qed.

Lemma keeps_compression_of_cfg {cst} `{Lz4Codec cst} {A} (m : M cst A) :
  keeps cfg m -> keeps compression_ m.
Proof. intros K t. exact (f_equal (fun c => snd (fst (fst (fst c)))) (K t)). Qed.
#[export] Hint Resolve keeps_compression_of_cfg : keeps.

Lemma keeps_compression_stream_file_complete {cst} `{Lz4Codec cst} pf name mode uid gid size mtime :
  keeps compression_ (stream_file_complete pf name mode uid gid size mtime).
Proof. unfold stream_file_complete. keeps_tac. Qed.

Lemma stream_file_complete_none_in_progress {cst} `{Lz4Codec cst} pf name mode uid gid size mtime (t : tarfile cst) :
  stream_file_header_pos_ t < 0 ->
  stream_file_complete pf name mode uid gid size mtime t = (Err (LogicError msg_none_in_progress), t).
Proof.
  intros Hp. unfold stream_file_complete, bind, get, throw.
  apply Z.ltb_lt in Hp. rewrite Hp. reflexivity.
Qed.

Lemma close_none {cst} `{Lz4Codec cst} (t : tarfile cst) :
  opened t = true -> compression_ t = none ->
  written (snd (close t)) = written t ++ [(zero_block, false); (zero_block, false)]
  /\ opened (snd (close t)) = false.
Proof.
  destruct t as [ty mo co fn op f fp cl w sp sb si sf c b bp]; cbn; intros -> ->.
  destruct mo; cbn; rewrite <- app_assoc; split; reflexivity.
Qed.

(** A [write_header] that fails, without compression, has failed before
    its [write]: the file, its position, the mode and [opened] are as
    they were. *)
Lemma write_header_err_file {cst} `{Lz4Codec cst} pf name mode uid gid size time ft ma mi ln
    (s : tarfile cst) :
  compression_ s = none ->
  fst (write_header pf name mode uid gid size time ft ma mi ln s) <> Ok tt ->
  file_ (snd (write_header pf name mode uid gid size time ft ma mi ln s)) = file_ s
  /\ file_pos_ (snd (write_header pf name mode uid gid size time ft ma mi ln s)) = file_pos_ s
  /\ mode_ (snd (write_header pf name mode uid gid size time ft ma mi ln s)) = mode_ s
  /\ opened (snd (write_header pf name mode uid gid size time ft ma mi ln s)) = opened s.
Proof.
  intros Hc. unfold write_header, bind, get, ret, throw, lift, modify.
  cbn -[write build_header relative_path header_names bool_decide].
  repeat (case_match; cbn -[write build_header relative_path header_names bool_decide] in *;
          simplify_eq);
    try (intros _; repeat split; reflexivity).
  all: intros Hne; exfalso; apply Hne, write_none_ok; exact Hc.
Qed.

(** In a file writer without compression, a failed [stream_file_complete]
    leaves the file position at the placeholder header of the entry: the
    [file_seekp(stream_pos)] after the header is skipped. *)
Lemma stream_file_complete_err_file_pos {cst} `{Lz4Codec cst} pf name mode uid gid size time
    (t : tarfile cst) :
  0 <= stream_file_header_pos_ t -> mode_ t = file_output -> opened t = true ->
  compression_ t = none ->
  fst (stream_file_complete pf name mode uid gid size time t) <> Ok tt ->
  file_pos_ (snd (stream_file_complete pf name mode uid gid size time t))
  = Z.to_nat (stream_file_header_pos_ t)
  /\ mode_ (snd (stream_file_complete pf name mode uid gid size time t)) = file_output
  /\ opened (snd (stream_file_complete pf name mode uid gid size time t)) = true.
Proof.
  destruct t as [ty mo co fn op f fp cl w sp sb si sf c b bp]; cbn; intros Hp -> -> ->.
  assert (Hp' : (sp <? 0) = false) by (apply Z.ltb_ge; exact Hp).
  assert (Hp'' : (0 <=? sp) = true) by (apply Z.leb_le; exact Hp).
  unfold stream_file_complete, bind, get, ret, modify, throw. rewrite Hp'.
  destruct (negb _); cbn -[write_header]; rewrite ?Hp''; cbn -[write_header];
  match goal with |- context [write_header ?pf ?n ?m ?u ?g ?sz ?tm ?ft ?ma ?mi ?ln ?s] =>
    pose proof (write_header_err_file pf n m u g sz tm ft ma mi ln s eq_refl) as W;
    destruct (write_header pf n m u g sz tm ft ma mi ln s) as [[[]|e] s'] eqn:E
  end;
  cbn in W |- *;
  first
  [ intros Hne; exfalso; apply Hne; reflexivity
  | intros _; destruct (W ltac:(discriminate)) as (W1 & W2 & W3 & W4);
    rewrite W2, W3, W4; repeat split; reflexivity ].
Qed.

(** [close] of an open file writer without compression writes the two
    zero blocks at the file position. *)
Lemma close_none_file {cst} `{Lz4Codec cst} (t : tarfile cst) :
  opened t = true -> compression_ t = none -> mode_ t = file_output ->
  file_ (snd (close t))
  = write_at (write_at (file_ t) (file_pos_ t) zero_block) (file_pos_ t + 512) zero_block.
Proof.
  destruct t as [ty mo co fn op f fp cl w sp sb si sf c b bp]; cbn; intros -> -> ->.
  reflexivity.
Qed.

(* ------------------------------------------------------------------ *)
(** ** The callback blocks of [write_lz4_data] *)

(** The sizes [write_lz4_data] passes to the callback: [512] for every
    full block of its buffer, then the rest when it is not empty. *)
Lemma lz4_callback_blocks_sizes fuel buf off rem :
  (rem <= fuel)%nat ->
  map snd (lz4_callback_blocks fuel buf off rem)
  = repeat BLOCK_SIZE (rem / BLOCK_SIZE)%nat
    ++ (if (rem mod BLOCK_SIZE =? 0)%nat then [] else [(rem mod BLOCK_SIZE)%nat]).
Proof.
  revert off rem. induction fuel as [|f IH]; intros off rem Hr; cbn [lz4_callback_blocks].
  - assert (rem = 0%nat) as -> by lia. reflexivity.
  - destruct (Nat.eqb_spec rem 0) as [->|Hn]; [reflexivity|].
    cbn [map fst snd]. rewrite IH by (unfold BLOCK_SIZE in *; lia).
    unfold BLOCK_SIZE in *.
    destruct (Nat.le_gt_cases 512 rem) as [Hge|Hlt].
    + replace (Nat.min rem 512) with 512%nat by lia.
      assert (E : rem = ((rem - 512) + 1 * 512)%nat) by lia.
      assert (E1 : (rem / 512 = S ((rem - 512) / 512))%nat)
        by (rewrite E at 1; rewrite Nat.div_add by lia; lia).
      assert (E2 : (rem mod 512 = (rem - 512) mod 512)%nat)
        by (rewrite E at 1; apply Nat.Div0.mod_add).
      rewrite E1, E2. reflexivity.
    + replace (Nat.min rem 512) with rem by lia.
      replace (rem - rem)%nat with 0%nat by lia.
      rewrite (Nat.div_small rem 512), (Nat.mod_small rem 512) by lia.
      destruct (Nat.eqb_spec rem 0); [lia|]. reflexivity.
Qed.

(** [relative_path] never yields a name that starts with ['/']. *)
Lemma relative_path_no_root (s r : string) :
  relative_path s = Ok r -> forall rest, r <> String "/" rest.
Proof.
  remember (String.length s) as k eqn:Hk. revert s Hk.
  induction k as [k IH] using lt_wf_ind. intros s Hk E rest ->.
  destruct s as [|c s']; [discriminate|]. rewrite relative_path_String in E.
  destruct (String.eqb (String c s') "../"); [discriminate|].
  destruct (String.eqb (String c s') "/"); [discriminate|].
  destruct (Ascii.eqb c "/") eqn:Ec.
  { apply (IH (String.length s')) with s' rest in E; simpl in Hk; auto; lia. }
  destruct s' as [|c2 s2].
  { injection E as Hc _. subst c. discriminate Ec. }
  destruct (Ascii.eqb c "." && Ascii.eqb c2 ".").
  - apply (IH (String.length s2)) with s2 rest in E; simpl in Hk; auto; lia.
  - injection E as Hc _. subst c. discriminate Ec.
Qed.

(* ------------------------------------------------------------------ *)
(** ** Lemmas on the header fields, the name caches and the writers *)

Lemma land_low9 (m : N) (k : N) : (k < 9)%N ->
  N.testbit (N.land (N.land m permission_mask) 511) k = N.testbit m k.
Proof.
  intros Hk. rewrite !N.land_spec.
  assert (N.testbit permission_mask k = true /\ N.testbit 511 k = true) as [-> ->].
  { assert (k = 0 \/ k = 1 \/ k = 2 \/ k = 3 \/ k = 4 \/ k = 5 \/ k = 6 \/ k = 7 \/ k = 8)%N
      as Hc by lia.
    repeat destruct Hc as [->|Hc]; try (subst; split; reflexivity). }
  now rewrite !andb_true_r.
Qed.

Lemma land_low_bits (p k : N) : N.land k 511 = k -> N.land (N.land p 511) k = N.land p k.
Proof. intros Hk. rewrite <- N.land_assoc, (N.land_comm 511), Hk. reflexivity. Qed.

Lemma mode_of_perms_low (p : N) : mode_of_perms p = mode_of_perms (N.land p 511).
Proof.
  unfold mode_of_perms. rewrite !land_low_bits by reflexivity. reflexivity.
Qed.

Lemma mode_of_perms_small (n : nat) : (n < 512)%nat -> mode_of_perms (N.of_nat n) = N.of_nat n.
Proof.
  intros Hn.
  assert (Hall : forallb (fun n => N.eqb (mode_of_perms (N.of_nat n)) (N.of_nat n)) (seq 0 512) = true)
    by (vm_compute; reflexivity).
  rewrite forallb_forall in Hall. apply N.eqb_eq, Hall, in_seq. lia.
Qed.

Lemma octal_fold_acc (ds : list N) (acc : N) :
  fold_left (fun acc d => (acc * 8 + d)%N) ds acc
  = (acc * 8 ^ N.of_nat (length ds) + octal_value ds)%N.
Proof.
  unfold octal_value. revert acc; induction ds as [|d ds IH]; intros acc; simpl.
  - lia.
  - rewrite (IH (acc * 8 + d)%N), (IH (0 * 8 + d)%N).
    rewrite Nat2N.inj_succ, N.pow_succ_r'. lia.
Qed.

Lemma octal_value_app (a b : list N) :
  octal_value (a ++ b) = (octal_value a * 8 ^ N.of_nat (length b) + octal_value b)%N.
Proof. unfold octal_value at 1. rewrite fold_left_app. apply octal_fold_acc. Qed.

Lemma octal_value_lt (ds : list N) :
  Forall (fun d => (d < 8)%N) ds -> (octal_value ds < 8 ^ N.of_nat (length ds))%N.
Proof.
  induction ds as [|d ds IH]; intros Hf; [reflexivity|].
  inversion Hf as [|? ? Hd Hr]; subst.
  change (d :: ds) with ([d] ++ ds). rewrite octal_value_app.
  specialize (IH Hr). simpl length. rewrite Nat2N.inj_succ, N.pow_succ_r'.
  change (octal_value [d]) with (0 * 8 + d)%N. nia.
Qed.

Lemma octal_digits_nonempty (n : N) : octal_digits n <> [].
Proof.
  unfold octal_digits. generalize (S (N.size_nat n)) as f. intros f. revert n.
  induction f as [|f IH]; intros n; simpl; [discriminate|].
  destruct (n <? 8)%N; [discriminate|]. intros E. apply app_eq_nil in E. destruct E; discriminate.
Qed.

Lemma to_octal_ascii_digits (n : N) (w : nat) :
  Forall (fun c => 48 <= c <= 55) (to_octal_ascii n w).
Proof.
  destruct (octal_digits_value n) as [_ Hf].
  assert (Hm : Forall (fun c => 48 <= c <= 55) (map (fun d => 48 + Z.of_N d) (octal_digits n))).
  { apply Forall_map. eapply Forall_impl; [exact Hf|]. simpl. intros d Hd. lia. }
  assert (Hp : forall k, Forall (fun c => 48 <= c <= 55)
                 (repeat 48 k ++ map (fun d => 48 + Z.of_N d) (octal_digits n))).
  { intros k. apply Forall_app. split; [|exact Hm]. apply Forall_forall.
    intros x Hx. apply list_elem_of_In, repeat_spec in Hx. lia. }
  unfold to_octal_ascii. destruct (Nat.ltb _ _); [|apply Hp].
  apply Forall_drop, Hp.
Qed.

Lemma length_to_octal_ascii (value : N) (width : nat) :
  length (to_octal_ascii value width) = width.
Proof.
  destruct (octal_digits_value value) as [Hv Hf].
  unfold to_octal_ascii; set (ds := octal_digits value) in *.
  rewrite length_app, repeat_length, length_map.
  destruct (Nat.ltb_spec width (width - length ds + length ds)) as [Hc|Hc].
  - rewrite length_drop, length_app, repeat_length, length_map. lia.
  - rewrite length_app, repeat_length, length_map. lia.
Qed.

Lemma octal_read_to_octal_ascii (value : N) (width : nat) :
  octal_read (to_octal_ascii value width) = Z.of_N (value mod 8 ^ N.of_nat width).
Proof.
  destruct (octal_digits_value value) as [Hv Hf].
  pose proof (octal_value_lt _ Hf) as Hlt; rewrite Hv in Hlt.
  unfold to_octal_ascii; set (ds := octal_digits value) in *.
  rewrite length_app, repeat_length, length_map.
  destruct (Nat.ltb_spec width (width - length ds + length ds)) as [Hc|Hc].
  - replace (width - length ds)%nat with 0%nat by lia. simpl.
    rewrite skipn_map.
    rewrite <- (take_drop (length ds - width) ds) in Hv, Hf.
    rewrite octal_value_app, length_drop in Hv.
    apply Forall_app in Hf as [_ Hf].
    pose proof (octal_value_lt _ Hf) as Hl2. rewrite length_drop in Hl2.
    replace (length ds - (length ds - width))%nat with width in Hv, Hl2 by lia.
    unfold octal_read. change 0 with (Z.of_N 0). rewrite octal_read_ascii.
    fold (octal_value (drop (length ds - width) ds)). f_equal.
    rewrite <- Hv, N.add_comm, N.Div0.mod_add, N.mod_small by exact Hl2. reflexivity.
  - rewrite octal_read_zeros. unfold octal_read.
    change 0 with (Z.of_N 0). rewrite octal_read_ascii. fold (octal_value ds).
    rewrite Hv, N.mod_small; [reflexivity|].
    eapply N.lt_le_trans; [exact Hlt|]. apply N.pow_le_mono_r; lia.
Qed.

Lemma lookup_field (l : list Z) (q m i : nat) :
  field l q m !! i = if (i <? m)%nat then l !! (q + i)%nat else None.
Proof.
  unfold field. destruct (Nat.ltb_spec i m).
  - rewrite lookup_take_lt by lia. apply lookup_drop.
  - apply lookup_take_ge. lia.
Qed.

Lemma field_congr (l1 l2 : list Z) (q m : nat) :
  (forall j, (q <= j < q + m)%nat -> l1 !! j = l2 !! j) -> field l1 q m = field l2 q m.
Proof.
  intros Hj. apply list_eq. intros i. rewrite !lookup_field.
  destruct (Nat.ltb_spec i m); [apply Hj; lia | reflexivity].
Qed.

Lemma lookup_overwrite_out (b src : list Z) (p j : nat) :
  (p + length src <= length b)%nat -> (j < p \/ p + length src <= j)%nat ->
  overwrite b p src !! j = b !! j.
Proof.
  intros Hb Hj. unfold overwrite. destruct Hj as [Hj|Hj].
  - rewrite lookup_app_l by (rewrite length_take; lia). apply lookup_take_lt. lia.
  - rewrite lookup_app_r by (rewrite length_take; lia).
    rewrite lookup_app_r by (rewrite length_take; lia).
    rewrite lookup_drop, length_take. f_equal. lia.
Qed.

Lemma lookup_wib_str_out (b s : list Z) (p l j : nat) :
  (p + l <= length b)%nat -> (j < p \/ p + l <= j)%nat ->
  write_into_block_str b s p l !! j = b !! j.
Proof.
  intros Hb Hj. unfold write_into_block_str. apply lookup_overwrite_out;
  rewrite length_take; lia.
Qed.

Lemma field_overwrite_same (b src : list Z) (p : nat) :
  (p + length src <= length b)%nat -> field (overwrite b p src) p (length src) = src.
Proof.
  intros Hb. unfold field, overwrite.
  rewrite drop_app_ge by (rewrite length_take; lia).
  rewrite length_take, Nat.min_l, Nat.sub_diag, drop_0 by lia.
  rewrite take_app_le by lia. apply take_ge. lia.
Qed.

Lemma field_wib_num_same (b : list Z) (v : N) (p l : nat) :
  (p + l <= length b)%nat -> field (write_into_block_num b v p l) p l = to_octal_ascii v l.
Proof.
  intros Hb. pose proof (length_to_octal_ascii v l) as Hl.
  unfold write_into_block_num, write_into_block_str.
  rewrite Hl, Nat.min_id, take_ge by lia.
  rewrite <- Hl at 2. apply field_overwrite_same. lia.
Qed.

Lemma lookup_write_name_and_prefix_out (type : tar_type) (b name : list Z) (j : nat) :
  length b = 512%nat -> (100 <= j < 345)%nat ->
  write_name_and_prefix type b name !! j = b !! j.
Proof.
  intros Hb Hj. unfold write_name_and_prefix.
  unfold UNIX_V7_USTAR_HEADER_POS_NAME, UNIX_V7_USTAR_HEADER_LEN_NAME, USTAR_HEADER_POS_PREFIX,
    USTAR_HEADER_LEN_PREFIX.
  repeat match goal with
         | |- context [if ?c then _ else _] => destruct c
         | |- context [match ?o with Some _ => _ | None => _ end] => destruct o
         end;
  repeat (rewrite lookup_wib_str_out; [| rewrite ?length_write_into_block_str; lia | lia]);
  reflexivity.
Qed.

Lemma lookup_checksum_low (b : list Z) (j : nat) :
  length b = 512%nat -> (j < 148)%nat -> calc_and_write_checksum b !! j = b !! j.
Proof.
  intros Hb Hj. destruct (calc_and_write_checksum_shape b Hb) as [-> _].
  rewrite lookup_app_l by (rewrite length_take; lia). apply lookup_take_lt. lia.
Qed.

Ltac header_len_eq :=
  repeat first [ apply len_wib_num | apply len_wib_str | apply length_write_name_and_prefix
               | reflexivity ];
  unfold UNIX_V7_USTAR_HEADER_POS_MODE, UNIX_V7_USTAR_HEADER_LEN_MODE,
    UNIX_V7_USTAR_HEADER_POS_UID, UNIX_V7_USTAR_HEADER_LEN_UID,
    UNIX_V7_USTAR_HEADER_POS_GID, UNIX_V7_USTAR_HEADER_LEN_GID,
    UNIX_V7_USTAR_HEADER_POS_SIZE, UNIX_V7_USTAR_HEADER_LEN_SIZE,
    UNIX_V7_USTAR_HEADER_POS_MTIM, UNIX_V7_USTAR_HEADER_LEN_MTIM,
    UNIX_V7_USTAR_HEADER_POS_TYPEFLAG, UNIX_V7_USTAR_HEADER_LEN_TYPEFLAG,
    UNIX_V7_USTAR_HEADER_POS_LINKNAME, UNIX_V7_USTAR_HEADER_LEN_LINKNAME,
    USTAR_HEADER_POS_MAGIC, USTAR_HEADER_LEN_MAGIC, USTAR_HEADER_POS_UNAME, USTAR_HEADER_LEN_UNAME,
    USTAR_HEADER_POS_GNAME, USTAR_HEADER_LEN_GNAME, USTAR_HEADER_POS_DEVMAJOR,
    USTAR_HEADER_LEN_DEVMAJOR, USTAR_HEADER_POS_DEVMINOR, USTAR_HEADER_LEN_DEVMINOR; lia.

Ltac header_len :=
  match goal with
  | |- (_ <= length ?b)%nat =>
      let E := fresh "E" in assert (E : length b = 512%nat) by header_len_eq; rewrite E; lia
  | |- length _ = _ => header_len_eq
  end.

Lemma lookup_wib_num_out (b : list Z) (v : N) (p l j : nat) :
  (p + l <= length b)%nat -> (j < p \/ p + l <= j)%nat ->
  write_into_block_num b v p l !! j = b !! j.
Proof. apply lookup_wib_str_out. Qed.

Ltac peel_header :=
  repeat first
    [ rewrite lookup_checksum_low; [| header_len | lia]
    | rewrite lookup_wib_str_out; [| header_len | lia]
    | rewrite lookup_wib_num_out; [| header_len | lia]
    | rewrite lookup_write_name_and_prefix_out; [| header_len | lia] ].

Lemma build_header_low un gn type mode uid gid size time ft ma mi sn ln sl (j : nat) :
  (100 <= j < 148)%nat ->
  build_header un gn type mode uid gid size time ft ma mi sn ln sl !! j
  = numeric_stage mode uid gid size time !! j.
Proof.
  intros Hj. unfold build_header.
  rewrite lookup_checksum_low by (apply length_header_fields || lia).
  unfold header_fields, UNIX_V7_USTAR_HEADER_POS_MODE, UNIX_V7_USTAR_HEADER_LEN_MODE,
    UNIX_V7_USTAR_HEADER_POS_UID, UNIX_V7_USTAR_HEADER_LEN_UID,
    UNIX_V7_USTAR_HEADER_POS_GID, UNIX_V7_USTAR_HEADER_LEN_GID,
    UNIX_V7_USTAR_HEADER_POS_SIZE, UNIX_V7_USTAR_HEADER_LEN_SIZE,
    UNIX_V7_USTAR_HEADER_POS_MTIM, UNIX_V7_USTAR_HEADER_LEN_MTIM,
    UNIX_V7_USTAR_HEADER_POS_TYPEFLAG, UNIX_V7_USTAR_HEADER_LEN_TYPEFLAG,
    UNIX_V7_USTAR_HEADER_POS_LINKNAME, UNIX_V7_USTAR_HEADER_LEN_LINKNAME,
    USTAR_HEADER_POS_MAGIC, USTAR_HEADER_LEN_MAGIC, USTAR_HEADER_POS_UNAME, USTAR_HEADER_LEN_UNAME,
    USTAR_HEADER_POS_GNAME, USTAR_HEADER_LEN_GNAME, USTAR_HEADER_POS_DEVMAJOR,
    USTAR_HEADER_LEN_DEVMAJOR, USTAR_HEADER_POS_DEVMINOR, USTAR_HEADER_LEN_DEVMINOR.
  destruct type, (String.eqb ln ""); peel_header; reflexivity.
Qed.

Lemma field_wib_num_out (b : list Z) (v : N) (p l q m : nat) :
  (p + l <= length b)%nat -> (q + m <= p \/ p + l <= q)%nat ->
  field (write_into_block_num b v p l) q m = field b q m.
Proof.
  intros Hb Hd. apply field_congr. intros j Hj. apply lookup_wib_num_out; lia.
Qed.

Lemma build_header_field_low un gn type mode uid gid size time ft ma mi sn ln sl (q m : nat) :
  (100 <= q)%nat -> (q + m <= 148)%nat ->
  field (build_header un gn type mode uid gid size time ft ma mi sn ln sl) q m
  = field (numeric_stage mode uid gid size time) q m.
Proof.
  intros Hq Hm. apply field_congr. intros j Hj. apply build_header_low. lia.
Qed.

Lemma rfind_aux_spec (c : Z) (l : list Z) (i : nat) (acc : option nat) (k : nat) :
  rfind_aux c l i acc = Some k ->
  acc = Some k \/ ((i <= k < i + length l)%nat /\ l !! (k - i)%nat = Some c).
Proof.
  revert i acc; induction l as [|x l IH]; intros i acc E; simpl in E; [now left|].
  apply IH in E as [E|[Hk Hl]].
  - destruct (Z.eqb_spec x c) as [->|]; [|now left].
    injection E as <-. right. simpl. rewrite Nat.sub_diag. split; [lia | reflexivity].
  - right. simpl. split; [lia|].
    replace (k - i)%nat with (S (k - S i)) by lia. exact Hl.
Qed.

Lemma rfind_spec (c : Z) (l : list Z) (k : nat) :
  rfind c l = Some k -> (k < length l)%nat /\ l !! k = Some c.
Proof.
  intros E. apply rfind_aux_spec in E as [E|[Hk Hl]]; [discriminate|].
  rewrite Nat.sub_0_r in Hl. split; [lia | exact Hl].
Qed.

Lemma lookup_repeat_lt {A} (x : A) (n i : nat) : (i < n)%nat -> repeat x n !! i = Some x.
Proof.
  revert i; induction n as [|n IH]; intros i Hi; [lia|].
  destruct i as [|i]; [reflexivity|]. apply IH. lia.
Qed.

Lemma field_zero (b : list Z) (p l : nat) :
  (forall j, (p <= j < p + l)%nat -> b !! j = Some 0) -> field b p l = repeat 0 l.
Proof.
  intros Hz. apply list_eq. intros i. rewrite lookup_field.
  destruct (Nat.ltb_spec i l).
  - rewrite Hz by lia. symmetry. apply lookup_repeat_lt. lia.
  - symmetry. apply lookup_ge_None. rewrite repeat_length. lia.
Qed.

(** A field filled by [write_into_block_str] in a zeroed region. *)
Lemma field_wib_str_zero (b s : list Z) (p l : nat) :
  (p + l <= length b)%nat -> (forall j, (p <= j < p + l)%nat -> b !! j = Some 0) ->
  field (write_into_block_str b s p l) p l = take l s ++ repeat 0 (l - length (take l s)).
Proof.
  intros Hb Hz. unfold write_into_block_str.
  replace (take (Nat.min (length s) l) s) with (take l s)
    by (destruct (Nat.le_ge_cases (length s) l);
        [rewrite Nat.min_l, !take_ge by lia | rewrite Nat.min_r by lia]; reflexivity).
  apply list_eq. intros i. rewrite lookup_field.
  destruct (Nat.ltb_spec i (length (take l s))) as [Hi|Hi].
  - rewrite length_take in Hi.
    rewrite (proj2 (Nat.ltb_lt i l)) by lia.
    unfold overwrite. rewrite lookup_app_r by (rewrite length_take; lia).
    rewrite length_take, Nat.min_l by lia. rewrite lookup_app_l by (rewrite length_take; lia).
    rewrite lookup_app_l by (rewrite length_take; lia). f_equal. lia.
  - destruct (Nat.ltb_spec i l).
    + rewrite lookup_overwrite_out; [| rewrite length_take in *; lia | lia].
      rewrite Hz by lia. rewrite lookup_app_r by lia. symmetry. apply lookup_repeat_lt.
      rewrite length_take in *. lia.
    + symmetry. apply lookup_ge_None. rewrite length_app, repeat_length, length_take in *. lia.
Qed.

Lemma rfind_aux_some (c : Z) (l : list Z) (i a : nat) : rfind_aux c l i (Some a) <> None.
Proof.
  revert i a; induction l as [|x l IH]; intros i a; simpl; [discriminate|].
  destruct (Z.eqb x c); apply IH.
Qed.

Lemma rfind_aux_found (c : Z) (l : list Z) (i k : nat) acc :
  l !! k = Some c -> rfind_aux c l i acc <> None.
Proof.
  revert i k acc; induction l as [|x l IH]; intros i k acc Hk; [discriminate|].
  destruct k as [|k]; simpl.
  - injection Hk as ->. rewrite Z.eqb_refl. apply rfind_aux_some.
  - apply (IH _ k). exact Hk.
Qed.

Lemma write_name_and_prefix_v7_fields (type : tar_type) (b name : list Z) :
  length b = 512%nat -> name_region_zero b ->
  (type = unix_v7 \/ (length name <= 100)%nat \/ rfind path_separator (take 155 name) = None) ->
  field (write_name_and_prefix type b name) 0 100 = take 100 name ++ repeat 0 (100 - length (take 100 name))
  /\ field (write_name_and_prefix type b name) 345 155 = repeat 0 155.
Proof.
  intros Hb Hz Hc.
  assert (Hv7 : field (write_into_block_str b name 0 100) 0 100
                = take 100 name ++ repeat 0 (100 - length (take 100 name))
                /\ field (write_into_block_str b name 0 100) 345 155 = repeat 0 155).
  { split.
    - apply field_wib_str_zero; [lia|]. intros j Hj. apply Hz. lia.
    - rewrite <- (field_zero b 345 155) by (intros j Hj; apply Hz; lia).
      apply field_congr. intros j Hj. apply lookup_wib_str_out; lia. }
  unfold write_name_and_prefix, UNIX_V7_USTAR_HEADER_POS_NAME, UNIX_V7_USTAR_HEADER_LEN_NAME,
    USTAR_HEADER_LEN_PREFIX.
  destruct (Nat.leb_spec (length name) 100) as [Hl|Hl]; [exact Hv7|].
  destruct type; [exact Hv7|]. simpl.
  destruct (rfind path_separator name); [|exact Hv7].
  destruct Hc as [Hc|[Hc|Hc]]; [discriminate | lia |]. rewrite Hc. exact Hv7.
Qed.

Lemma write_name_and_prefix_split_fields (b name : list Z) (k : nat) :
  length b = 512%nat -> name_region_zero b ->
  (100 < length name)%nat -> rfind path_separator (take 155 name) = Some k ->
  field (write_name_and_prefix ustar b name) 345 155 = take k name ++ repeat 0 (155 - k)
  /\ field (write_name_and_prefix ustar b name) 0 100
     = take 100 (drop (S k) name) ++ repeat 0 (100 - length (take 100 (drop (S k) name)))
  /\ name = take k name ++ [path_separator] ++ drop (S k) name.
Proof.
  intros Hb Hz Hl Hk.
  destruct (rfind_spec _ _ _ Hk) as [Hk1 Hk2].
  rewrite length_take in Hk1. rewrite lookup_take_lt in Hk2 by lia.
  assert (Hsplit : name = take k name ++ [path_separator] ++ drop (S k) name).
  { rewrite <- (take_drop k name) at 1. f_equal.
    erewrite drop_S by exact Hk2. reflexivity. }
  unfold write_name_and_prefix, UNIX_V7_USTAR_HEADER_POS_NAME, UNIX_V7_USTAR_HEADER_LEN_NAME,
    USTAR_HEADER_LEN_PREFIX, USTAR_HEADER_POS_PREFIX.
  destruct (Nat.leb_spec (length name) 100) as [Hl'|_]; [lia|]. simpl.
  destruct (rfind path_separator name) eqn:Ew.
  2: { exfalso. eapply rfind_aux_found; [exact Hk2 | exact Ew]. }
  rewrite Hk.
  set (b1 := write_into_block_str b (take k name) 345 155).
  assert (Hb1 : length b1 = 512%nat) by (apply len_wib_str; lia).
  split; [|split; [|exact Hsplit]].
  - transitivity (field b1 345 155).
    { apply field_congr. intros j Hj. apply lookup_wib_str_out; lia. }
    unfold b1. rewrite field_wib_str_zero; [| lia | intros j Hj; apply Hz; lia].
    rewrite take_take, Nat.min_r, length_take, Nat.min_l by lia. reflexivity.
  - apply field_wib_str_zero; [lia|]. intros j Hj. unfold b1.
    rewrite lookup_wib_str_out by lia. apply Hz. lia.
Qed.

Lemma lookup_checksum_high (b : list Z) (j : nat) :
  length b = 512%nat -> (156 <= j)%nat -> calc_and_write_checksum b !! j = b !! j.
Proof.
  intros Hb Hj. destruct (calc_and_write_checksum_shape b Hb) as [-> _].
  assert (Ht : length (take 148 b) = 148%nat) by (rewrite length_take; lia).
  rewrite lookup_app_r by lia. rewrite Ht.
  rewrite lookup_app_r by (rewrite length_to_octal_ascii; lia). rewrite length_to_octal_ascii.
  rewrite lookup_app_r by (simpl; lia). rewrite lookup_drop. simpl. f_equal. lia.
Qed.

Lemma build_header_name_region un gn type mode uid gid size time ft ma mi sn ln sl (j : nat) :
  (j < 100 \/ 345 <= j < 500)%nat ->
  build_header un gn type mode uid gid size time ft ma mi sn ln sl !! j
  = write_name_and_prefix type (type_stage mode uid gid size time ft) (bytes_of sn) !! j.
Proof.
  intros Hj. unfold build_header.
  destruct Hj as [Hj|Hj];
  [rewrite lookup_checksum_low by (apply length_header_fields || lia)
  |rewrite lookup_checksum_high by (apply length_header_fields || lia)];
  unfold header_fields, UNIX_V7_USTAR_HEADER_POS_MODE, UNIX_V7_USTAR_HEADER_LEN_MODE,
    UNIX_V7_USTAR_HEADER_POS_UID, UNIX_V7_USTAR_HEADER_LEN_UID,
    UNIX_V7_USTAR_HEADER_POS_GID, UNIX_V7_USTAR_HEADER_LEN_GID,
    UNIX_V7_USTAR_HEADER_POS_SIZE, UNIX_V7_USTAR_HEADER_LEN_SIZE,
    UNIX_V7_USTAR_HEADER_POS_MTIM, UNIX_V7_USTAR_HEADER_LEN_MTIM,
    UNIX_V7_USTAR_HEADER_POS_TYPEFLAG, UNIX_V7_USTAR_HEADER_LEN_TYPEFLAG,
    UNIX_V7_USTAR_HEADER_POS_LINKNAME, UNIX_V7_USTAR_HEADER_LEN_LINKNAME,
    USTAR_HEADER_POS_MAGIC, USTAR_HEADER_LEN_MAGIC, USTAR_HEADER_POS_UNAME, USTAR_HEADER_LEN_UNAME,
    USTAR_HEADER_POS_GNAME, USTAR_HEADER_LEN_GNAME, USTAR_HEADER_POS_DEVMAJOR,
    USTAR_HEADER_LEN_DEVMAJOR, USTAR_HEADER_POS_DEVMINOR, USTAR_HEADER_LEN_DEVMINOR;
  destruct type, (String.eqb ln ""); peel_header; reflexivity.
Qed.

Lemma type_stage_zero mode uid gid size time ft :
  length (type_stage mode uid gid size time ft) = 512%nat
  /\ name_region_zero (type_stage mode uid gid size time ft).
Proof.
  split; [unfold type_stage, numeric_stage; header_len|].
  intros j Hj. unfold type_stage, numeric_stage.
  repeat (rewrite lookup_wib_num_out; [| header_len | lia]).
  apply lookup_repeat_lt. unfold BLOCK_SIZE. lia.
Qed.

Lemma build_header_field_name un gn type mode uid gid size time ft ma mi sn ln sl (q m : nat) :
  (q + m <= 100 \/ 345 <= q /\ q + m <= 500)%nat ->
  field (build_header un gn type mode uid gid size time ft ma mi sn ln sl) q m
  = field (write_name_and_prefix type (type_stage mode uid gid size time ft) (bytes_of sn)) q m.
Proof.
  intros Hq. apply field_congr. intros j Hj. apply build_header_name_region. lia.
Qed.

Lemma relative_path_no_dotdot (s r : string) :
  relative_path s = Ok r -> forall rest, r <> String "." (String "." rest).
Proof.
  remember (String.length s) as k eqn:Hk. revert s Hk.
  induction k as [k IH] using lt_wf_ind. intros s Hk E rest ->.
  destruct s as [|c s']; [discriminate|]. rewrite relative_path_String in E.
  destruct (String.eqb (String c s') "../"); [discriminate|].
  destruct (String.eqb (String c s') "/"); [discriminate|].
  destruct (Ascii.eqb c "/") eqn:Ec.
  { apply (IH (String.length s')) with s' rest in E; simpl in Hk; auto; lia. }
  destruct s' as [|c2 s2]; [discriminate|].
  destruct (Ascii.eqb c "." && Ascii.eqb c2 ".") eqn:Ed.
  - apply (IH (String.length s2)) with s2 rest in E; simpl in Hk; auto; lia.
  - injection E as -> -> _. discriminate Ed.
Qed.

Lemma relative_path_fixed (r : string) :
  (forall rest, r <> String "/" rest) -> (forall rest, r <> String "." (String "." rest)) ->
  relative_path r = Ok r.
Proof.
  intros H1 H2. destruct r as [|c rest]; [reflexivity|].
  rewrite relative_path_String.
  destruct (String.eqb_spec (String c rest) "../") as [E|_].
  { exfalso. apply (H2 "/"%string). exact E. }
  destruct (String.eqb_spec (String c rest) "/") as [E|_].
  { exfalso. apply (H1 ""%string). exact E. }
  destruct (Ascii.eqb_spec c "/") as [->|_]; [exfalso; exact (H1 rest eq_refl)|].
  destruct rest as [|c2 rest2]; [reflexivity|].
  destruct (Ascii.eqb_spec c ".") as [->|]; [|reflexivity].
  destruct (Ascii.eqb_spec c2 ".") as [->|]; [|reflexivity].
  exfalso. exact (H2 rest2 eq_refl).
Qed.

Lemma decimal_digits_fuel_value (f : nat) (n : N) :
  (n < 10 ^ N.of_nat f)%N ->
  decimal_value (decimal_digits_fuel f n) = n
  /\ Forall (fun d => (d < 10)%N) (decimal_digits_fuel f n).
Proof.
  revert n; induction f as [|f IH]; intros n Hn; simpl.
  - simpl in Hn. assert (n = 0%N) by lia. subst. split; [reflexivity | repeat constructor].
  - destruct (N.ltb_spec n 10) as [Hlt|Hge].
    + split; [reflexivity | repeat constructor; lia].
    + assert (Hq : (n / 10 < 10 ^ N.of_nat f)%N).
      { apply N.Div0.div_lt_upper_bound. rewrite Nat2N.inj_succ, N.pow_succ_r' in Hn. lia. }
      destruct (IH _ Hq) as [Hv Hd]. split.
      * unfold decimal_value in *. rewrite fold_left_app. simpl. rewrite Hv.
        pose proof (N.Div0.div_mod n 10). lia.
      * apply Forall_app. split; [exact Hd | repeat constructor]. apply N.mod_lt. lia.
Qed.

Lemma N_lt_pow10_size_nat (n : N) : (n < 10 ^ N.of_nat (S (N.size_nat n)))%N.
Proof.
  eapply N.lt_le_trans; [apply N_lt_pow8_size_nat|].
  apply N.pow_le_mono_l. lia.
Qed.

Lemma decimal_read_ascii (ds : list N) (acc : N) :
  Forall (fun d => (d < 10)%N) ds ->
  fold_left (fun acc a => (acc * 10 + (N_of_ascii a - 48))%N)
    (map (fun d => ascii_of_N (48 + d)) ds) acc
  = fold_left (fun acc d => (acc * 10 + d)%N) ds acc.
Proof.
  revert acc; induction ds as [|d ds IH]; intros acc Hf; simpl; [reflexivity|].
  inversion Hf as [|? ? Hd Hr]; subst.
  rewrite N_ascii_embedding by lia. rewrite <- IH by exact Hr. f_equal. lia.
Qed.

Lemma to_string_read (n : N) :
  decimal_read (to_string n) = n
  /\ Forall (fun a => (48 <= N_of_ascii a <= 57)%N) (list_ascii_of_string (to_string n)).
Proof.
  destruct (decimal_digits_fuel_value _ n (N_lt_pow10_size_nat n)) as [Hv Hf].
  fold (decimal_digits n) in Hv, Hf.
  unfold decimal_read, to_string. rewrite list_ascii_of_string_of_list_ascii.
  split.
  - rewrite decimal_read_ascii by exact Hf. exact Hv.
  - apply Forall_map. eapply Forall_impl; [exact Hf|]. simpl. intros d Hd.
    rewrite N_ascii_embedding by lia. lia.
Qed.

Lemma throw_exception_ok (code : Z) :
  tolerated code <-> throw_exception_getpwd_getgrgid_on_error code = Ok tt.
Proof.
  unfold throw_exception_getpwd_getgrgid_on_error, tolerated, ENOENT, ESRCH, EBADF, EPERM.
  split.
  - intros H. destruct H as [->|[->|[->|[->| ->]]]]; reflexivity.
  - destruct (Z.eqb_spec code 0); [auto|]. destruct (Z.eqb_spec code 2); [auto|].
    destruct (Z.eqb_spec code 3); [auto|]. destruct (Z.eqb_spec code 9); [auto|].
    destruct (Z.eqb_spec code 1); [auto|]. discriminate.
Qed.

Lemma throw_exception_err (code : Z) :
  ~ tolerated code -> throw_exception_getpwd_getgrgid_on_error code = Err SystemError.
Proof.
  intros Hn. unfold throw_exception_getpwd_getgrgid_on_error.
  destruct (_ || _) eqn:E; [|reflexivity].
  exfalso. apply Hn, throw_exception_ok. unfold throw_exception_getpwd_getgrgid_on_error.
  now rewrite E.
Qed.

Lemma dynamic_size_loop_padded (f : nat) (input : list Z) (good : bool) (p : N) :
  (good = false -> input = []) -> (length input <= f * BLOCK_SIZE)%nat ->
  dynamic_size_loop f input good p = (padded_blocks f input, (p + N.of_nat (length input))%N).
Proof.
  revert input good p; induction f as [|f IH]; intros input good p Hg Hl.
  { destruct input; [simpl; f_equal; lia | simpl in Hl; lia]. }
  destruct good.
  2: { rewrite Hg by reflexivity. simpl. f_equal. lia. }
  destruct input as [|x r]; [simpl; f_equal; lia|].
  cbn [dynamic_size_loop padded_blocks].
  set (l := x :: r) in *.
  assert (Hc : length (take BLOCK_SIZE l) <> 0%nat) by (rewrite length_take; unfold l, BLOCK_SIZE; simpl; lia).
  destruct (Nat.eqb_spec (length (take BLOCK_SIZE l)) 0) as [|_]; [contradiction|].
  rewrite IH.
  - f_equal. rewrite length_drop, length_take. unfold BLOCK_SIZE in *. lia.
  - intros Hf. apply Nat.eqb_neq in Hf. rewrite length_take in Hf.
    apply drop_ge. unfold BLOCK_SIZE in *. lia.
  - rewrite length_drop. unfold BLOCK_SIZE in *. lia.
Qed.

Lemma padded_blocks_shape (f : nat) (l : list Z) :
  (length l <= f * BLOCK_SIZE)%nat ->
  Forall (fun b => length b = BLOCK_SIZE) (padded_blocks f l)
  /\ exists k, concat (padded_blocks f l) = l ++ repeat 0 k /\ (k < BLOCK_SIZE)%nat
               /\ length (padded_blocks f l) = ((length l + 511) / 512)%nat.
Proof.
  revert l; induction f as [|f IH]; intros l Hl.
  { destruct l; [|simpl in Hl; lia]. split; [constructor|].
    exists 0%nat; split; [reflexivity | split; [unfold BLOCK_SIZE; lia | reflexivity]]. }
  destruct l as [|x r].
  { split; [constructor|].
    exists 0%nat; destruct f; (split; [reflexivity | split; [unfold BLOCK_SIZE; lia | reflexivity]]). }
  cbn [padded_blocks]. set (l := x :: r) in *.
  destruct (IH (drop BLOCK_SIZE l)) as [Hf [k [Hk1 [Hk2 Hk3]]]];
    [rewrite length_drop; unfold BLOCK_SIZE in *; lia|].
  split.
  - constructor; [|exact Hf]. rewrite length_app, repeat_length, length_take. unfold BLOCK_SIZE. lia.
  - destruct (Nat.leb_spec (length l) BLOCK_SIZE) as [Hs|Hs].
    + assert (Hd : ((length l + 511) / 512 = 1)%nat)
        by (symmetry; apply Nat.div_unique with (length l - 1)%nat; unfold l, BLOCK_SIZE in *;
            simpl length in *; lia).
      rewrite (drop_ge l) by exact Hs.
      replace (padded_blocks f []) with (@nil (list Z)) by (destruct f; reflexivity).
      exists (BLOCK_SIZE - length l)%nat. rewrite (take_ge l) by exact Hs.
      cbn [concat length]. rewrite app_nil_r. split; [reflexivity|].
      split; [unfold l, BLOCK_SIZE in *; simpl length in *; lia | rewrite Hd; reflexivity].
    + exists k. cbn [concat length]. rewrite Hk1.
      rewrite length_take, Nat.min_l, Nat.sub_diag by lia. cbn [repeat]. rewrite app_nil_r.
      rewrite app_assoc, take_drop. split; [reflexivity|]. split; [exact Hk2|].
      rewrite Hk3, length_drop. unfold BLOCK_SIZE in *.
      replace (length l + 511)%nat with ((length l - 512 + 511) + 1 * 512)%nat by lia.
      rewrite Nat.div_add by lia. lia.
Qed.

Lemma dynamic_size_blocks_shape (input : list Z) :
  let (blocks, processed) := dynamic_size_blocks input in
  blocks = padded_blocks (length input) input
  /\ processed = N.of_nat (length input)
  /\ Forall (fun b => length b = BLOCK_SIZE) blocks
  /\ exists k, concat blocks = input ++ repeat 0 k /\ (k < BLOCK_SIZE)%nat
               /\ length blocks = ((length input + 511) / 512)%nat.
Proof.
  unfold dynamic_size_blocks.
  rewrite dynamic_size_loop_padded by (discriminate || (unfold BLOCK_SIZE; lia)).
  rewrite (padded_blocks_fuel (S (length input)) (length input)) by lia.
  destruct (padded_blocks_shape (length input) input) as [Hf Hk]; [unfold BLOCK_SIZE; lia|].
  split; [reflexivity|]. split; [lia|]. split; assumption.
Qed.

Section NoneWrites.

Context {cst : Type} `{Lz4Codec cst}.

Lemma write_none_open (d : list Z) (h : bool) (t : tarfile cst) :
  opened t = true -> compression_ t = none ->
  fst (write d h t) = Ok tt
  /\ written (snd (write d h t)) = written t ++ [(d, h)]
  /\ opened (snd (write d h t)) = true
  /\ compression_ (snd (write d h t)) = none
  /\ stream_block_ (snd (write d h t)) = stream_block_ t
  /\ stream_file_header_pos_ (snd (write d h t)) = stream_file_header_pos_ t.
Proof.
  destruct t as [ty mo co fn op f fp cl w sp sb si sf c b bp]; cbn; intros -> ->.
  unfold write, bind, get, ret, modify, file_buffered_write; cbn.
  destruct mo; cbn; repeat split.
Qed.

Lemma write_blocks_none_open (bs : list (list Z)) (t : tarfile cst) :
  opened t = true -> compression_ t = none ->
  fst (write_blocks bs t) = Ok tt
  /\ written (snd (write_blocks bs t)) = written t ++ map (fun b => (b, false)) bs
  /\ opened (snd (write_blocks bs t)) = true
  /\ compression_ (snd (write_blocks bs t)) = none
  /\ stream_block_ (snd (write_blocks bs t)) = stream_block_ t
  /\ stream_file_header_pos_ (snd (write_blocks bs t)) = stream_file_header_pos_ t.
Proof.
  revert t; induction bs as [|b bs IH]; intros t Ho Hc.
  { unfold write_blocks, ret; cbn [fst snd map]. rewrite app_nil_r. repeat split; assumption. }
  cbn [write_blocks]. unfold bind.
  destruct (write_none_open b false t Ho Hc) as (W1 & W2 & W3 & W4 & W5 & W6).
  destruct (write b false t) as [r1 t1] eqn:E. cbn [fst snd] in *. subst r1. cbv beta iota.
  destruct (IH t1 W3 W4) as (I1 & I2 & I3 & I4 & I5 & I6).
  rewrite I2, W2, <- app_assoc. split; [exact I1|]. split; [reflexivity|].
  split; [exact I3|]. split; [exact I4|]. split; congruence.
Qed.

End NoneWrites.

Lemma full_blocks_spec (f : nat) (data : list Z) :
  (length data / BLOCK_SIZE <= f)%nat ->
  let (bs, rest) := full_blocks f data in
  concat bs ++ rest = data /\ Forall (fun b => length b = BLOCK_SIZE) bs
  /\ (length rest < BLOCK_SIZE)%nat.
Proof.
  revert data; induction f as [|f IH]; intros data Hf.
  - simpl. split; [reflexivity|]. split; [constructor|].
    destruct (Nat.ltb_spec (length data) BLOCK_SIZE); [assumption|].
    exfalso. assert (1 <= length data / BLOCK_SIZE)%nat; [|lia].
    apply Nat.div_le_lower_bound; unfold BLOCK_SIZE in *; lia.
  - cbn [full_blocks]. destruct (Nat.leb_spec BLOCK_SIZE (length data)) as [Hl|Hl].
    + specialize (IH (drop BLOCK_SIZE data)).
      destruct (full_blocks f (drop BLOCK_SIZE data)) as [bs rest].
      destruct IH as (I1 & I2 & I3).
      { rewrite length_drop. unfold BLOCK_SIZE in *.
        replace (length data) with ((length data - 512) + 1 * 512)%nat in Hf by lia.
        rewrite Nat.div_add in Hf by lia. lia. }
      cbn [concat]. rewrite <- app_assoc, I1, take_drop.
      split; [reflexivity|]. split; [|exact I3].
      constructor; [rewrite length_take; lia | exact I2].
    + split; [reflexivity|]. split; [constructor | exact Hl].
Qed.

(* ================================================================== *)
(** * The properties of the specification *)

(** C2: every header block [write_header] emits ([build_header], for any
    fields) is 512 bytes long, and the unsigned sum of its bytes with
    [148..155] replaced by eight spaces equals the six-digit octal number
    at [148..153], as specified; but byte 154 is a space (0x20) and byte
    155 is NUL (0x00), the reverse of the specified order:
    [calc_and_write_checksum] clears [block[POS_CHECKSUM + LEN_CHKSUM - 1]],
    byte 155, where the earlier copies of the function clear [block[154]]. *)
Theorem build_header_checksum un gn type mode uid gid size time ft ma mi sn ln sl :
  let H := build_header un gn type mode uid gid size time ft ma mi sn ln sl in
  length H = 512%nat
  /\ unsigned_sum (overwrite H 148 (repeat 32 8)) = octal_read (field H 148 6)
  /\ nth 154 H 0 = 32 /\ nth 155 H 0 = 0.
Proof.
  apply calc_and_write_checksum_valid, length_header_fields.
Qed.

(** C2, the failing input: the header of the file [a] in a ustar archive
    has byte 154 = 0x20 and byte 155 = 0x00, not 0x00 and 0x20. *)
Lemma build_header_terminator_order :
  let H := build_header "user" "group" ustar 420 1000 1000 10 1700000000 REGULAR_FILE 0 0
             "a" "" "" in
  ~ (nth 154 H 0 = 0 /\ nth 155 H 0 = 32).
Proof. vm_compute. intros [Hc _]. discriminate Hc. Qed.

(** The two other cases of the size check: a source of 100 bytes declared
    with 1024 gets three data blocks (not two), and a source of 600 bytes
    declared with 13 gets one block whose first 499 bytes are source bytes. *)
Example const_size_blocks_shrunk : length (const_size_blocks (repeat 1 100) 1024) = 3%nat.
Proof. vm_compute. reflexivity. Qed.

Example const_size_blocks_grown :
  const_size_blocks (repeat 1 600) 13 = [repeat 1 499 ++ repeat 0 13].
Proof. vm_compute. reflexivity. Qed.

(** C1 (as the code has it): a regular file whose source holds exactly the
    declared [S > 0] bytes gets [ceil(S/512)] data blocks, the source bytes
    in every block but the last, and a last block of zeroes only: the
    source's last (partial or full) block is lost. *)
Theorem write_regular_file_const_size_last_block_lost (input : list Z) :
  input <> [] ->
  const_size_blocks input (N.of_nat (length input))
  = removelast (padded_blocks (length input) input) ++ [zero_block].
Proof. apply const_size_blocks_exact. Qed.

(** C1, at the file [/tmp/t] ("test content\n", 13 bytes): its single data
    block is all zeroes. *)
Lemma write_regular_file_const_size_last_block_lost_witness :
  test_content <> []
  /\ const_size_blocks test_content (N.of_nat (length test_content))
     = removelast (padded_blocks (length test_content) test_content) ++ [zero_block]
  /\ const_size_blocks test_content 13 = [zero_block].
Proof.
  assert (Hne : test_content <> []) by discriminate.
  split; [exact Hne|]. split.
  - apply (write_regular_file_const_size_last_block_lost test_content Hne).
  - vm_compute. reflexivity.
Defined.

(** C3 (as the code has it): streaming the 10 bytes of [/a] as [a], in one
    chunk or in two, gives the same archive, whose data block holds the 10
    bytes; the const-size write of the same bytes under the same
    descriptor gives the same header but a data block of zeroes. *)
Theorem streaming_differs_from_const_size :
  file_ (stream_run [take 3 a_content; drop 3 a_content]) = file_ (stream_run [a_content])
  /\ drop 512 (file_ (stream_run [a_content])) = a_content ++ repeat 0 502
  /\ take 512 (file_ const_size_run) = take 512 (file_ (stream_run [a_content]))
  /\ drop 512 (file_ const_size_run) = zero_block.
Proof. vm_compute. repeat split. Qed.

(** C4 (as the code has it): [stream_file_header_pos_] is [-1] after
    construction; only [add_file_streaming] makes it non-negative (it
    succeeds only then), only [stream_file_complete] resets it to [-1] (it
    succeeds only then, but also resets it when the real header then
    fails), and every other call leaves it.  While it is non-negative,
    every admission call other than [add_file_streaming_data] and
    [stream_file_complete] fails and leaves the writer unchanged, with
    [logic_error] (IllegalState), or, for [add_from_filesystem] with a
    target path and the recursive variants, possibly with
    [invalid_argument] from their path checks. *)
Theorem stream_header_pos_protocol {cst} `{Lz4Codec cst} pf (c : api_call) (t : tarfile cst) :
  (forall mode comp type fn,
     stream_file_header_pos_ (snd (construct (cst := cst) mode comp type fn)) = -1)
  /\ (let (r, t') := run_call pf c t in
      match c with
      | Call_add_file_streaming =>
          (stream_file_header_pos_ t' = stream_file_header_pos_ t /\ r <> Ok tt)
          \/ 0 <= stream_file_header_pos_ t'
      | Call_stream_file_complete _ _ _ _ _ _ => keeps_or_resets (stream_file_header_pos_ t) (r, t')
      | _ => stream_file_header_pos_ t' = stream_file_header_pos_ t
      end
      /\ (0 <= stream_file_header_pos_ t -> is_admission_call c = true ->
          t' = t /\ exists e, r = Err e /\ admission_error c e = true)).
Proof.
  split.
  { intros. apply construct_pos. }
  destruct (run_call pf c t) as [r t'] eqn:E. split.
  - pose proof (keeps_cfg_run_call (cst := cst) pf c) as Hk.
    destruct c; simpl;
      try (specialize (Hk t); rewrite E in Hk; unfold cfg in Hk; simpl in Hk;
           injection Hk as _ _ _ _ _ Hk; exact Hk); simpl in E.
    + pose proof (add_file_streaming_pos t) as Ha. rewrite E in Ha. exact Ha.
    + pose proof (stream_file_complete_pos pf filename mode0 uid gid size mod_time0 t) as Hs.
      rewrite E in Hs. exact Hs.
    + pose proof (close_cfg t) as Hc. rewrite E in Hc. apply Hc.
  - intros Hp Hc.
    destruct (admission_fails_while_streaming pf c t Hp Hc) as [e [He Ha]].
    rewrite E in He. injection He as -> ->. eauto.
Qed.

(** C4, counterexample: while a file is streamed,
    [add_from_filesystem("/a", "..")] fails with [invalid_argument], not
    with IllegalState; and a [stream_file_complete] for the name ["/"]
    fails, yet leaves [stream_file_header_pos_] at [-1] although no
    [stream_file_complete] succeeded. *)
Lemma stream_header_pos_counterexample :
  fst (run_calls test_platform
         [Call_add_file_streaming; Call_add_from_filesystem_to "/a" ".." false]
         (file_writer ustar))
  = [Ok tt; Err (InvalidArgument "target path can't be ..")]
  /\ let (rs, t) := run_calls test_platform
                      [Call_add_file_streaming;
                       Call_stream_file_complete "/" 420 1000 1000 0 1700000000]
                      (file_writer ustar) in
     rs = [Ok tt; Err (InvalidArgument "can't tar the rootfs")]
     /\ stream_file_header_pos_ t = -1.
Proof. vm_compute. repeat split. Qed.



(** C6 (as the code has it): [write_header] outside a streamed file
    rejects an entry with [logic_error] ("the same name twice") exactly
    when it is a regular (or contiguous) file and its name, as supplied
    (not normalised), is already in [stored_files_]; it then changes
    nothing.  Every other entry passes this check, whatever its name; and a
    successful [write_header] of a non-directory adds its name to
    [stored_files_], whatever its kind. *)
Theorem write_header_same_name {cst} `{Lz4Codec cst} pf name mode uid gid size time ft ma mi ln
    (t : tarfile cst) :
  stream_file_header_pos_ t < 0 ->
  let (r, t') := write_header pf name mode uid gid size time ft ma mi ln t in
  (r = Err (LogicError msg_same_name)
   <-> is_regular_or_contiguous ft = true /\ name ∈ stored_files_ t)
  /\ (r = Err (LogicError msg_same_name) -> t' = t)
  /\ (r = Ok tt -> ft <> DIRECTORY -> stored_files_ t' = {[ name ]} ∪ stored_files_ t).
Proof.
  intros Hp.
  assert (Hp' : (0 <=? stream_file_header_pos_ t) = false) by (apply Z.leb_gt; exact Hp).
  unfold write_header, bind, get, ret, throw, lift, modify.
  rewrite Hp'.
  destruct (bool_decide (name ∈ stored_files_ t)) eqn:Hb; destruct ft;
    cbn -[write relative_path build_header bool_decide header_names];
    repeat (case_match; cbn -[write relative_path build_header bool_decide header_names] in *;
            simplify_eq).
  all: rewrite ?bool_decide_eq_true, ?bool_decide_eq_false in Hb.
  all: match goal with
       | E : write _ _ _ = (?r, ?t0) |- _ =>
           pose proof (write_not_logic _ _ _ _ _ msg_same_name E);
           pose proof (keeps_result (@stored_files_ _) _ _ _ _ (keeps_files_write _ _) E)
       | _ => idtac
       end.
  all: repeat match goal with E : relative_path _ = Err _ |- _ => apply relative_path_err in E end.
  all: repeat match goal with E : header_names _ _ _ _ = Err _ |- _ => apply header_names_err in E end.
  all: unfold msg_same_name in *; repeat split; intros; destruct_and?; subst;
       try tauto; try congruence.
Qed.

Lemma write_header_same_name_witness :
  let t := snd (add_from_filesystem test_platform "/a" false (callback_writer ustar)) in
  stream_file_header_pos_ t < 0 /\
  let (r, t') := write_header test_platform "/a" 420 1000 1000 10 1700000000 REGULAR_FILE 0 0 "" t in
  (r = Err (LogicError msg_same_name)
   <-> is_regular_or_contiguous REGULAR_FILE = true /\ "/a"%string ∈ stored_files_ t)
  /\ (r = Err (LogicError msg_same_name) -> t' = t)
  /\ (r = Ok tt -> REGULAR_FILE <> DIRECTORY -> stored_files_ t' = {[ "/a"%string ]} ∪ stored_files_ t).
Proof.
  intros t. assert (Hp : stream_file_header_pos_ t < 0) by (vm_compute; reflexivity).
  split; [exact Hp|].
  exact (write_header_same_name test_platform "/a" 420 1000 1000 10 1700000000 REGULAR_FILE 0 0 "" t Hp).
Defined.

(** C6, counterexample: ["/a"] and then ["/a"] to the target ["a"] are
    both accepted as regular files, and both headers carry the archive
    name ["a"] with type flag ['0']. *)
Lemma same_archive_name_counterexample :
  let (rs, t) := run_calls test_platform
                   [Call_add_from_filesystem "/a" false; Call_add_from_filesystem_to "/a" "a" false]
                   (callback_writer ustar) in
  let h1 := fst (nth 0 (written t) ([], false)) in
  let h2 := fst (nth 2 (written t) ([], false)) in
  rs = [Ok tt; Ok tt]
  /\ map snd (written t) = [true; false; true; false]
  /\ field h1 0 100 = bytes_of "a" ++ repeat 0 99
  /\ field h2 0 100 = bytes_of "a" ++ repeat 0 99
  /\ nth 156 h1 0 = 48 /\ nth 156 h2 0 = 48.
Proof. vm_compute. repeat split. Qed.
(** C7 (as the code has it): while a file is streamed, a
    [stream_file_complete] that fails either leaves
    [stream_file_header_pos_] as it was or resets it to [-1]; without
    compression it always resets it, since every step before the reset
    succeeds there, and so any failure (of the real header) comes after the
    reset.  Once it is [-1], every later [stream_file_complete] fails with
    [logic_error] (IllegalState, none in progress) and changes nothing;
    [close] still finalises an open uncompressed archive with its two zero
    blocks.  In a file writer the failed call has skipped the
    [file_seekp(stream_pos)] after the header, so the file position is left
    at the placeholder header of the entry, and [close] writes its two zero
    blocks there, over the placeholder and the block after it. *)
Theorem stream_file_complete_failure {cst} `{Lz4Codec cst} pf name mode uid gid size time
    (t : tarfile cst) :
  0 <= stream_file_header_pos_ t ->
  let (r, t') := stream_file_complete pf name mode uid gid size time t in
  keeps_or_resets (stream_file_header_pos_ t) (r, t')
  /\ (compression_ t = none -> stream_file_header_pos_ t' = -1)
  /\ (stream_file_header_pos_ t' = -1 ->
      forall name' mode' uid' gid' size' time',
        stream_file_complete pf name' mode' uid' gid' size' time' t'
        = (Err (LogicError msg_none_in_progress), t'))
  /\ (opened t' = true -> compression_ t = none ->
      written (snd (close t')) = written t' ++ [(zero_block, false); (zero_block, false)]
      /\ opened (snd (close t')) = false)
  /\ (mode_ t = file_output -> opened t = true -> compression_ t = none -> r <> Ok tt ->
      file_pos_ t' = Z.to_nat (stream_file_header_pos_ t)
      /\ file_ (snd (close t'))
         = write_at (write_at (file_ t') (file_pos_ t') zero_block) (file_pos_ t' + 512) zero_block).
Proof.
  intros Hp.
  pose proof (stream_file_complete_none_resets pf name mode uid gid size time t Hp) as Hn.
  pose proof (stream_file_complete_pos pf name mode uid gid size time t) as Hs.
  pose proof (keeps_compression_stream_file_complete pf name mode uid gid size time t) as Hc.
  pose proof (stream_file_complete_err_file_pos pf name mode uid gid size time t Hp) as Hf.
  destruct (stream_file_complete pf name mode uid gid size time t) as [r t'] eqn:E.
  cbn [fst snd] in Hn, Hc, Hf.
  split; [exact Hs|]. split; [exact Hn|]. split; [|split].
  - intros Hm. intros. apply stream_file_complete_none_in_progress. lia.
  - intros Ho Hc'. apply close_none; [exact Ho|]. rewrite Hc. exact Hc'.
  - intros Hm Ho Hc' Hr. destruct (Hf Hm Ho Hc' Hr) as (F1 & F2 & F3).
    split; [exact F1|]. apply close_none_file; [exact F3| |exact F2]. rewrite Hc. exact Hc'.
Qed.

(** C7, witness: a file writer streaming an entry, completed under the
    name ["/"]. *)
Lemma stream_file_complete_failure_witness :
  let t := snd (run_calls test_platform [Call_add_file_streaming] (file_writer ustar)) in
  0 <= stream_file_header_pos_ t /\
  let (r, t') := stream_file_complete test_platform "/" 420 1000 1000 0 1700000000 t in
  keeps_or_resets (stream_file_header_pos_ t) (r, t')
  /\ (compression_ t = none -> stream_file_header_pos_ t' = -1)
  /\ (stream_file_header_pos_ t' = -1 ->
      forall name' mode' uid' gid' size' time',
        stream_file_complete test_platform name' mode' uid' gid' size' time' t'
        = (Err (LogicError msg_none_in_progress), t'))
  /\ (opened t' = true -> compression_ t = none ->
      written (snd (close t')) = written t' ++ [(zero_block, false); (zero_block, false)]
      /\ opened (snd (close t')) = false)
  /\ (mode_ t = file_output -> opened t = true -> compression_ t = none -> r <> Ok tt ->
      file_pos_ t' = Z.to_nat (stream_file_header_pos_ t)
      /\ file_ (snd (close t'))
         = write_at (write_at (file_ t') (file_pos_ t') zero_block) (file_pos_ t' + 512) zero_block).
Proof.
  intros t. assert (Hp : 0 <= stream_file_header_pos_ t) by (vm_compute; congruence).
  split; [exact Hp|].
  exact (stream_file_complete_failure test_platform "/" 420 1000 1000 0 1700000000 t Hp).
Defined.

(** C7, counterexample: a file writer streams 1100 bytes of [1], and
    [stream_file_complete("/")] fails in its header with
    [invalid_argument]; it leaves [stream_file_header_pos_] at [-1], not
    non-negative: the retry [stream_file_complete("a")] fails with
    IllegalState.  [close] then writes its two zero end blocks at the
    placeholder header, where the failed call left the file position: the
    file holds two zero blocks, over the placeholder and the first 512
    bytes of data, and then the rest of the data; no header describes it. *)
Lemma stream_complete_failure_counterexample :
  let (rs, t) := run_calls test_platform
                   [Call_add_file_streaming;
                    Call_add_file_streaming_data (repeat 1 1100);
                    Call_stream_file_complete "/" 420 1000 1000 1100 1700000000;
                    Call_stream_file_complete "a" 420 1000 1000 1100 1700000000;
                    Call_close]
                   (file_writer ustar) in
  rs = [Ok tt; Ok tt; Err (InvalidArgument "can't tar the rootfs");
        Err (LogicError msg_none_in_progress); Ok tt]
  /\ stream_file_header_pos_ t = -1
  /\ opened t = false
  /\ file_ t = zero_block ++ zero_block ++ repeat 1 512 ++ repeat 1 76 ++ repeat 0 436.
Proof. vm_compute. repeat split. Qed.

(** C8 (as the code has it): in a callback writer without compression,
    [write] calls the callback once with the block and the size [512]; with
    LZ4, [write_lz4_data] calls it once per 512 bytes of compressed output
    and once more, with the size of the rest, when the output is not a
    multiple of 512 bytes. *)
Theorem callback_block_sizes {cst} `{Lz4Codec cst} (d : list Z) (h : bool) (t : tarfile cst) :
  mode_ t = stream_output ->
  (compression_ t = none ->
   callback_log (snd (write d h t))
   = callback_log t ++ if opened t then [(d, BLOCK_SIZE)] else [])
  /\ exists l, callback_log (snd (write_lz4_data t)) = callback_log t ++ l
     /\ map snd l = repeat BLOCK_SIZE (lz4_out_buf_pos_ t / BLOCK_SIZE)%nat
                    ++ (if (lz4_out_buf_pos_ t mod BLOCK_SIZE =? 0)%nat then []
                        else [(lz4_out_buf_pos_ t mod BLOCK_SIZE)%nat]).
Proof.
  destruct t as [ty mo co fn op f fp cl w sp sb si sf c b bp]; cbn; intros ->. split.
  - intros ->. destruct op; [reflexivity|]. rewrite app_nil_r. reflexivity.
  - eexists. split; [reflexivity|]. apply lz4_callback_blocks_sizes. lia.
Qed.

(** C8, witness: a zero block written by a fresh callback writer. *)
Lemma callback_block_sizes_witness :
  mode_ (callback_writer ustar) = stream_output /\
  (compression_ (callback_writer ustar) = none ->
   callback_log (snd (write zero_block false (callback_writer ustar)))
   = callback_log (callback_writer ustar)
     ++ if opened (callback_writer ustar) then [(zero_block, BLOCK_SIZE)] else [])
  /\ exists l, callback_log (snd (write_lz4_data (callback_writer ustar)))
               = callback_log (callback_writer ustar) ++ l
     /\ map snd l = repeat BLOCK_SIZE (lz4_out_buf_pos_ (callback_writer ustar) / BLOCK_SIZE)%nat
                    ++ (if (lz4_out_buf_pos_ (callback_writer ustar) mod BLOCK_SIZE =? 0)%nat then []
                        else [(lz4_out_buf_pos_ (callback_writer ustar) mod BLOCK_SIZE)%nat]).
Proof.
  assert (Hm : mode_ (callback_writer ustar) = stream_output) by reflexivity.
  split; [exact Hm|].
  exact (callback_block_sizes zero_block false (callback_writer ustar) Hm).
Defined.

(** C8, counterexample: with LZ4, constructing a callback writer whose
    compressor writes the 7-byte frame header calls the callback with
    [used_bytes = 7]. *)
Lemma short_callback_block_counterexample :
  let (r, t) := construct (cst := frame_ctx) stream_output lz4 ustar "" in
  r = Ok tt
  /\ callback_log t = [(overwrite zero_block 0 [4; 34; 77; 24; 96; 64; 130], 7%nat)].
Proof. vm_compute. split; reflexivity. Qed.

(** C9: a symbolic link admitted from the file system (without following
    it) and one added by [add_symlink] get the header built with mode
    [0777]: for an open uncompressed writer outside a streamed file, once
    the owner's user and group names are looked up ([header_names]); when
    a lookup throws, nothing is written and its error is returned. *)
Theorem symlink_mode_0777 {cst} `{Lz4Codec cst} pf p n m sp f l uid gid time sl
    (t : tarfile cst) :
  fs_lstat pf p = Some n -> n_kind n = FK_symlink -> fs_stat pf p = Some m ->
  opened t = true -> stream_file_header_pos_ t < 0 -> compression_ t = none ->
  String.eqb p (file_name_ t) = false -> relative_path p = Ok sp -> relative_path l = Ok sl ->
  (let (r, t') := add_from_filesystem pf p false t in
   match header_names pf (type_ t) (n_uid m) (n_gid m) with
   | Ok (un, gn) =>
       r = Ok tt /\
       written t' = written t
                    ++ [(build_header un gn (type_ t) 511 (n_uid m) (n_gid m) 0 (n_mtime m)
                           SYMBOLIC_LINK 0 0 sp (n_target n) (n_target n), true)]
   | Err e => r = Err e /\ written t' = written t
   end)
  /\ (let (r, t') := add_symlink pf f l uid gid time t in
      match header_names pf (type_ t) uid gid with
      | Ok (un, gn) =>
          r = Ok tt /\
          written t' = written t
                       ++ [(build_header un gn (type_ t) 511 uid gid 0 time SYMBOLIC_LINK 0 0 sl f f,
                            true)]
      | Err e => r = Err e /\ written t' = written t
      end).
Proof.
  intros Hl Hk Hs Ho Hp Hc Hf Hsp Hsl.
  destruct t; simpl in *. subst.
  destruct (header_names pf type_0 (n_uid m) (n_gid m)) as [[un1 gn1]|e1] eqn:Hn1;
  destruct (header_names pf type_0 uid gid) as [[un2 gn2]|e2] eqn:Hn2.
  all: assert (Hp' : (0 <=? stream_file_header_pos_0) = false) by (apply Z.leb_gt; exact Hp).
  all: assert (Hv : (file_type_char SYMBOLIC_LINK <=? 50)%N = true) by reflexivity.
  all: assert (Hv' : (50 <? file_type_char SYMBOLIC_LINK)%N = false) by reflexivity.
  all: assert (Hb : forall b : bool, (if b then false else false) = false) by (intros []; reflexivity).
  all: assert (Hnn : forall k, (0 <=? Z.of_nat k) = true) by (intros; apply Z.leb_le; lia).
  all: unfold add_from_filesystem, add_symlink, check_state_and_flush, read_from_filesystem_write_to_tar,
    type_flag, file_exists, file_owner, file_group, get_stat, mode, can_open,
    file_equivalent_present, ino, mod_time, write_header, write, file_tellp, file_seekp,
    file_buffered_write.
  all: unfold bind, get, ret, lift, throw, modify.
  all: destruct type_0, mode_0;
  do 20 (rewrite ?Hv, ?Hv', ?Hb, ?Hl, ?Hs, ?Hk, ?Hp', ?Hf, ?Hsp, ?Hsl, ?Hnn, ?Hn1, ?Hn2;
        cbv beta iota zeta delta [fst snd type_ mode_ compression_ file_name_ opened file_ file_pos_
          callback_log written stream_file_header_pos_ stream_block_ stored_inos_ stored_files_
          lz4_ctx_ lz4_out_buf_ lz4_out_buf_pos_ set_stored_inos negb andb is_file_type_supported
          get_stat file_size major_minor read_symlink mod_time ino file_equivalent_present
          is_regular_or_contiguous set_written set_callback_log set_file set_stored_files]).
  all: split; split; reflexivity.
Qed.

(** C9, witness: the link [/l] to [/a] of the test host, and
    [add_symlink("/a", "s")]; the test host names every owner ["user"] and
    every group ["group"]; the mode field reads [00000777]. *)
Lemma symlink_mode_0777_witness :
  let t := callback_writer ustar in
  ((let (r, t') := add_from_filesystem test_platform "/l" false t in
   match header_names test_platform ustar 1000 1000 with
   | Ok (un, gn) =>
       r = Ok tt /\
       written t' = written t
                    ++ [(build_header un gn ustar 511 1000 1000 0 1700000000
                           SYMBOLIC_LINK 0 0 "l" "/a" "/a", true)]
   | Err e => r = Err e /\ written t' = written t
   end)
  /\ (let (r, t') := add_symlink test_platform "/a" "s" 0 0 0 t in
      match header_names test_platform ustar 0 0 with
      | Ok (un, gn) =>
          r = Ok tt /\
          written t' = written t
                       ++ [(build_header un gn ustar 511 0 0 0 0 SYMBOLIC_LINK 0 0 "s" "/a" "/a", true)]
      | Err e => r = Err e /\ written t' = written t
      end))
  /\ header_names test_platform ustar 1000 1000 = Ok ("user"%string, "group"%string)
  /\ field (build_header "user" "group" ustar 511 1000 1000 0 1700000000
              SYMBOLIC_LINK 0 0 "l" "/a" "/a") 100 8 = bytes_of "00000777".
Proof.
  intros t. split.
  - exact (symlink_mode_0777 test_platform "/l" node_l node_a "l" "/a" "s" 0 0 0 "s" t
             eq_refl eq_refl eq_refl eq_refl ltac:(vm_compute; reflexivity) eq_refl eq_refl
             eq_refl eq_refl).
  - split; vm_compute; reflexivity.
Defined.

(** C10: outside a streamed file, [write_header] of a [SYMBOLIC_LINK]
    writes the header built with the link name as supplied, while for a
    [HARD_LINK] it stores the link name through [relative_path] (and fails
    with its error); a name [relative_path] yields never starts with
    ['/'].  The header is written once the owner's user and group names
    are looked up ([header_names]); a failed lookup is returned, after the
    name has been recorded. *)
Theorem write_header_link_names {cst} `{Lz4Codec cst} pf name mode uid gid size time ma mi ln sn
    (t : tarfile cst) :
  stream_file_header_pos_ t < 0 -> relative_path name = Ok sn ->
  let s := set_stored_files ({[ name ]} ∪ stored_files_ t) t in
  write_header pf name mode uid gid size time SYMBOLIC_LINK ma mi ln t
  = match header_names pf (type_ t) uid gid with
    | Ok (un, gn) =>
        write (build_header un gn (type_ t) mode uid gid size time SYMBOLIC_LINK ma mi sn ln ln) true s
    | Err e => (Err e, s)
    end
  /\ write_header pf name mode uid gid size time HARD_LINK ma mi ln t
     = match relative_path ln with
       | Ok sl =>
           match header_names pf (type_ t) uid gid with
           | Ok (un, gn) =>
               write (build_header un gn (type_ t) mode uid gid size time HARD_LINK ma mi sn ln sl)
                 true s
           | Err e => (Err e, s)
           end
       | Err e => (Err e, s)
       end
  /\ (forall sl, relative_path ln = Ok sl -> forall rest, sl <> String "/" rest).
Proof.
  intros Hp Hn s.
  assert (Hp' : (0 <=? stream_file_header_pos_ t) = false) by (apply Z.leb_gt; exact Hp).
  split; [|split; [|exact (relative_path_no_root ln)]].
  all: unfold write_header, bind, get, ret, lift, throw, modify.
  all: rewrite Hp', andb_false_r.
  all: destruct (type_ t) eqn:Ety; cbn -[write build_header relative_path header_names].
  all: rewrite Hn.
  all: destruct (header_names pf _ uid gid) as [[un gn]|e];
       [destruct (relative_path ln) | destruct (relative_path ln)]; reflexivity.
Qed.

(** C10, witness: the link name ["/a"]; the test host names the owner
    ["user"] and the group ["group"]; the link-name field of the symbolic
    link's header holds ["/a"], the one of the hard link's ["a"]. *)
Lemma write_header_link_names_witness :
  (stream_file_header_pos_ (callback_writer ustar) < 0 /\ relative_path "l" = Ok "l"%string)
  /\ (let s := set_stored_files ({[ "l"%string ]} ∪ stored_files_ (callback_writer ustar))
                 (callback_writer ustar) in
      write_header test_platform "l" 511 1000 1000 0 1700000000 SYMBOLIC_LINK 0 0 "/a"
        (callback_writer ustar)
      = match header_names test_platform ustar 1000 1000 with
        | Ok (un, gn) =>
            write (build_header un gn ustar 511 1000 1000 0 1700000000 SYMBOLIC_LINK 0 0
                     "l" "/a" "/a") true s
        | Err e => (Err e, s)
        end
      /\ write_header test_platform "l" 511 1000 1000 0 1700000000 HARD_LINK 0 0 "/a"
           (callback_writer ustar)
         = match relative_path "/a" with
           | Ok sl =>
               match header_names test_platform ustar 1000 1000 with
               | Ok (un, gn) =>
                   write (build_header un gn ustar 511 1000 1000 0 1700000000
                            HARD_LINK 0 0 "l" "/a" sl) true s
               | Err e => (Err e, s)
               end
           | Err e => (Err e, s)
           end
      /\ (forall sl, relative_path "/a" = Ok sl -> forall rest, sl <> String "/" rest))
  /\ header_names test_platform ustar 1000 1000 = Ok ("user"%string, "group"%string)
  /\ field (build_header "user" "group" ustar 511 1000 1000 0 1700000000 SYMBOLIC_LINK 0 0
              "l" "/a" "/a") 157 100 = bytes_of "/a" ++ repeat 0 98
  /\ field (build_header "user" "group" ustar 511 1000 1000 0 1700000000 HARD_LINK 0 0
              "l" "/a" "a") 157 100 = bytes_of "a" ++ repeat 0 99.
Proof.
  assert (Hp : stream_file_header_pos_ (callback_writer ustar) < 0) by (vm_compute; reflexivity).
  assert (Hn : relative_path "l" = Ok "l"%string) by reflexivity.
  split; [split; assumption|].
  split; [exact (write_header_link_names test_platform "l" 511 1000 1000 0 1700000000 0 0 "/a" "l"
                   (callback_writer ustar) Hp Hn)|].
  split; [|split]; vm_compute; reflexivity.
Defined.

(* ================================================================== *)
(** * Further properties of the code *)

(** X1: [Filesystem::permissions_str] is the [ls -l] mode string: the type
    character of the path, then [r], [w] or [x] for each of the nine
    permission bits 8 .. 0 of [mode] that is set and [-] for each that is
    clear; an error of [type_flag] is passed on. *)
Theorem permissions_str_ls pf path :
  permissions_str pf path =
  match type_flag pf path with
  | Err e => Err e
  | Ok ty =>
      let b (i : N) (c : ascii) := if N.testbit (mode pf path) i then c else "-"%char in
      Ok (string_of_list_ascii
            [file_type_to_char ty; b 8%N "r"%char; b 7%N "w"%char; b 6%N "x"%char;
             b 5%N "r"%char; b 4%N "w"%char; b 3%N "x"%char;
             b 2%N "r"%char; b 1%N "w"%char; b 0%N "x"%char])
  end.
Proof.
  unfold permissions_str. destruct (type_flag pf path) as [ty|e]; [|reflexivity].
  cbn [permissions_loop].
  change (N.of_nat 0) with 0%N; change (N.of_nat 1) with 1%N; change (N.of_nat 2) with 2%N;
  change (N.of_nat 3) with 3%N; change (N.of_nat 4) with 4%N; change (N.of_nat 5) with 5%N;
  change (N.of_nat 6) with 6%N; change (N.of_nat 7) with 7%N; change (N.of_nat 8) with 8%N.
  rewrite !land_low9 by lia.
  destruct (N.testbit (mode pf path) 0), (N.testbit (mode pf path) 1),
    (N.testbit (mode pf path) 2), (N.testbit (mode pf path) 3),
    (N.testbit (mode pf path) 4), (N.testbit (mode pf path) 5),
    (N.testbit (mode pf path) 6), (N.testbit (mode pf path) 7),
    (N.testbit (mode pf path) 8); reflexivity.
Qed.

(** X2: [StdFilesytem::mode] keeps exactly the nine permission bits of a
    [std::filesystem::perms] value: it equals [perms & 0777] (so
    [perms::unknown] gives 0777). *)
Theorem mode_of_perms_land (perms : N) : mode_of_perms perms = N.land perms 511.
Proof.
  rewrite mode_of_perms_low.
  assert (Hlt : (N.land perms 511 < 512)%N).
  { change 511%N with (N.ones 9). rewrite N.land_ones. apply N.mod_lt. discriminate. }
  rewrite <- (N2Nat.id (N.land perms 511)). apply mode_of_perms_small. lia.
Qed.

(** X3: [to_octal_ascii value width] is [width] octal ASCII digits that read
    back as [value mod 8^width]: a value too wide for its field silently
    loses its high digits. *)
Theorem to_octal_ascii_truncates (value : N) (width : nat) :
  length (to_octal_ascii value width) = width
  /\ octal_read (to_octal_ascii value width) = Z.of_N (value mod 8 ^ N.of_nat width)
  /\ Forall (fun c => 48 <= c <= 55) (to_octal_ascii value width).
Proof.
  split; [apply length_to_octal_ascii|].
  split; [apply octal_read_to_octal_ascii | apply to_octal_ascii_digits].
Qed.

(** X4: The mode, uid and gid fields of a header read back as their value mod
    8^8, the size field as [size mod 8^12] and the mtime field as
    [time mod 8^12] (a negative time is taken modulo 2^64 first); no error
    is raised for values that do not fit. *)
Theorem build_header_numeric_fields un gn type mode uid gid size time ft ma mi sn ln sl :
  let h := build_header un gn type mode uid gid size time ft ma mi sn ln sl in
  octal_read (field h 100 8) = Z.of_N (mode mod 8 ^ 8)
  /\ octal_read (field h 108 8) = Z.of_N (uid mod 8 ^ 8)
  /\ octal_read (field h 116 8) = Z.of_N (gid mod 8 ^ 8)
  /\ octal_read (field h 124 12) = Z.of_N (size mod 8 ^ 12)
  /\ octal_read (field h 136 12) = time mod 8 ^ 12.
Proof.
  intros h. unfold h.
  rewrite !build_header_field_low by lia. unfold numeric_stage.
  repeat split;
  repeat (rewrite field_wib_num_out; [| header_len | lia]);
  rewrite field_wib_num_same by header_len;
  rewrite octal_read_to_octal_ascii; try reflexivity.
  rewrite N2Z.inj_mod, Z2N.id by (apply Z.mod_pos_bound; lia).
  change (Z.of_N (8 ^ N.of_nat 12)) with (8 ^ 12).
  apply Z.mod_mod_divide. exists (2 ^ 28). reflexivity.
Qed.

(** X5: The name and prefix fields of a header: in unix_v7, for a name of at
    most 100 bytes, or when no '/' lies in its first 155 bytes, the name
    field holds the first 100 bytes of the name (zero padded) and the prefix
    is zero.  Otherwise, in ustar, the name is split at the last '/' among
    its first 155 bytes: the prefix holds the part before it, the name field
    the first 100 bytes after it, and when that rest fits the name is prefix
    ++ '/' ++ name field. *)
Theorem build_header_name_prefix un gn type mode uid gid size time ft ma mi sn ln sl :
  let h := build_header un gn type mode uid gid size time ft ma mi sn ln sl in
  let name := bytes_of sn in
  ((type = unix_v7 \/ (length name <= 100)%nat \/ rfind path_separator (take 155 name) = None) ->
   field h 0 100 = take 100 name ++ repeat 0 (100 - length (take 100 name))
   /\ field h 345 155 = repeat 0 155)
  /\ (forall k, type = ustar -> (100 < length name)%nat ->
      rfind path_separator (take 155 name) = Some k ->
      field h 345 155 = take k name ++ repeat 0 (155 - k)
      /\ field h 0 100 = take 100 (drop (S k) name)
                         ++ repeat 0 (100 - length (take 100 (drop (S k) name)))
      /\ ((length name - S k <= 100)%nat ->
          name = take k (field h 345 155) ++ [path_separator]
                 ++ take (length name - S k) (field h 0 100))).
Proof.
  intros h name. destruct (type_stage_zero mode uid gid size time ft) as [Hl Hz].
  unfold h, name in *. rewrite !build_header_field_name by lia.
  split.
  - intros Hc. apply write_name_and_prefix_v7_fields; assumption.
  - intros k -> Hn Hk.
    destruct (write_name_and_prefix_split_fields _ _ k Hl Hz Hn Hk) as (E1 & E2 & E3).
    rewrite E1, E2. split; [reflexivity|]. split; [reflexivity|]. intros Hr.
    destruct (rfind_spec _ _ _ Hk) as [Hk1 _]. rewrite length_take in Hk1.
    set (nm := bytes_of sn) in *.
    rewrite take_app_le by (rewrite length_take; lia).
    rewrite take_take, Nat.min_l by lia.
    rewrite take_app_le by (rewrite length_take, length_drop; lia).
    rewrite take_take, Nat.min_l by lia.
    replace (length nm - S k)%nat with (length (drop (S k) nm)) by (rewrite length_drop; lia).
    rewrite (take_ge (drop (S k) nm)) by lia. exact E3.
Qed.

(** X6: A path [Filesystem::relative_path] returns starts with neither '/' nor
    '..', and [relative_path] leaves it unchanged (the function is
    idempotent). *)
Theorem relative_path_normal_form (path r : string) :
  relative_path path = Ok r ->
  relative_path r = Ok r
  /\ (forall rest, r <> String "/" rest /\ r <> String "." (String "." rest)).
Proof.
  intros E. split.
  - apply relative_path_fixed; [exact (relative_path_no_root _ _ E) | exact (relative_path_no_dotdot _ _ E)].
  - intros rest. split; [exact (relative_path_no_root _ _ E rest) | exact (relative_path_no_dotdot _ _ E rest)].
Qed.

(** X6, witness. *)
Lemma relative_path_normal_form_witness :
  relative_path "//../x/y" = Ok "x/y"%string /\ relative_path "x/y" = Ok "x/y"%string.
Proof.
  split; [reflexivity|].
  exact (proj1 (relative_path_normal_form "//../x/y" "x/y" eq_refl)).
Defined.

(** X7: [Filesystem::relative_path] returns its argument unchanged exactly when
    it starts with neither '/' nor '..'. *)
Theorem relative_path_unchanged (path : string) :
  relative_path path = Ok path
  <-> (forall rest, path <> String "/" rest /\ path <> String "." (String "." rest)).
Proof.
  split.
  - intros E rest. split; [exact (relative_path_no_root _ _ E rest) | exact (relative_path_no_dotdot _ _ E rest)].
  - intros H. apply relative_path_fixed; intros rest; apply H.
Qed.

(** X8: [group_name_buffered] and [user_name_buffered] cache a resolved name:
    asking again for the same id returns it without consulting the system
    database; the call changes no other cache entry and not the other cache. *)
Theorem name_caches (db db' : NameDb) (id : N) (os : PosixOS) :
  (forall name os', group_name_buffered db id os = (Ok name, os') ->
     group_name_buffered db' id os' = (Ok name, os')
     /\ (forall g, g <> id -> grpid_cache_ os' !! g = grpid_cache_ os !! g)
     /\ pwuid_cache_ os' = pwuid_cache_ os)
  /\ (forall name os', user_name_buffered db id os = (Ok name, os') ->
     user_name_buffered db' id os' = (Ok name, os')
     /\ (forall u, u <> id -> pwuid_cache_ os' !! u = pwuid_cache_ os !! u)
     /\ grpid_cache_ os' = grpid_cache_ os).
Proof.
  split; intros name os' E.
  - unfold group_name_buffered in *.
    destruct (grpid_cache_ os !! id) as [n|] eqn:Ec.
    + injection E as <- <-. rewrite Ec. auto.
    + destruct (getgrgid_r db id) as [code result].
      destruct (throw_exception_getpwd_getgrgid_on_error code); [|discriminate].
      injection E as <- <-. simpl. rewrite lookup_insert_eq.
      split; [reflexivity|]. split; [|reflexivity].
      intros g Hg. apply lookup_insert_ne. congruence.
  - unfold user_name_buffered in *.
    destruct (pwuid_cache_ os !! id) as [n|] eqn:Ec.
    + injection E as <- <-. rewrite Ec. auto.
    + destruct (getpwuid_r db id) as [code result].
      destruct (negb (code =? 0)); [discriminate|].
      destruct (throw_exception_getpwd_getgrgid_on_error code); [|discriminate].
      injection E as <- <-. simpl. rewrite lookup_insert_eq.
      split; [reflexivity|]. split; [|reflexivity].
      intros u Hu. apply lookup_insert_ne. congruence.
Qed.

(** X9: A group id not in the cache and without a database entry is named by
    its decimal digits (and cached) when the lookup returns 0, ENOENT,
    ESRCH, EBADF or EPERM; any other code throws a system error and leaves
    the caches unchanged. *)
Theorem group_name_missing_entry (db : NameDb) (gid : N) (os : PosixOS) (code : Z) :
  grpid_cache_ os !! gid = None -> getgrgid_r db gid = (code, None) ->
  (tolerated code ->
   exists name, group_name_buffered db gid os
                = (Ok name, mk_PosixOS (<[gid := name]> (grpid_cache_ os)) (pwuid_cache_ os))
   /\ decimal_read name = gid
   /\ Forall (fun a => (48 <= N_of_ascii a <= 57)%N) (list_ascii_of_string name))
  /\ (~ tolerated code -> group_name_buffered db gid os = (Err SystemError, os)).
Proof.
  intros Ec Eg. unfold group_name_buffered. rewrite Ec, Eg. split.
  - intros Ht. apply throw_exception_ok in Ht. rewrite Ht.
    exists (to_string gid). split; [reflexivity | apply to_string_read].
  - intros Hn. rewrite (throw_exception_err _ Hn). reflexivity.
Qed.

(** X9, witness. *)
Lemma group_name_missing_entry_witness :
  grpid_cache_ (mk_PosixOS ∅ ∅) !! 1000%N = None /\ getgrgid_r (errno_db ENOENT) 1000 = (ENOENT, None)
  /\ group_name_buffered (errno_db ENOENT) 1000 (mk_PosixOS ∅ ∅)
     = (Ok "1000"%string, mk_PosixOS (<[1000%N := "1000"%string]> ∅) ∅).
Proof.
  assert (H1 : grpid_cache_ (mk_PosixOS ∅ ∅) !! 1000%N = None) by reflexivity.
  assert (H2 : getgrgid_r (errno_db ENOENT) 1000 = (ENOENT, None)) by reflexivity.
  split; [exact H1|]. split; [exact H2|].
  destruct (proj1 (group_name_missing_entry (errno_db ENOENT) 1000 (mk_PosixOS ∅ ∅) ENOENT H1 H2)
              (or_intror (or_introl eq_refl))) as [name [E [Hr _]]].
  rewrite E. vm_compute in E. injection E as <- _. reflexivity.
Defined.

(** X10: A user id not in the cache and without a database entry is named by its
    decimal digits (and cached) only when the lookup returns 0; any other
    code, ENOENT and the other codes [group_name_buffered] tolerates
    included, throws a system error and leaves the caches unchanged. *)
Theorem user_name_missing_entry (db : NameDb) (uid : N) (os : PosixOS) (code : Z) :
  pwuid_cache_ os !! uid = None -> getpwuid_r db uid = (code, None) ->
  (code = 0 ->
   exists name, user_name_buffered db uid os
                = (Ok name, mk_PosixOS (grpid_cache_ os) (<[uid := name]> (pwuid_cache_ os)))
   /\ decimal_read name = uid
   /\ Forall (fun a => (48 <= N_of_ascii a <= 57)%N) (list_ascii_of_string name))
  /\ (code <> 0 -> user_name_buffered db uid os = (Err SystemError, os)).
Proof.
  intros Ec Eg. unfold user_name_buffered. rewrite Ec, Eg. split.
  - intros ->. simpl. exists (to_string uid). split; [reflexivity | apply to_string_read].
  - intros Hc. destruct (Z.eqb_spec code 0); [contradiction | reflexivity].
Qed.

(** X10, witness. *)
Lemma user_name_missing_entry_witness :
  pwuid_cache_ (mk_PosixOS ∅ ∅) !! 1000%N = None /\ getpwuid_r (errno_db ENOENT) 1000 = (ENOENT, None)
  /\ user_name_buffered (errno_db ENOENT) 1000 (mk_PosixOS ∅ ∅) = (Err SystemError, mk_PosixOS ∅ ∅).
Proof.
  assert (H1 : pwuid_cache_ (mk_PosixOS ∅ ∅) !! 1000%N = None) by reflexivity.
  assert (H2 : getpwuid_r (errno_db ENOENT) 1000 = (ENOENT, None)) by reflexivity.
  split; [exact H1|]. split; [exact H2|].
  exact (proj2 (user_name_missing_entry (errno_db ENOENT) 1000 (mk_PosixOS ∅ ∅) ENOENT H1 H2)
           ltac:(unfold ENOENT; discriminate)).
Defined.

(** X11: [write_regular_file_dynamic_size] of a readable file, in an open
    uncompressed writer, returns the file's byte count and writes its bytes
    cut into 512-byte blocks, the last one zero padded: ceil(n/512) blocks
    whose concatenation is the content followed by fewer than 512 zeros. *)
Theorem write_regular_file_dynamic_size_padded {cst} `{Lz4Codec cst} pf name n (t : tarfile cst) :
  fs_stat pf name = Some n -> n_readable n = true ->
  opened t = true -> compression_ t = none ->
  let c := n_content n in
  let bs := padded_blocks (length c) c in
  fst (write_regular_file_dynamic_size pf name t) = Ok (N.of_nat (length c))
  /\ written (snd (write_regular_file_dynamic_size pf name t))
     = written t ++ map (fun b => (b, false)) bs
  /\ Forall (fun b => length b = BLOCK_SIZE) bs
  /\ exists k, concat bs = c ++ repeat 0 k /\ (k < BLOCK_SIZE)%nat
               /\ length bs = ((length c + 511) / 512)%nat.
Proof.
  intros Hs Hr Ho Hc. cbv zeta.
  pose proof (dynamic_size_blocks_shape (n_content n)) as Hd.
  destruct (dynamic_size_blocks (n_content n)) as [blocks processed] eqn:Ed.
  destruct Hd as (-> & -> & Hf & Hk).
  unfold write_regular_file_dynamic_size, bind, lift, read_file.
  rewrite Hs, Hr. cbv beta iota. rewrite Ed.
  destruct (write_blocks_none_open (padded_blocks (length (n_content n)) (n_content n)) t Ho Hc)
    as (B1 & B2 & _).
  destruct (write_blocks _ t) as [r1 t1]. cbn in B1, B2 |- *. subst r1.
  split; [reflexivity|]. split; [exact B2|]. split; assumption.
Qed.

(** X11, witness. *)
Lemma write_regular_file_dynamic_size_padded_witness :
  fst (write_regular_file_dynamic_size test_platform "/tmp/t" (file_writer ustar)) = Ok 13%N
  /\ written (snd (write_regular_file_dynamic_size test_platform "/tmp/t" (file_writer ustar)))
     = [(test_content ++ repeat 0 499, false)].
Proof.
  destruct (write_regular_file_dynamic_size_padded test_platform "/tmp/t" node_t (file_writer ustar)
              eq_refl eq_refl ltac:(vm_compute; reflexivity) ltac:(vm_compute; reflexivity))
    as (H1 & H2 & _).
  split; [exact H1|]. rewrite H2. vm_compute. reflexivity.
Defined.

(** X12: [add_file_streaming_data] on an open uncompressed writer with a stream in
    progress succeeds, loses no byte and keeps fewer than 512 bytes back:
    the full blocks it writes followed by the bytes it keeps are the bytes
    kept before followed by the new data. *)
Theorem add_file_streaming_data_conserves {cst} `{Lz4Codec cst} (data : list Z) (t : tarfile cst) :
  opened t = true -> 0 <= stream_file_header_pos_ t -> compression_ t = none ->
  (length (stream_block_ t) < BLOCK_SIZE)%nat ->
  let (r, t') := add_file_streaming_data data t in
  r = Ok tt
  /\ stream_file_header_pos_ t' = stream_file_header_pos_ t
  /\ (length (stream_block_ t') < BLOCK_SIZE)%nat
  /\ exists bs, written t' = written t ++ map (fun b => (b, false)) bs
                /\ Forall (fun b => length b = BLOCK_SIZE) bs
                /\ concat bs ++ stream_block_ t' = stream_block_ t ++ data.
Proof.
  intros Ho Hp Hc Hs.
  assert (Hp' : (stream_file_header_pos_ t <? 0) = false) by (apply Z.ltb_ge; exact Hp).
  unfold add_file_streaming_data, bind, get, ret, modify.
  rewrite Ho, Hp'. cbn [negb].
  destruct (Nat.leb_spec BLOCK_SIZE (length (stream_block_ t) + length data)) as [Hl|Hl].
  - set (blk := stream_block_ t ++ take (BLOCK_SIZE - length (stream_block_ t)) data).
    destruct (write_none_open blk false t Ho Hc) as (W1 & W2 & W3 & W4 & W5 & W6).
    destruct (write blk false t) as [r1 t1] eqn:E. simpl in W1, W2, W3, W4, W5, W6. subst r1.
    set (t2 := set_stream_block [] t1).
    set (d2 := drop (BLOCK_SIZE - length (stream_block_ t)) data).
    pose proof (full_blocks_spec (length d2) d2) as Hfb.
    destruct (full_blocks (length d2) d2) as [bs rest] eqn:Efb.
    destruct Hfb as (F1 & F2 & F3); [apply Nat.Div0.div_le_upper_bound; unfold BLOCK_SIZE; lia|].
    destruct (write_blocks_none_open bs t2) as (B1 & B2 & B3 & B4 & B5 & B6);
      [destruct t1; exact W3 | destruct t1; exact W4|].
    destruct (write_blocks bs t2) as [r3 t3] eqn:E3. simpl in B1, B2, B3, B4, B5, B6. subst r3.
    cbn [stream_file_header_pos_ stream_block_ written set_stream_block].
    rewrite B5, B6, W6. cbn [app].
    split; [reflexivity|]. split; [reflexivity|]. split; [exact F3|].
    exists (blk :: bs). split; [|split].
    + rewrite B2, W2, <- app_assoc. reflexivity.
    + constructor; [|exact F2]. unfold blk. rewrite length_app, length_take. unfold BLOCK_SIZE in *. lia.
    + cbn [concat]. rewrite <- app_assoc, F1. unfold blk, d2. rewrite <- app_assoc, take_drop. reflexivity.
  - pose proof (full_blocks_spec (length data) data) as Hfb.
    destruct (full_blocks (length data) data) as [bs rest] eqn:Efb.
    destruct Hfb as (F1 & F2 & F3); [apply Nat.Div0.div_le_upper_bound; unfold BLOCK_SIZE; lia|].
    assert (bs = []) as ->.
    { destruct bs as [|b bs]; [reflexivity|]. exfalso. inversion F2 as [|? ? Hb]; clear F2.
      apply (f_equal length) in F1. cbn [concat] in F1. rewrite !length_app in F1. lia. }
    cbn [concat app] in F1. subst rest.
    unfold write_blocks, ret. cbn [set_stream_block stream_block_ stream_file_header_pos_ written map].
    split; [reflexivity|]. split; [reflexivity|]. split; [rewrite length_app; lia|].
    exists []. cbn. rewrite app_nil_r. split; [reflexivity|]. split; [constructor|reflexivity].
Qed.

(** X12, witness. *)
Lemma add_file_streaming_data_conserves_witness :
  (opened streaming_writer = true /\ 0 <= stream_file_header_pos_ streaming_writer
   /\ compression_ streaming_writer = none
   /\ (length (stream_block_ streaming_writer) < BLOCK_SIZE)%nat)
  /\ let (r, t') := add_file_streaming_data (repeat 7 600) streaming_writer in
     r = Ok tt
     /\ stream_file_header_pos_ t' = stream_file_header_pos_ streaming_writer
     /\ (length (stream_block_ t') < BLOCK_SIZE)%nat
     /\ exists bs, written t' = written streaming_writer ++ map (fun b => (b, false)) bs
                   /\ Forall (fun b => length b = BLOCK_SIZE) bs
                   /\ concat bs ++ stream_block_ t' = stream_block_ streaming_writer ++ repeat 7 600.
Proof.
  assert (H1 : opened streaming_writer = true) by (vm_compute; reflexivity).
  assert (H2 : 0 <= stream_file_header_pos_ streaming_writer) by (apply Z.leb_le; vm_compute; reflexivity).
  assert (H3 : compression_ streaming_writer = none) by (vm_compute; reflexivity).
  assert (H4 : (length (stream_block_ streaming_writer) < BLOCK_SIZE)%nat)
    by (apply Nat.ltb_lt; vm_compute; reflexivity).
  split; [tauto|].
  exact (add_file_streaming_data_conserves (repeat 7 600) streaming_writer H1 H2 H3 H4).
Defined.

(** X13: [close] of an uncompressed writer never fails; it appends the two
    zero blocks of the end of archive when the writer is open and nothing
    otherwise, leaves it closed, and after it a second [close] and every
    [write] change nothing. *)
Theorem close_none_once {cst} `{Lz4Codec cst} (t : tarfile cst) :
  compression_ t = none ->
  let t' := snd (close t) in
  fst (close t) = Ok tt
  /\ opened t' = false
  /\ written t' = written t ++ (if opened t then [(zero_block, false); (zero_block, false)] else [])
  /\ close t' = (Ok tt, t')
  /\ (forall d h, write d h t' = (Ok tt, t')).
Proof.
  destruct t as [ty mo co fn op f fp cl w sp sb si sf c b bp]; cbn; intros ->.
  destruct op; cbn.
  - destruct mo; cbn; rewrite <- ?app_assoc; repeat split.
  - rewrite app_nil_r. repeat split.
Qed.

(** X13, witness. *)
Lemma close_none_once_witness :
  compression_ (file_writer ustar) = none
  /\ written (snd (close (file_writer ustar))) = [(zero_block, false); (zero_block, false)]
  /\ close (snd (close (file_writer ustar))) = (Ok tt, snd (close (file_writer ustar))).
Proof.
  assert (H : compression_ (file_writer ustar) = none) by (vm_compute; reflexivity).
  destruct (close_none_once (file_writer ustar) H) as (_ & _ & Hw & Hc & _).
  split; [exact H|]. split; [|exact Hc].
  rewrite Hw. vm_compute. reflexivity.
Defined.

(** X14: In a unix_v7 archive, [write_header] of a character device, a block
    device or a FIFO throws a logic error and changes nothing. *)
Theorem write_header_unix_v7_unsupported {cst} `{Lz4Codec cst} pf name mode uid gid size time
    ft ma mi ln (t : tarfile cst) :
  type_ t = unix_v7 -> stream_file_header_pos_ t < 0 ->
  ft = CHARACTER_SPECIAL_FILE \/ ft = BLOCK_SPECIAL_FILE \/ ft = FIFO ->
  write_header pf name mode uid gid size time ft ma mi ln t
  = (Err (LogicError "unsupported file type for unix_v7 format"), t).
Proof.
  intros Ht Hp Hft.
  assert (Hp' : (0 <=? stream_file_header_pos_ t) = false) by (apply Z.leb_gt; exact Hp).
  unfold write_header, bind, get, throw, ret. rewrite Hp', Ht.
  destruct Hft as [ -> | [ -> | -> ]]; cbn; rewrite andb_false_r; reflexivity.
Qed.

(** X14, witness. *)
Lemma write_header_unix_v7_unsupported_witness :
  (type_ (file_writer unix_v7) = unix_v7 /\ stream_file_header_pos_ (file_writer unix_v7) < 0)
  /\ write_header test_platform "p" 420 1000 1000 0 1700000000 FIFO 0 0 "" (file_writer unix_v7)
     = (Err (LogicError "unsupported file type for unix_v7 format"), file_writer unix_v7).
Proof.
  assert (H1 : type_ (file_writer unix_v7) = unix_v7) by (vm_compute; reflexivity).
  assert (H2 : stream_file_header_pos_ (file_writer unix_v7) < 0) by (apply Z.ltb_lt; vm_compute; reflexivity).
  split; [tauto|].
  exact (write_header_unix_v7_unsupported test_platform "p" 420 1000 1000 0 1700000000 FIFO 0 0 ""
           (file_writer unix_v7) H1 H2 (or_intror (or_intror eq_refl))).
Defined.

(** X15: In contrast, [add_from_filesystem] of a character device, a block device
    or a FIFO (not a symbolic link) into an open unix_v7 archive succeeds
    without writing anything: the node is silently skipped. *)
Theorem add_from_filesystem_unix_v7_skips {cst} `{Lz4Codec cst} pf p r n m (t : tarfile cst) :
  type_ t = unix_v7 -> opened t = true -> stream_file_header_pos_ t < 0 -> compression_ t = none ->
  p <> file_name_ t ->
  fs_lstat pf p = Some n -> n_kind n <> FK_symlink ->
  fs_stat pf p = Some m ->
  n_kind m = FK_character \/ n_kind m = FK_block \/ n_kind m = FK_fifo ->
  add_from_filesystem pf p r t = (Ok tt, t).
Proof.
  intros Ht Ho Hp Hc Hn Hl Hk Hs Hm.
  assert (Hp' : (0 <=? stream_file_header_pos_ t) = false) by (apply Z.leb_gt; exact Hp).
  assert (Hf : String.eqb p (file_name_ t) = false) by (apply String.eqb_neq; exact Hn).
  assert (Htf : exists ft, type_flag pf p = Ok ft
                /\ (ft = CHARACTER_SPECIAL_FILE \/ ft = BLOCK_SPECIAL_FILE \/ ft = FIFO)).
  { unfold type_flag. rewrite Hl, Hs.
    destruct (n_kind n); try congruence;
      destruct Hm as [ -> | [ -> | -> ]]; eauto 6. }
  destruct Htf as [ft [Htf Hft]].
  unfold add_from_filesystem, check_state_and_flush, read_from_filesystem_write_to_tar,
    bind, get, throw, ret, lift.
  rewrite Ho, Hp', Hc.
  assert (Hfe : file_exists pf p = true) by (unfold file_exists; rewrite Hs; reflexivity).
  assert (Hown : file_owner pf p = Ok (n_uid m)) by (unfold file_owner, get_stat; rewrite Hs; reflexivity).
  assert (Hgrp : file_group pf p = Ok (n_gid m)) by (unfold file_group, get_stat; rewrite Hs; reflexivity).
  assert (Hmm : major_minor pf p = Ok (n_major m, n_minor m))
    by (unfold major_minor, get_stat; rewrite Hs; reflexivity).
  cbn. rewrite Hfe. cbn [negb]. rewrite Hf, Htf.
  destruct Hft as [ -> | [ -> | -> ]]; destruct r; cbn;
    rewrite Hown, Hgrp; cbn; rewrite ?Hmm; cbn; rewrite Ht; reflexivity.
Qed.

(** X15, witness. *)
Lemma add_from_filesystem_unix_v7_skips_witness :
  add_from_filesystem fifo_platform "/p" false (file_writer unix_v7) = (Ok tt, file_writer unix_v7).
Proof.
  set (n := mk_node FK_fifo 420 1000 1000 21 1 [] "").
  apply (add_from_filesystem_unix_v7_skips fifo_platform "/p" false n n).
  - vm_compute; reflexivity.
  - vm_compute; reflexivity.
  - apply Z.ltb_lt; vm_compute; reflexivity.
  - vm_compute; reflexivity.
  - vm_compute; discriminate.
  - reflexivity.
  - discriminate.
  - reflexivity.
  - right; right; reflexivity.
Defined.

(** X16: [write_header] of a DIRECTORY with an empty name throws out_of_range;
    otherwise it adds a trailing '/' when the name has none and records
    that name as stored; once the owner's user and group names are looked
    up ([header_names]) it writes one header whose type is DIRECTORY in
    ustar and REGULAR_FILE in unix_v7, and a failed lookup is returned with
    nothing written. *)
Theorem write_header_directory {cst} `{Lz4Codec cst} pf name mode uid gid size time ma mi ln
    (t : tarfile cst) :
  stream_file_header_pos_ t < 0 -> opened t = true -> compression_ t = none ->
  let r := write_header pf name mode uid gid size time DIRECTORY ma mi ln t in
  match rev (list_ascii_of_string name) with
  | [] => r = (Err OutOfRange, t)
  | c :: _ =>
      let dname := if Ascii.eqb c "/"%char then name else (name ++ "/")%string in
      let ft := match type_ t with unix_v7 => REGULAR_FILE | ustar => DIRECTORY end in
      forall sn sl, relative_path dname = Ok sn -> relative_path ln = Ok sl ->
      stored_files_ (snd r) = {[ dname ]} ∪ stored_files_ t
      /\ match header_names pf (type_ t) uid gid with
         | Ok (un, gn) =>
             fst r = Ok tt
             /\ written (snd r) = written t ++ [(build_header un gn (type_ t) mode uid gid size time
                                                  ft ma mi sn ln sl, true)]
         | Err e => fst r = Err e /\ written (snd r) = written t
         end
  end.
Proof.
  intros Hp Ho Hc.
  assert (Hp' : (0 <=? stream_file_header_pos_ t) = false) by (apply Z.leb_gt; exact Hp).
  cbv zeta. unfold write_header, bind, get, throw, ret, modify, lift.
  rewrite Hp'. cbn [is_regular_or_contiguous]. rewrite andb_false_r.
  destruct (rev (list_ascii_of_string name)) as [|c l]; [reflexivity|].
  intros sn sl Hsn Hsl.
  destruct (type_ t) eqn:Ety; cbn -[build_header relative_path write header_names];
    rewrite Hsn; cbn -[build_header relative_path write header_names]; rewrite Hsl;
    cbn -[build_header relative_path write header_names];
    (destruct (header_names pf _ uid gid) as [[un gn]|e];
     cbn -[build_header relative_path write header_names];
     [ match goal with |- context [write ?d ?h ?s] =>
         pose proof (keeps_files_write d h s) as Kf;
         destruct (write_none_open d h s) as (W1 & W2 & _); [cbn; assumption ..|];
         destruct (write d h s) as [r1 t1]; cbn -[build_header] in Kf, W1, W2 |- *; subst r1
       end;
       (split; [exact Kf|]); (split; [reflexivity|]); rewrite W2; reflexivity
     | split; [reflexivity|split; reflexivity] ]).
Qed.

(** X16, witness. *)
Lemma write_header_directory_witness :
  let t := file_writer ustar in
  stream_file_header_pos_ t < 0 /\ opened t = true /\ compression_ t = none
  /\ stored_files_ (snd (write_header test_platform "d" 493 1000 1000 0 1700000000 DIRECTORY 0 0 "" t))
     = {[ "d/"%string ]} ∪ stored_files_ t.
Proof.
  intros t.
  assert (H1 : stream_file_header_pos_ t < 0) by (apply Z.ltb_lt; vm_compute; reflexivity).
  assert (H2 : opened t = true) by (vm_compute; reflexivity).
  assert (H3 : compression_ t = none) by (vm_compute; reflexivity).
  split; [exact H1|]. split; [exact H2|]. split; [exact H3|].
  exact (proj1 (write_header_directory test_platform "d" 493 1000 1000 0 1700000000 0 0 "" t
                  H1 H2 H3 "d/" "" eq_refl eq_refl)).
Defined.
